(** * Lead harvester: enrichment and scoring pipeline (enrich_urls.mjs)

    A shallow embedding of the enrichment pipeline and of its
    configuration tables (scoring_config.mjs), followed by the properties
    established about it.

    JavaScript strings are sequences of UTF-16 code units; a code unit is a
    natural number and a string a list of them, so [length], [firstn] and
    [skipn] are [.length] and [.slice].  The third-party libraries the
    program calls (tldts, the WHATWG [URL] class, cheerio, [fetch]) are
    not part of the program: they are parameters of the development, each
    with the interface the program uses. *)

From Stdlib Require Import List Bool Arith ZArith NArith QArith Qround Lia Permutation Sorted.
From Stdlib Require Strings.String Strings.Ascii.
Import ListNotations String.StringSyntax.
Close Scope Q_scope.
Open Scope string_scope.
Open Scope list_scope.

(** ** JavaScript strings *)

Definition jsstring := list N.

(** A string literal of the source. *)
Definition js (s : String.string) : jsstring :=
  map Ascii.N_of_ascii (String.list_ascii_of_string s).

Definition jseqb (a b : jsstring) : bool :=
  if list_eq_dec N.eq_dec a b then true else false.

(** Truthiness of a string: [''] is falsy. *)
Definition truthy (s : jsstring) : bool :=
  match s with [] => false | _ => true end.

(** [a || b] on strings. *)
Definition or_else (a b : jsstring) : jsstring := if truthy a then a else b.

(** [a || b] where [a] may be [undefined] or [null]. *)
Definition opt_or (a : option jsstring) (b : jsstring) : jsstring :=
  match a with Some s => or_else s b | None => b end.

Fixpoint startsWith (s p : jsstring) : bool :=
  match p, s with
  | [], _ => true
  | c :: p', x :: s' => N.eqb c x && startsWith s' p'
  | _ :: _, [] => false
  end.

Definition endsWith (s suffix : jsstring) : bool :=
  startsWith (rev s) (rev suffix).

Fixpoint includes (s p : jsstring) : bool :=
  startsWith s p || match s with [] => false | _ :: s' => includes s' p end.

(** [s.slice(0, n)]. *)
Definition slice0 (n : N) (s : jsstring) : jsstring := firstn (N.to_nat n) s.


(** ** Unicode case data

    [toLowerCase] and the [i] flag of regular expressions follow the
    Unicode case mappings.  The tables are those of Unicode 14.0
    (UnicodeData, SpecialCasing and DerivedCoreProperties), given from
    U+0080 on; ASCII is written out where they are used.  A run
    [(first, last, step, image)] sends the code points [first],
    [first + step], ... up to [last] to [image], [image + step], ...; a
    code point in no run is its own image. *)

Module Unicode.

(** The lower-case mapping, for the code points whose lower case is one
    other code point.  U+0130 (two code points) is not in the table. *)
Definition lowercase : list (N * N * N * N) :=
  [
  (0xC0, 0xD6, 1, 0xE0); (0xD8, 0xDE, 1, 0xF8); (0x100, 0x12E, 2, 0x101);
  (0x132, 0x136, 2, 0x133); (0x139, 0x147, 2, 0x13A); (0x14A, 0x176, 2, 0x14B);
  (0x178, 0x178, 1, 0xFF); (0x179, 0x17D, 2, 0x17A); (0x181, 0x181, 1, 0x253);
  (0x182, 0x184, 2, 0x183); (0x186, 0x186, 1, 0x254); (0x187, 0x187, 1, 0x188);
  (0x189, 0x18A, 1, 0x256); (0x18B, 0x18B, 1, 0x18C); (0x18E, 0x18E, 1, 0x1DD);
  (0x18F, 0x18F, 1, 0x259); (0x190, 0x190, 1, 0x25B); (0x191, 0x191, 1, 0x192);
  (0x193, 0x193, 1, 0x260); (0x194, 0x194, 1, 0x263); (0x196, 0x196, 1, 0x269);
  (0x197, 0x197, 1, 0x268); (0x198, 0x198, 1, 0x199); (0x19C, 0x19C, 1, 0x26F);
  (0x19D, 0x19D, 1, 0x272); (0x19F, 0x19F, 1, 0x275); (0x1A0, 0x1A4, 2, 0x1A1);
  (0x1A6, 0x1A6, 1, 0x280); (0x1A7, 0x1A7, 1, 0x1A8); (0x1A9, 0x1A9, 1, 0x283);
  (0x1AC, 0x1AC, 1, 0x1AD); (0x1AE, 0x1AE, 1, 0x288); (0x1AF, 0x1AF, 1, 0x1B0);
  (0x1B1, 0x1B2, 1, 0x28A); (0x1B3, 0x1B5, 2, 0x1B4); (0x1B7, 0x1B7, 1, 0x292);
  (0x1B8, 0x1B8, 1, 0x1B9); (0x1BC, 0x1BC, 1, 0x1BD); (0x1C4, 0x1C4, 1, 0x1C6);
  (0x1C5, 0x1C5, 1, 0x1C6); (0x1C7, 0x1C7, 1, 0x1C9); (0x1C8, 0x1C8, 1, 0x1C9);
  (0x1CA, 0x1CA, 1, 0x1CC); (0x1CB, 0x1DB, 2, 0x1CC); (0x1DE, 0x1EE, 2, 0x1DF);
  (0x1F1, 0x1F1, 1, 0x1F3); (0x1F2, 0x1F4, 2, 0x1F3); (0x1F6, 0x1F6, 1, 0x195);
  (0x1F7, 0x1F7, 1, 0x1BF); (0x1F8, 0x21E, 2, 0x1F9); (0x220, 0x220, 1, 0x19E);
  (0x222, 0x232, 2, 0x223); (0x23A, 0x23A, 1, 0x2C65); (0x23B, 0x23B, 1, 0x23C);
  (0x23D, 0x23D, 1, 0x19A); (0x23E, 0x23E, 1, 0x2C66); (0x241, 0x241, 1, 0x242);
  (0x243, 0x243, 1, 0x180); (0x244, 0x244, 1, 0x289); (0x245, 0x245, 1, 0x28C);
  (0x246, 0x24E, 2, 0x247); (0x370, 0x372, 2, 0x371); (0x376, 0x376, 1, 0x377);
  (0x37F, 0x37F, 1, 0x3F3); (0x386, 0x386, 1, 0x3AC); (0x388, 0x38A, 1, 0x3AD);
  (0x38C, 0x38C, 1, 0x3CC); (0x38E, 0x38F, 1, 0x3CD); (0x391, 0x3A1, 1, 0x3B1);
  (0x3A3, 0x3AB, 1, 0x3C3); (0x3CF, 0x3CF, 1, 0x3D7); (0x3D8, 0x3EE, 2, 0x3D9);
  (0x3F4, 0x3F4, 1, 0x3B8); (0x3F7, 0x3F7, 1, 0x3F8); (0x3F9, 0x3F9, 1, 0x3F2);
  (0x3FA, 0x3FA, 1, 0x3FB); (0x3FD, 0x3FF, 1, 0x37B); (0x400, 0x40F, 1, 0x450);
  (0x410, 0x42F, 1, 0x430); (0x460, 0x480, 2, 0x461); (0x48A, 0x4BE, 2, 0x48B);
  (0x4C0, 0x4C0, 1, 0x4CF); (0x4C1, 0x4CD, 2, 0x4C2); (0x4D0, 0x52E, 2, 0x4D1);
  (0x531, 0x556, 1, 0x561); (0x10A0, 0x10C5, 1, 0x2D00); (0x10C7, 0x10C7, 1, 0x2D27);
  (0x10CD, 0x10CD, 1, 0x2D2D); (0x13A0, 0x13EF, 1, 0xAB70); (0x13F0, 0x13F5, 1, 0x13F8);
  (0x1C90, 0x1CBA, 1, 0x10D0); (0x1CBD, 0x1CBF, 1, 0x10FD); (0x1E00, 0x1E94, 2, 0x1E01);
  (0x1E9E, 0x1E9E, 1, 0xDF); (0x1EA0, 0x1EFE, 2, 0x1EA1); (0x1F08, 0x1F0F, 1, 0x1F00);
  (0x1F18, 0x1F1D, 1, 0x1F10); (0x1F28, 0x1F2F, 1, 0x1F20); (0x1F38, 0x1F3F, 1, 0x1F30);
  (0x1F48, 0x1F4D, 1, 0x1F40); (0x1F59, 0x1F5F, 2, 0x1F51); (0x1F68, 0x1F6F, 1, 0x1F60);
  (0x1F88, 0x1F8F, 1, 0x1F80); (0x1F98, 0x1F9F, 1, 0x1F90); (0x1FA8, 0x1FAF, 1, 0x1FA0);
  (0x1FB8, 0x1FB9, 1, 0x1FB0); (0x1FBA, 0x1FBB, 1, 0x1F70); (0x1FBC, 0x1FBC, 1, 0x1FB3);
  (0x1FC8, 0x1FCB, 1, 0x1F72); (0x1FCC, 0x1FCC, 1, 0x1FC3); (0x1FD8, 0x1FD9, 1, 0x1FD0);
  (0x1FDA, 0x1FDB, 1, 0x1F76); (0x1FE8, 0x1FE9, 1, 0x1FE0); (0x1FEA, 0x1FEB, 1, 0x1F7A);
  (0x1FEC, 0x1FEC, 1, 0x1FE5); (0x1FF8, 0x1FF9, 1, 0x1F78); (0x1FFA, 0x1FFB, 1, 0x1F7C);
  (0x1FFC, 0x1FFC, 1, 0x1FF3); (0x2126, 0x2126, 1, 0x3C9); (0x212A, 0x212A, 1, 0x6B);
  (0x212B, 0x212B, 1, 0xE5); (0x2132, 0x2132, 1, 0x214E); (0x2160, 0x216F, 1, 0x2170);
  (0x2183, 0x2183, 1, 0x2184); (0x24B6, 0x24CF, 1, 0x24D0); (0x2C00, 0x2C2F, 1, 0x2C30);
  (0x2C60, 0x2C60, 1, 0x2C61); (0x2C62, 0x2C62, 1, 0x26B); (0x2C63, 0x2C63, 1, 0x1D7D);
  (0x2C64, 0x2C64, 1, 0x27D); (0x2C67, 0x2C6B, 2, 0x2C68); (0x2C6D, 0x2C6D, 1, 0x251);
  (0x2C6E, 0x2C6E, 1, 0x271); (0x2C6F, 0x2C6F, 1, 0x250); (0x2C70, 0x2C70, 1, 0x252);
  (0x2C72, 0x2C72, 1, 0x2C73); (0x2C75, 0x2C75, 1, 0x2C76); (0x2C7E, 0x2C7F, 1, 0x23F);
  (0x2C80, 0x2CE2, 2, 0x2C81); (0x2CEB, 0x2CED, 2, 0x2CEC); (0x2CF2, 0x2CF2, 1, 0x2CF3);
  (0xA640, 0xA66C, 2, 0xA641); (0xA680, 0xA69A, 2, 0xA681); (0xA722, 0xA72E, 2, 0xA723);
  (0xA732, 0xA76E, 2, 0xA733); (0xA779, 0xA77B, 2, 0xA77A); (0xA77D, 0xA77D, 1, 0x1D79);
  (0xA77E, 0xA786, 2, 0xA77F); (0xA78B, 0xA78B, 1, 0xA78C); (0xA78D, 0xA78D, 1, 0x265);
  (0xA790, 0xA792, 2, 0xA791); (0xA796, 0xA7A8, 2, 0xA797); (0xA7AA, 0xA7AA, 1, 0x266);
  (0xA7AB, 0xA7AB, 1, 0x25C); (0xA7AC, 0xA7AC, 1, 0x261); (0xA7AD, 0xA7AD, 1, 0x26C);
  (0xA7AE, 0xA7AE, 1, 0x26A); (0xA7B0, 0xA7B0, 1, 0x29E); (0xA7B1, 0xA7B1, 1, 0x287);
  (0xA7B2, 0xA7B2, 1, 0x29D); (0xA7B3, 0xA7B3, 1, 0xAB53); (0xA7B4, 0xA7C2, 2, 0xA7B5);
  (0xA7C4, 0xA7C4, 1, 0xA794); (0xA7C5, 0xA7C5, 1, 0x282); (0xA7C6, 0xA7C6, 1, 0x1D8E);
  (0xA7C7, 0xA7C9, 2, 0xA7C8); (0xA7D0, 0xA7D0, 1, 0xA7D1); (0xA7D6, 0xA7D8, 2, 0xA7D7);
  (0xA7F5, 0xA7F5, 1, 0xA7F6); (0xFF21, 0xFF3A, 1, 0xFF41); (0x10400, 0x10427, 1, 0x10428);
  (0x104B0, 0x104D3, 1, 0x104D8); (0x10570, 0x10594, 2, 0x10597); (0x10571, 0x10579, 2, 0x10598);
  (0x1057D, 0x10589, 2, 0x105A4); (0x1058D, 0x10591, 2, 0x105B4); (0x10595, 0x10595, 1, 0x105BC);
  (0x10C80, 0x10CB2, 1, 0x10CC0); (0x118A0, 0x118BF, 1, 0x118C0); (0x16E40, 0x16E5F, 1, 0x16E60);
  (0x1E900, 0x1E921, 1, 0x1E922) ]%N.

(** The upper-case mapping of a single code unit as the [i] flag uses
    it: the units whose upper case is one other code unit.  Left out are
    the units whose upper case takes more than one unit (U+00DF and the
    like) and those from U+0080 on whose upper case is an ASCII letter
    (U+0131, U+017F): Canonicalize leaves both kinds as they are. *)
Definition uppercase_unit : list (N * N * N * N) :=
  [
  (0xB5, 0xB5, 1, 0x39C); (0xE0, 0xF6, 1, 0xC0); (0xF8, 0xFE, 1, 0xD8);
  (0xFF, 0xFF, 1, 0x178); (0x101, 0x12F, 2, 0x100); (0x133, 0x137, 2, 0x132);
  (0x13A, 0x148, 2, 0x139); (0x14B, 0x177, 2, 0x14A); (0x17A, 0x17E, 2, 0x179);
  (0x180, 0x180, 1, 0x243); (0x183, 0x185, 2, 0x182); (0x188, 0x188, 1, 0x187);
  (0x18C, 0x18C, 1, 0x18B); (0x192, 0x192, 1, 0x191); (0x195, 0x195, 1, 0x1F6);
  (0x199, 0x199, 1, 0x198); (0x19A, 0x19A, 1, 0x23D); (0x19E, 0x19E, 1, 0x220);
  (0x1A1, 0x1A5, 2, 0x1A0); (0x1A8, 0x1A8, 1, 0x1A7); (0x1AD, 0x1AD, 1, 0x1AC);
  (0x1B0, 0x1B0, 1, 0x1AF); (0x1B4, 0x1B6, 2, 0x1B3); (0x1B9, 0x1B9, 1, 0x1B8);
  (0x1BD, 0x1BD, 1, 0x1BC); (0x1BF, 0x1BF, 1, 0x1F7); (0x1C5, 0x1C5, 1, 0x1C4);
  (0x1C6, 0x1C6, 1, 0x1C4); (0x1C8, 0x1C8, 1, 0x1C7); (0x1C9, 0x1C9, 1, 0x1C7);
  (0x1CB, 0x1CB, 1, 0x1CA); (0x1CC, 0x1CC, 1, 0x1CA); (0x1CE, 0x1DC, 2, 0x1CD);
  (0x1DD, 0x1DD, 1, 0x18E); (0x1DF, 0x1EF, 2, 0x1DE); (0x1F2, 0x1F2, 1, 0x1F1);
  (0x1F3, 0x1F3, 1, 0x1F1); (0x1F5, 0x1F5, 1, 0x1F4); (0x1F9, 0x21F, 2, 0x1F8);
  (0x223, 0x233, 2, 0x222); (0x23C, 0x23C, 1, 0x23B); (0x23F, 0x240, 1, 0x2C7E);
  (0x242, 0x242, 1, 0x241); (0x247, 0x24F, 2, 0x246); (0x250, 0x250, 1, 0x2C6F);
  (0x251, 0x251, 1, 0x2C6D); (0x252, 0x252, 1, 0x2C70); (0x253, 0x253, 1, 0x181);
  (0x254, 0x254, 1, 0x186); (0x256, 0x257, 1, 0x189); (0x259, 0x259, 1, 0x18F);
  (0x25B, 0x25B, 1, 0x190); (0x25C, 0x25C, 1, 0xA7AB); (0x260, 0x260, 1, 0x193);
  (0x261, 0x261, 1, 0xA7AC); (0x263, 0x263, 1, 0x194); (0x265, 0x265, 1, 0xA78D);
  (0x266, 0x266, 1, 0xA7AA); (0x268, 0x268, 1, 0x197); (0x269, 0x269, 1, 0x196);
  (0x26A, 0x26A, 1, 0xA7AE); (0x26B, 0x26B, 1, 0x2C62); (0x26C, 0x26C, 1, 0xA7AD);
  (0x26F, 0x26F, 1, 0x19C); (0x271, 0x271, 1, 0x2C6E); (0x272, 0x272, 1, 0x19D);
  (0x275, 0x275, 1, 0x19F); (0x27D, 0x27D, 1, 0x2C64); (0x280, 0x280, 1, 0x1A6);
  (0x282, 0x282, 1, 0xA7C5); (0x283, 0x283, 1, 0x1A9); (0x287, 0x287, 1, 0xA7B1);
  (0x288, 0x288, 1, 0x1AE); (0x289, 0x289, 1, 0x244); (0x28A, 0x28B, 1, 0x1B1);
  (0x28C, 0x28C, 1, 0x245); (0x292, 0x292, 1, 0x1B7); (0x29D, 0x29D, 1, 0xA7B2);
  (0x29E, 0x29E, 1, 0xA7B0); (0x345, 0x345, 1, 0x399); (0x371, 0x373, 2, 0x370);
  (0x377, 0x377, 1, 0x376); (0x37B, 0x37D, 1, 0x3FD); (0x3AC, 0x3AC, 1, 0x386);
  (0x3AD, 0x3AF, 1, 0x388); (0x3B1, 0x3C1, 1, 0x391); (0x3C2, 0x3C2, 1, 0x3A3);
  (0x3C3, 0x3CB, 1, 0x3A3); (0x3CC, 0x3CC, 1, 0x38C); (0x3CD, 0x3CE, 1, 0x38E);
  (0x3D0, 0x3D0, 1, 0x392); (0x3D1, 0x3D1, 1, 0x398); (0x3D5, 0x3D5, 1, 0x3A6);
  (0x3D6, 0x3D6, 1, 0x3A0); (0x3D7, 0x3D7, 1, 0x3CF); (0x3D9, 0x3EF, 2, 0x3D8);
  (0x3F0, 0x3F0, 1, 0x39A); (0x3F1, 0x3F1, 1, 0x3A1); (0x3F2, 0x3F2, 1, 0x3F9);
  (0x3F3, 0x3F3, 1, 0x37F); (0x3F5, 0x3F5, 1, 0x395); (0x3F8, 0x3F8, 1, 0x3F7);
  (0x3FB, 0x3FB, 1, 0x3FA); (0x430, 0x44F, 1, 0x410); (0x450, 0x45F, 1, 0x400);
  (0x461, 0x481, 2, 0x460); (0x48B, 0x4BF, 2, 0x48A); (0x4C2, 0x4CE, 2, 0x4C1);
  (0x4CF, 0x4CF, 1, 0x4C0); (0x4D1, 0x52F, 2, 0x4D0); (0x561, 0x586, 1, 0x531);
  (0x10D0, 0x10FA, 1, 0x1C90); (0x10FD, 0x10FF, 1, 0x1CBD); (0x13F8, 0x13FD, 1, 0x13F0);
  (0x1C80, 0x1C80, 1, 0x412); (0x1C81, 0x1C81, 1, 0x414); (0x1C82, 0x1C82, 1, 0x41E);
  (0x1C83, 0x1C84, 1, 0x421); (0x1C85, 0x1C85, 1, 0x422); (0x1C86, 0x1C86, 1, 0x42A);
  (0x1C87, 0x1C87, 1, 0x462); (0x1C88, 0x1C88, 1, 0xA64A); (0x1D79, 0x1D79, 1, 0xA77D);
  (0x1D7D, 0x1D7D, 1, 0x2C63); (0x1D8E, 0x1D8E, 1, 0xA7C6); (0x1E01, 0x1E95, 2, 0x1E00);
  (0x1E9B, 0x1E9B, 1, 0x1E60); (0x1EA1, 0x1EFF, 2, 0x1EA0); (0x1F00, 0x1F07, 1, 0x1F08);
  (0x1F10, 0x1F15, 1, 0x1F18); (0x1F20, 0x1F27, 1, 0x1F28); (0x1F30, 0x1F37, 1, 0x1F38);
  (0x1F40, 0x1F45, 1, 0x1F48); (0x1F51, 0x1F57, 2, 0x1F59); (0x1F60, 0x1F67, 1, 0x1F68);
  (0x1F70, 0x1F71, 1, 0x1FBA); (0x1F72, 0x1F75, 1, 0x1FC8); (0x1F76, 0x1F77, 1, 0x1FDA);
  (0x1F78, 0x1F79, 1, 0x1FF8); (0x1F7A, 0x1F7B, 1, 0x1FEA); (0x1F7C, 0x1F7D, 1, 0x1FFA);
  (0x1FB0, 0x1FB1, 1, 0x1FB8); (0x1FBE, 0x1FBE, 1, 0x399); (0x1FD0, 0x1FD1, 1, 0x1FD8);
  (0x1FE0, 0x1FE1, 1, 0x1FE8); (0x1FE5, 0x1FE5, 1, 0x1FEC); (0x214E, 0x214E, 1, 0x2132);
  (0x2170, 0x217F, 1, 0x2160); (0x2184, 0x2184, 1, 0x2183); (0x24D0, 0x24E9, 1, 0x24B6);
  (0x2C30, 0x2C5F, 1, 0x2C00); (0x2C61, 0x2C61, 1, 0x2C60); (0x2C65, 0x2C65, 1, 0x23A);
  (0x2C66, 0x2C66, 1, 0x23E); (0x2C68, 0x2C6C, 2, 0x2C67); (0x2C73, 0x2C73, 1, 0x2C72);
  (0x2C76, 0x2C76, 1, 0x2C75); (0x2C81, 0x2CE3, 2, 0x2C80); (0x2CEC, 0x2CEE, 2, 0x2CEB);
  (0x2CF3, 0x2CF3, 1, 0x2CF2); (0x2D00, 0x2D25, 1, 0x10A0); (0x2D27, 0x2D27, 1, 0x10C7);
  (0x2D2D, 0x2D2D, 1, 0x10CD); (0xA641, 0xA66D, 2, 0xA640); (0xA681, 0xA69B, 2, 0xA680);
  (0xA723, 0xA72F, 2, 0xA722); (0xA733, 0xA76F, 2, 0xA732); (0xA77A, 0xA77C, 2, 0xA779);
  (0xA77F, 0xA787, 2, 0xA77E); (0xA78C, 0xA78C, 1, 0xA78B); (0xA791, 0xA793, 2, 0xA790);
  (0xA794, 0xA794, 1, 0xA7C4); (0xA797, 0xA7A9, 2, 0xA796); (0xA7B5, 0xA7C3, 2, 0xA7B4);
  (0xA7C8, 0xA7CA, 2, 0xA7C7); (0xA7D1, 0xA7D1, 1, 0xA7D0); (0xA7D7, 0xA7D9, 2, 0xA7D6);
  (0xA7F6, 0xA7F6, 1, 0xA7F5); (0xAB53, 0xAB53, 1, 0xA7B3); (0xAB70, 0xABBF, 1, 0x13A0);
  (0xFF41, 0xFF5A, 1, 0xFF21) ]%N.

(** The code points with the property Cased, as inclusive ranges. *)
Definition cased : list (N * N) :=
  [
  (0x41, 0x5A); (0x61, 0x7A); (0xAA, 0xAA); (0xB5, 0xB5); (0xBA, 0xBA);
  (0xC0, 0xD6); (0xD8, 0xF6); (0xF8, 0x1BA); (0x1BC, 0x1BF); (0x1C4, 0x293);
  (0x295, 0x2B8); (0x2C0, 0x2C1); (0x2E0, 0x2E4); (0x345, 0x345); (0x370, 0x373);
  (0x376, 0x377); (0x37A, 0x37D); (0x37F, 0x37F); (0x386, 0x386); (0x388, 0x38A);
  (0x38C, 0x38C); (0x38E, 0x3A1); (0x3A3, 0x3F5); (0x3F7, 0x481); (0x48A, 0x52F);
  (0x531, 0x556); (0x560, 0x588); (0x10A0, 0x10C5); (0x10C7, 0x10C7); (0x10CD, 0x10CD);
  (0x10D0, 0x10FA); (0x10FD, 0x10FF); (0x13A0, 0x13F5); (0x13F8, 0x13FD); (0x1C80, 0x1C88);
  (0x1C90, 0x1CBA); (0x1CBD, 0x1CBF); (0x1D00, 0x1DBF); (0x1E00, 0x1F15); (0x1F18, 0x1F1D);
  (0x1F20, 0x1F45); (0x1F48, 0x1F4D); (0x1F50, 0x1F57); (0x1F59, 0x1F59); (0x1F5B, 0x1F5B);
  (0x1F5D, 0x1F5D); (0x1F5F, 0x1F7D); (0x1F80, 0x1FB4); (0x1FB6, 0x1FBC); (0x1FBE, 0x1FBE);
  (0x1FC2, 0x1FC4); (0x1FC6, 0x1FCC); (0x1FD0, 0x1FD3); (0x1FD6, 0x1FDB); (0x1FE0, 0x1FEC);
  (0x1FF2, 0x1FF4); (0x1FF6, 0x1FFC); (0x2071, 0x2071); (0x207F, 0x207F); (0x2090, 0x209C);
  (0x2102, 0x2102); (0x2107, 0x2107); (0x210A, 0x2113); (0x2115, 0x2115); (0x2119, 0x211D);
  (0x2124, 0x2124); (0x2126, 0x2126); (0x2128, 0x2128); (0x212A, 0x212D); (0x212F, 0x2134);
  (0x2139, 0x2139); (0x213C, 0x213F); (0x2145, 0x2149); (0x214E, 0x214E); (0x2160, 0x217F);
  (0x2183, 0x2184); (0x24B6, 0x24E9); (0x2C00, 0x2CE4); (0x2CEB, 0x2CEE); (0x2CF2, 0x2CF3);
  (0x2D00, 0x2D25); (0x2D27, 0x2D27); (0x2D2D, 0x2D2D); (0xA640, 0xA66D); (0xA680, 0xA69D);
  (0xA722, 0xA787); (0xA78B, 0xA78E); (0xA790, 0xA7CA); (0xA7D0, 0xA7D1); (0xA7D3, 0xA7D3);
  (0xA7D5, 0xA7D9); (0xA7F5, 0xA7F6); (0xA7F8, 0xA7FA); (0xAB30, 0xAB5A); (0xAB5C, 0xAB68);
  (0xAB70, 0xABBF); (0xFB00, 0xFB06); (0xFB13, 0xFB17); (0xFF21, 0xFF3A); (0xFF41, 0xFF5A);
  (0x10400, 0x1044F); (0x104B0, 0x104D3); (0x104D8, 0x104FB); (0x10570, 0x1057A); (0x1057C, 0x1058A);
  (0x1058C, 0x10592); (0x10594, 0x10595); (0x10597, 0x105A1); (0x105A3, 0x105B1); (0x105B3, 0x105B9);
  (0x105BB, 0x105BC); (0x10780, 0x10780); (0x10783, 0x10785); (0x10787, 0x107B0); (0x107B2, 0x107BA);
  (0x10C80, 0x10CB2); (0x10CC0, 0x10CF2); (0x118A0, 0x118DF); (0x16E40, 0x16E7F); (0x1D400, 0x1D454);
  (0x1D456, 0x1D49C); (0x1D49E, 0x1D49F); (0x1D4A2, 0x1D4A2); (0x1D4A5, 0x1D4A6); (0x1D4A9, 0x1D4AC);
  (0x1D4AE, 0x1D4B9); (0x1D4BB, 0x1D4BB); (0x1D4BD, 0x1D4C3); (0x1D4C5, 0x1D505); (0x1D507, 0x1D50A);
  (0x1D50D, 0x1D514); (0x1D516, 0x1D51C); (0x1D51E, 0x1D539); (0x1D53B, 0x1D53E); (0x1D540, 0x1D544);
  (0x1D546, 0x1D546); (0x1D54A, 0x1D550); (0x1D552, 0x1D6A5); (0x1D6A8, 0x1D6C0); (0x1D6C2, 0x1D6DA);
  (0x1D6DC, 0x1D6FA); (0x1D6FC, 0x1D714); (0x1D716, 0x1D734); (0x1D736, 0x1D74E); (0x1D750, 0x1D76E);
  (0x1D770, 0x1D788); (0x1D78A, 0x1D7A8); (0x1D7AA, 0x1D7C2); (0x1D7C4, 0x1D7CB); (0x1DF00, 0x1DF09);
  (0x1DF0B, 0x1DF1E); (0x1E900, 0x1E943); (0x1F130, 0x1F149); (0x1F150, 0x1F169); (0x1F170, 0x1F189) ]%N.

(** The code points with the property Case_Ignorable. *)
Definition case_ignorable : list (N * N) :=
  [
  (0x27, 0x27); (0x2E, 0x2E); (0x3A, 0x3A); (0x5E, 0x5E); (0x60, 0x60);
  (0xA8, 0xA8); (0xAD, 0xAD); (0xAF, 0xAF); (0xB4, 0xB4); (0xB7, 0xB8);
  (0x2B0, 0x36F); (0x374, 0x375); (0x37A, 0x37A); (0x384, 0x385); (0x387, 0x387);
  (0x483, 0x489); (0x559, 0x559); (0x55F, 0x55F); (0x591, 0x5BD); (0x5BF, 0x5BF);
  (0x5C1, 0x5C2); (0x5C4, 0x5C5); (0x5C7, 0x5C7); (0x5F4, 0x5F4); (0x600, 0x605);
  (0x610, 0x61A); (0x61C, 0x61C); (0x640, 0x640); (0x64B, 0x65F); (0x670, 0x670);
  (0x6D6, 0x6DD); (0x6DF, 0x6E8); (0x6EA, 0x6ED); (0x70F, 0x70F); (0x711, 0x711);
  (0x730, 0x74A); (0x7A6, 0x7B0); (0x7EB, 0x7F5); (0x7FA, 0x7FA); (0x7FD, 0x7FD);
  (0x816, 0x82D); (0x859, 0x85B); (0x888, 0x888); (0x890, 0x891); (0x898, 0x89F);
  (0x8C9, 0x902); (0x93A, 0x93A); (0x93C, 0x93C); (0x941, 0x948); (0x94D, 0x94D);
  (0x951, 0x957); (0x962, 0x963); (0x971, 0x971); (0x981, 0x981); (0x9BC, 0x9BC);
  (0x9C1, 0x9C4); (0x9CD, 0x9CD); (0x9E2, 0x9E3); (0x9FE, 0x9FE); (0xA01, 0xA02);
  (0xA3C, 0xA3C); (0xA41, 0xA42); (0xA47, 0xA48); (0xA4B, 0xA4D); (0xA51, 0xA51);
  (0xA70, 0xA71); (0xA75, 0xA75); (0xA81, 0xA82); (0xABC, 0xABC); (0xAC1, 0xAC5);
  (0xAC7, 0xAC8); (0xACD, 0xACD); (0xAE2, 0xAE3); (0xAFA, 0xAFF); (0xB01, 0xB01);
  (0xB3C, 0xB3C); (0xB3F, 0xB3F); (0xB41, 0xB44); (0xB4D, 0xB4D); (0xB55, 0xB56);
  (0xB62, 0xB63); (0xB82, 0xB82); (0xBC0, 0xBC0); (0xBCD, 0xBCD); (0xC00, 0xC00);
  (0xC04, 0xC04); (0xC3C, 0xC3C); (0xC3E, 0xC40); (0xC46, 0xC48); (0xC4A, 0xC4D);
  (0xC55, 0xC56); (0xC62, 0xC63); (0xC81, 0xC81); (0xCBC, 0xCBC); (0xCBF, 0xCBF);
  (0xCC6, 0xCC6); (0xCCC, 0xCCD); (0xCE2, 0xCE3); (0xD00, 0xD01); (0xD3B, 0xD3C);
  (0xD41, 0xD44); (0xD4D, 0xD4D); (0xD62, 0xD63); (0xD81, 0xD81); (0xDCA, 0xDCA);
  (0xDD2, 0xDD4); (0xDD6, 0xDD6); (0xE31, 0xE31); (0xE34, 0xE3A); (0xE46, 0xE4E);
  (0xEB1, 0xEB1); (0xEB4, 0xEBC); (0xEC6, 0xEC6); (0xEC8, 0xECD); (0xF18, 0xF19);
  (0xF35, 0xF35); (0xF37, 0xF37); (0xF39, 0xF39); (0xF71, 0xF7E); (0xF80, 0xF84);
  (0xF86, 0xF87); (0xF8D, 0xF97); (0xF99, 0xFBC); (0xFC6, 0xFC6); (0x102D, 0x1030);
  (0x1032, 0x1037); (0x1039, 0x103A); (0x103D, 0x103E); (0x1058, 0x1059); (0x105E, 0x1060);
  (0x1071, 0x1074); (0x1082, 0x1082); (0x1085, 0x1086); (0x108D, 0x108D); (0x109D, 0x109D);
  (0x10FC, 0x10FC); (0x135D, 0x135F); (0x1712, 0x1714); (0x1732, 0x1733); (0x1752, 0x1753);
  (0x1772, 0x1773); (0x17B4, 0x17B5); (0x17B7, 0x17BD); (0x17C6, 0x17C6); (0x17C9, 0x17D3);
  (0x17D7, 0x17D7); (0x17DD, 0x17DD); (0x180B, 0x180F); (0x1843, 0x1843); (0x1885, 0x1886);
  (0x18A9, 0x18A9); (0x1920, 0x1922); (0x1927, 0x1928); (0x1932, 0x1932); (0x1939, 0x193B);
  (0x1A17, 0x1A18); (0x1A1B, 0x1A1B); (0x1A56, 0x1A56); (0x1A58, 0x1A5E); (0x1A60, 0x1A60);
  (0x1A62, 0x1A62); (0x1A65, 0x1A6C); (0x1A73, 0x1A7C); (0x1A7F, 0x1A7F); (0x1AA7, 0x1AA7);
  (0x1AB0, 0x1ACE); (0x1B00, 0x1B03); (0x1B34, 0x1B34); (0x1B36, 0x1B3A); (0x1B3C, 0x1B3C);
  (0x1B42, 0x1B42); (0x1B6B, 0x1B73); (0x1B80, 0x1B81); (0x1BA2, 0x1BA5); (0x1BA8, 0x1BA9);
  (0x1BAB, 0x1BAD); (0x1BE6, 0x1BE6); (0x1BE8, 0x1BE9); (0x1BED, 0x1BED); (0x1BEF, 0x1BF1);
  (0x1C2C, 0x1C33); (0x1C36, 0x1C37); (0x1C78, 0x1C7D); (0x1CD0, 0x1CD2); (0x1CD4, 0x1CE0);
  (0x1CE2, 0x1CE8); (0x1CED, 0x1CED); (0x1CF4, 0x1CF4); (0x1CF8, 0x1CF9); (0x1D2C, 0x1D6A);
  (0x1D78, 0x1D78); (0x1D9B, 0x1DFF); (0x1FBD, 0x1FBD); (0x1FBF, 0x1FC1); (0x1FCD, 0x1FCF);
  (0x1FDD, 0x1FDF); (0x1FED, 0x1FEF); (0x1FFD, 0x1FFE); (0x200B, 0x200F); (0x2018, 0x2019);
  (0x2024, 0x2024); (0x2027, 0x2027); (0x202A, 0x202E); (0x2060, 0x2064); (0x2066, 0x206F);
  (0x2071, 0x2071); (0x207F, 0x207F); (0x2090, 0x209C); (0x20D0, 0x20F0); (0x2C7C, 0x2C7D);
  (0x2CEF, 0x2CF1); (0x2D6F, 0x2D6F); (0x2D7F, 0x2D7F); (0x2DE0, 0x2DFF); (0x2E2F, 0x2E2F);
  (0x3005, 0x3005); (0x302A, 0x302D); (0x3031, 0x3035); (0x303B, 0x303B); (0x3099, 0x309E);
  (0x30FC, 0x30FE); (0xA015, 0xA015); (0xA4F8, 0xA4FD); (0xA60C, 0xA60C); (0xA66F, 0xA672);
  (0xA674, 0xA67D); (0xA67F, 0xA67F); (0xA69C, 0xA69F); (0xA6F0, 0xA6F1); (0xA700, 0xA721);
  (0xA770, 0xA770); (0xA788, 0xA78A); (0xA7F2, 0xA7F4); (0xA7F8, 0xA7F9); (0xA802, 0xA802);
  (0xA806, 0xA806); (0xA80B, 0xA80B); (0xA825, 0xA826); (0xA82C, 0xA82C); (0xA8C4, 0xA8C5);
  (0xA8E0, 0xA8F1); (0xA8FF, 0xA8FF); (0xA926, 0xA92D); (0xA947, 0xA951); (0xA980, 0xA982);
  (0xA9B3, 0xA9B3); (0xA9B6, 0xA9B9); (0xA9BC, 0xA9BD); (0xA9CF, 0xA9CF); (0xA9E5, 0xA9E6);
  (0xAA29, 0xAA2E); (0xAA31, 0xAA32); (0xAA35, 0xAA36); (0xAA43, 0xAA43); (0xAA4C, 0xAA4C);
  (0xAA70, 0xAA70); (0xAA7C, 0xAA7C); (0xAAB0, 0xAAB0); (0xAAB2, 0xAAB4); (0xAAB7, 0xAAB8);
  (0xAABE, 0xAABF); (0xAAC1, 0xAAC1); (0xAADD, 0xAADD); (0xAAEC, 0xAAED); (0xAAF3, 0xAAF4);
  (0xAAF6, 0xAAF6); (0xAB5B, 0xAB5F); (0xAB69, 0xAB6B); (0xABE5, 0xABE5); (0xABE8, 0xABE8);
  (0xABED, 0xABED); (0xFB1E, 0xFB1E); (0xFBB2, 0xFBC2); (0xFE00, 0xFE0F); (0xFE13, 0xFE13);
  (0xFE20, 0xFE2F); (0xFE52, 0xFE52); (0xFE55, 0xFE55); (0xFEFF, 0xFEFF); (0xFF07, 0xFF07);
  (0xFF0E, 0xFF0E); (0xFF1A, 0xFF1A); (0xFF3E, 0xFF3E); (0xFF40, 0xFF40); (0xFF70, 0xFF70);
  (0xFF9E, 0xFF9F); (0xFFE3, 0xFFE3); (0xFFF9, 0xFFFB); (0x101FD, 0x101FD); (0x102E0, 0x102E0);
  (0x10376, 0x1037A); (0x10780, 0x10785); (0x10787, 0x107B0); (0x107B2, 0x107BA); (0x10A01, 0x10A03);
  (0x10A05, 0x10A06); (0x10A0C, 0x10A0F); (0x10A38, 0x10A3A); (0x10A3F, 0x10A3F); (0x10AE5, 0x10AE6);
  (0x10D24, 0x10D27); (0x10EAB, 0x10EAC); (0x10F46, 0x10F50); (0x10F82, 0x10F85); (0x11001, 0x11001);
  (0x11038, 0x11046); (0x11070, 0x11070); (0x11073, 0x11074); (0x1107F, 0x11081); (0x110B3, 0x110B6);
  (0x110B9, 0x110BA); (0x110BD, 0x110BD); (0x110C2, 0x110C2); (0x110CD, 0x110CD); (0x11100, 0x11102);
  (0x11127, 0x1112B); (0x1112D, 0x11134); (0x11173, 0x11173); (0x11180, 0x11181); (0x111B6, 0x111BE);
  (0x111C9, 0x111CC); (0x111CF, 0x111CF); (0x1122F, 0x11231); (0x11234, 0x11234); (0x11236, 0x11237);
  (0x1123E, 0x1123E); (0x112DF, 0x112DF); (0x112E3, 0x112EA); (0x11300, 0x11301); (0x1133B, 0x1133C);
  (0x11340, 0x11340); (0x11366, 0x1136C); (0x11370, 0x11374); (0x11438, 0x1143F); (0x11442, 0x11444);
  (0x11446, 0x11446); (0x1145E, 0x1145E); (0x114B3, 0x114B8); (0x114BA, 0x114BA); (0x114BF, 0x114C0);
  (0x114C2, 0x114C3); (0x115B2, 0x115B5); (0x115BC, 0x115BD); (0x115BF, 0x115C0); (0x115DC, 0x115DD);
  (0x11633, 0x1163A); (0x1163D, 0x1163D); (0x1163F, 0x11640); (0x116AB, 0x116AB); (0x116AD, 0x116AD);
  (0x116B0, 0x116B5); (0x116B7, 0x116B7); (0x1171D, 0x1171F); (0x11722, 0x11725); (0x11727, 0x1172B);
  (0x1182F, 0x11837); (0x11839, 0x1183A); (0x1193B, 0x1193C); (0x1193E, 0x1193E); (0x11943, 0x11943);
  (0x119D4, 0x119D7); (0x119DA, 0x119DB); (0x119E0, 0x119E0); (0x11A01, 0x11A0A); (0x11A33, 0x11A38);
  (0x11A3B, 0x11A3E); (0x11A47, 0x11A47); (0x11A51, 0x11A56); (0x11A59, 0x11A5B); (0x11A8A, 0x11A96);
  (0x11A98, 0x11A99); (0x11C30, 0x11C36); (0x11C38, 0x11C3D); (0x11C3F, 0x11C3F); (0x11C92, 0x11CA7);
  (0x11CAA, 0x11CB0); (0x11CB2, 0x11CB3); (0x11CB5, 0x11CB6); (0x11D31, 0x11D36); (0x11D3A, 0x11D3A);
  (0x11D3C, 0x11D3D); (0x11D3F, 0x11D45); (0x11D47, 0x11D47); (0x11D90, 0x11D91); (0x11D95, 0x11D95);
  (0x11D97, 0x11D97); (0x11EF3, 0x11EF4); (0x13430, 0x13438); (0x16AF0, 0x16AF4); (0x16B30, 0x16B36);
  (0x16B40, 0x16B43); (0x16F4F, 0x16F4F); (0x16F8F, 0x16F9F); (0x16FE0, 0x16FE1); (0x16FE3, 0x16FE4);
  (0x1AFF0, 0x1AFF3); (0x1AFF5, 0x1AFFB); (0x1AFFD, 0x1AFFE); (0x1BC9D, 0x1BC9E); (0x1BCA0, 0x1BCA3);
  (0x1CF00, 0x1CF2D); (0x1CF30, 0x1CF46); (0x1D167, 0x1D169); (0x1D173, 0x1D182); (0x1D185, 0x1D18B);
  (0x1D1AA, 0x1D1AD); (0x1D242, 0x1D244); (0x1DA00, 0x1DA36); (0x1DA3B, 0x1DA6C); (0x1DA75, 0x1DA75);
  (0x1DA84, 0x1DA84); (0x1DA9B, 0x1DA9F); (0x1DAA1, 0x1DAAF); (0x1E000, 0x1E006); (0x1E008, 0x1E018);
  (0x1E01B, 0x1E021); (0x1E023, 0x1E024); (0x1E026, 0x1E02A); (0x1E130, 0x1E13D); (0x1E2AE, 0x1E2AE);
  (0x1E2EC, 0x1E2EF); (0x1E8D0, 0x1E8D6); (0x1E944, 0x1E94B); (0x1F3FB, 0x1F3FF); (0xE0001, 0xE0001);
  (0xE0020, 0xE007F); (0xE0100, 0xE01EF) ]%N.

End Unicode.

(** ** Case conversion *)

(** Where the runs of a table send a code point. *)
Fixpoint run_image (runs : list (N * N * N * N)) (c : N) : N :=
  match runs with
  | [] => c
  | (first, last, step, image) :: rest =>
      if ((first <=? c) && (c <=? last) && ((c - first) mod step =? 0))%N
      then (image + (c - first))%N
      else run_image rest c
  end.

Definition in_range_list (ranges : list (N * N)) (c : N) : bool :=
  existsb (fun r => ((fst r <=? c) && (c <=? snd r))%N) ranges.

(** The lower case of a code point, where it is one code point. *)
Definition lower_point (c : N) : N :=
  if (c <? 128)%N then (if ((65 <=? c) && (c <=? 90))%N then (c + 32)%N else c)
  else run_image Unicode.lowercase c.

Definition is_high_surrogate (c : N) : bool := ((0xD800 <=? c) && (c <=? 0xDBFF))%N.
Definition is_low_surrogate (c : N) : bool := ((0xDC00 <=? c) && (c <=? 0xDFFF))%N.

(** The code points of a string: a high surrogate followed by a low one
    is one code point, every other unit is a code point of its own. *)
Fixpoint code_points (s : jsstring) : list N :=
  match s with
  | [] => []
  | c :: s' =>
      match s' with
      | d :: s'' =>
          if is_high_surrogate c && is_low_surrogate d
          then (0x10000 + (c - 0xD800) * 0x400 + (d - 0xDC00))%N :: code_points s''
          else c :: code_points s'
      | [] => [c]
      end
  end.

(** The code units of a code point. *)
Definition code_units (p : N) : jsstring :=
  if (p <? 0x10000)%N then [p]
  else [0xD800 + (p - 0x10000) / 0x400; 0xDC00 + (p - 0x10000) mod 0x400]%N.

(** Is the next code point that is not case-ignorable a cased one. *)
Fixpoint cased_next (s : list N) : bool :=
  match s with
  | [] => false
  | c :: s' =>
      if in_range_list Unicode.case_ignorable c then cased_next s'
      else in_range_list Unicode.cased c
  end.

(** The lower case of a sequence of code points; [before] holds the code
    points already passed, the nearest first.  The capital sigma U+03A3
    becomes the final sigma U+03C2 when a cased letter stands before it
    and none after it, case-ignorable code points skipped on both sides,
    and U+03C3 otherwise; U+0130 becomes i and the combining dot
    U+0307. *)
Fixpoint lower_points (before s : list N) : list N :=
  match s with
  | [] => []
  | c :: s' =>
      (if (c =? 0x3A3)%N
       then [if cased_next before && negb (cased_next s') then 0x3C2%N else 0x3C3%N]
       else if (c =? 0x130)%N then [0x69; 0x307]%N
       else [lower_point c])
      ++ lower_points (c :: before) s'
  end.

(** [String.prototype.toLowerCase]: the string is read as code points,
    converted by the locale-independent Unicode lower-case mapping, and
    written back as code units. *)
Definition toLowerCase (s : jsstring) : jsstring :=
  flat_map code_units (lower_points [] (code_points s)).


(** White space and line terminators, as [trim] and the regular expression
    class [\s] see them. *)
Definition is_space (c : N) : bool :=
  ((9 <=? c) && (c <=? 13) || (c =? 32) || (c =? 160) || (c =? 5760)
   || (8192 <=? c) && (c <=? 8202) || (c =? 8232) || (c =? 8233)
   || (c =? 8239) || (c =? 8287) || (c =? 12288) || (c =? 65279))%N.

Fixpoint trimStart (s : jsstring) : jsstring :=
  match s with
  | c :: s' => if is_space c then trimStart s' else s
  | [] => []
  end.

Definition trimEnd (s : jsstring) : jsstring := rev (trimStart (rev s)).

Definition trim (s : jsstring) : jsstring := trimEnd (trimStart s).

(** [s.split(sep)] for a one-unit separator: at least one piece, also for
    the empty string. *)
Fixpoint split_unit (sep : N) (s : jsstring) : list jsstring :=
  match s with
  | [] => [[]]
  | c :: s' =>
      if N.eqb c sep then [] :: split_unit sep s'
      else match split_unit sep s' with
           | p :: ps => (c :: p) :: ps
           | [] => [[c]]
           end
  end.

(** [xs.join(sep)]. *)
Fixpoint join (sep : jsstring) (xs : list jsstring) : jsstring :=
  match xs with
  | [] => []
  | [x] => x
  | x :: rest => x ++ sep ++ join sep rest
  end.

(** [s.replace(p, r)] with a string pattern: the first occurrence only. *)
Fixpoint replace_first (p r s : jsstring) : jsstring :=
  if startsWith s p then r ++ skipn (length p) s
  else match s with
       | [] => []
       | c :: s' => c :: replace_first p r s'
       end.

(** [[...new Set(xs)]]: first occurrences, in order. *)
Fixpoint dedupe_acc (seen : list jsstring) (xs : list jsstring) : list jsstring :=
  match xs with
  | [] => []
  | x :: rest =>
      if existsb (jseqb x) seen then dedupe_acc seen rest
      else x :: dedupe_acc (x :: seen) rest
  end.

Definition dedupe (xs : list jsstring) : list jsstring := dedupe_acc [] xs.

(** Decimal digits of a natural number, most significant first. *)
Fixpoint digits_fuel (fuel : nat) (n : N) (acc : jsstring) : jsstring :=
  match fuel with
  | O => acc
  | S f =>
      let acc' := (48 + n mod 10)%N :: acc in
      if (n <? 10)%N then acc' else digits_fuel f (n / 10)%N acc'
  end.

Definition N_to_js (n : N) : jsstring := digits_fuel (S (N.to_nat (N.log2 n))) n [].

Definition Z_to_js (z : Z) : jsstring :=
  if (z <? 0)%Z then 45%N :: N_to_js (Z.to_N (- z)) else N_to_js (Z.to_N z).

(** [String(n).padStart(w, '0')] for a natural number. *)
Definition pad0 (w : nat) (n : N) : jsstring :=
  let d := N_to_js n in repeat 48%N (w - length d) ++ d.


(** ** Regular expressions

    The source uses regular-expression literals throughout.  They are
    embedded as terms of [regex] and run by a backtracking matcher with the
    semantics of ECMAScript for the constructs used: ordered alternation,
    greedy repetition, word boundaries, anchors, and the [i] flag. *)

Inductive regex : Type :=
| REps
| RChar (c : N)
| RSet (neg : bool) (ranges : list (N * N))
| RSeq (r1 r2 : regex)
| RAlt (r1 r2 : regex)
| RStar (r : regex)
| RWordB
| RBol
| REol.

(** [\w]. *)
Definition is_word (c : N) : bool :=
  ((48 <=? c) && (c <=? 57) || (65 <=? c) && (c <=? 90)
   || (97 <=? c) && (c <=? 122) || (c =? 95))%N.

Definition is_word_opt (c : option N) : bool :=
  match c with Some x => is_word x | None => false end.

(** The assertion [\b] between the unit before the position and the unit
    at it. *)
Definition word_boundary (prev : option N) (s : jsstring) : bool :=
  xorb (is_word_opt prev) (is_word_opt (hd_error s)).

(** Canonicalize of the [i] flag (without [u]): the upper case of the
    code unit when that is one code unit, and never from a unit at or
    above U+0080 to one below.  U+00DF, whose upper case has two units,
    stays as it is, and so do U+0131 and U+017F, whose upper cases are
    ASCII letters. *)
Definition canon (c : N) : N :=
  if (c <? 128)%N then (if ((97 <=? c) && (c <=? 122))%N then (c - 32)%N else c)
  else run_image Unicode.uppercase_unit c.

Definition unit_eq (icase : bool) (a b : N) : bool :=
  if icase then N.eqb (canon a) (canon b) else N.eqb a b.

(** The members of an inclusive range. *)
Definition range_units (lo hi : N) : list N :=
  map (fun i => (lo + N.of_nat i)%N) (seq 0 (S (N.to_nat hi) - N.to_nat lo)).

Definition in_ranges (icase : bool) (ranges : list (N * N)) (x : N) : bool :=
  existsb (fun '(lo, hi) =>
             if icase then existsb (fun a => N.eqb (canon a) (canon x)) (range_units lo hi)
             else ((lo <=? x) && (x <=? hi))%N) ranges.

Section Matcher.
Variable icase : bool.
Variable A : Type.

(** A continuation receives the unit just consumed (for [\b] and [^])
    and the rest of the input. *)
Definition cont := option N -> jsstring -> option A.

Fixpoint rmatch (r : regex) (prev : option N) (s : jsstring) (k : cont) : option A :=
  match r with
  | REps => k prev s
  | RChar c =>
      match s with
      | x :: s' => if unit_eq icase c x then k (Some x) s' else None
      | [] => None
      end
  | RSet neg ranges =>
      match s with
      | x :: s' => if xorb neg (in_ranges icase ranges x) then k (Some x) s' else None
      | [] => None
      end
  | RSeq r1 r2 => rmatch r1 prev s (fun p s' => rmatch r2 p s' k)
  | RAlt r1 r2 =>
      match rmatch r1 prev s k with
      | Some v => Some v
      | None => rmatch r2 prev s k
      end
  | RStar r1 =>
      (fix star (n : nat) (p : option N) (t : jsstring) : option A :=
         match n with
         | O => k p t
         | S n' =>
             match rmatch r1 p t
                     (fun p' t' => if length t' <? length t then star n' p' t' else None) with
             | Some v => Some v
             | None => k p t
             end
         end) (length s) prev s
  | RWordB => if word_boundary prev s then k prev s else None
  | RBol => match prev with None => k prev s | Some _ => None end
  | REol => match s with [] => k prev s | _ :: _ => None end
  end.
End Matcher.
Arguments rmatch icase {A} r prev s k.

(** The length of the match of [r] at the start of [s], if there is one. *)
Definition match_here (icase : bool) (r : regex) (prev : option N) (s : jsstring) : option nat :=
  rmatch icase r prev s (fun _ rest => Some (length s - length rest)).

(** [r.test(s)]: is there a match at some position. *)
Fixpoint test_from (icase : bool) (r : regex) (prev : option N) (s : jsstring) : bool :=
  match match_here icase r prev s with
  | Some _ => true
  | None => match s with
            | [] => false
            | c :: s' => test_from icase r (Some c) s'
            end
  end.

Definition regex_test (icase : bool) (r : regex) (s : jsstring) : bool :=
  test_from icase r None s.

(** The input cut at the successive matches of a [g] regular expression:
    units outside a match, and matches. *)
Inductive piece : Type :=
| Unit (c : N)
| Hit (m : jsstring).

Fixpoint pieces (fuel : nat) (icase : bool) (r : regex) (prev : option N) (s : jsstring)
  : list piece :=
  match fuel with
  | O => map Unit s
  | S f =>
      match match_here icase r prev s with
      | None =>
          match s with
          | [] => []
          | c :: s' => Unit c :: pieces f icase r (Some c) s'
          end
      | Some O =>
          Hit [] :: match s with
                    | [] => []
                    | c :: s' => Unit c :: pieces f icase r (Some c) s'
                    end
      | Some len =>
          let m := firstn len s in
          Hit m :: pieces f icase r (Some (last m 0%N)) (skipn len s)
      end
  end.

(** [s.match(/r/g)], with [[]] for [null]. *)
Definition regex_match_all (icase : bool) (r : regex) (s : jsstring) : list jsstring :=
  flat_map (fun p => match p with Hit m => [m] | Unit _ => [] end)
           (pieces (S (length s)) icase r None s).

(** [s.replace(/r/g, f)]. *)
Definition regex_replace_all (icase : bool) (r : regex) (f : jsstring -> jsstring)
           (s : jsstring) : jsstring :=
  flat_map (fun p => match p with Hit m => f m | Unit c => [c] end)
           (pieces (S (length s)) icase r None s).

(** Notation for writing the literals of the source. *)
Fixpoint lit_units (s : jsstring) : regex :=
  match s with
  | [] => REps
  | c :: s' => RSeq (RChar c) (lit_units s')
  end.

Definition lit (s : String.string) : regex := lit_units (js s).

Fixpoint alts (rs : list regex) : regex :=
  match rs with
  | [] => RSet false []
  | [r] => r
  | r :: rest => RAlt r (alts rest)
  end.

Fixpoint seqs (rs : list regex) : regex :=
  match rs with
  | [] => REps
  | [r] => r
  | r :: rest => RSeq r (seqs rest)
  end.

Definition RPlus (r : regex) : regex := RSeq r (RStar r).

(** A class given by its single units and its ranges. *)
Definition cls (units : String.string) (ranges : list (String.string)) : regex :=
  RSet false
       (map (fun c => (c, c)) (js units)
        ++ flat_map (fun rg => match js rg with
                               | [lo; hi] => [(lo, hi)]
                               | _ => []
                               end) ranges).

Definition ncls (units : String.string) (ranges : list (String.string)) : regex :=
  match cls units ranges with
  | RSet _ rs => RSet true rs
  | r => r
  end.

(** [\s], and [[\s<>]]. *)
Definition space_ranges : list (N * N) :=
  [(9, 13); (32, 32); (160, 160); (5760, 5760); (8192, 8202); (8232, 8233);
   (8239, 8239); (8287, 8287); (12288, 12288); (65279, 65279)]%N.


(** ** Configuration (scoring_config.mjs) *)

(** [WEIGHTS], in the order of the object literal, which is the order
    [Object.entries] enumerates it in (no key is an array index). *)
Definition WEIGHTS : list (jsstring * Q) :=
  map (fun tw : String.string * Q => (js (fst tw), snd tw))
  [ ("api", 3); ("rest api", 3); ("graphql", 2); ("sdk", 3); ("webhook", 2);
    ("webhooks", 2); ("cli", 2); ("command line", 2); ("github app", 2);
    ("integration", 1); ("integrations", 1); ("status page", 1); ("changelog", 1);
    ("developer", 2); ("developers", 2); ("devops", 2); ("infrastructure", 1);
    ("deployment", 1); ("ci/cd", 2); ("automation", 1);
    ("per seat", 2); ("per user", 2); ("workspace", 2); ("workspaces", 2);
    ("team", 2); ("teams", 2); ("team plan", 2); ("saml", 3); ("sso", 3);
    ("single sign-on", 3); ("audit log", 2); ("audit logs", 2); ("rbac", 2);
    ("role-based", 2); ("enterprise", 1); ("enterprise plan", 2);
    ("organization", 1); ("organizations", 1); ("collaboration", 1);
    ("collaborate", 1);
    ("pricing", 1); ("signup", 1); ("sign up", 1); ("get started", 1); ("demo", 1);
    ("request demo", 1); ("trial", 1); ("free trial", 1); ("docs", 2);
    ("documentation", 2); ("api reference", 3); ("getting started", 1);
    ("careers", 1); ("hiring", 1); ("we are hiring", 1); ("we're hiring", 1);
    ("join us", 1); ("join our team", 1); ("security policy", 1); ("security", 1);
    ("soc 2", 2); ("soc2", 2); ("gdpr", 1); ("compliance", 1); ("about us", 0.5);
    ("our team", 0.5); ("roadmap", 1); ("status", 1);
    ("show hn", 2); ("product hunt", 2); ("launching today", 2);
    ("just launched", 2); ("beta", 1); ("early access", 1); ("coming soon", 1);
    ("now available", 1); ("announcing", 1);
    ("blog", -1); ("wordpress", -2); ("powered by wordpress", -2);
    ("powered by", -1); ("tutorial", -1); ("course", -1); ("learn", -0.5);
    ("buy now", -2); ("ecommerce", -2); ("shop", -2); ("store", -1);
    ("portfolio", -1); ("resume", -2); ("personal website", -2); ("game", -2);
    ("download", -1) ]%Q.

Definition DEV_SIGNALS : list jsstring :=
  map js [ "api"; "rest api"; "graphql"; "sdk"; "webhook"; "webhooks";
           "cli"; "command line"; "github app"; "docs"; "documentation";
           "api reference"; "developer"; "developers"; "devops" ].

Definition TEAM_SIGNALS : list jsstring :=
  map js [ "workspace"; "workspaces"; "team"; "teams"; "per seat"; "per user";
           "saml"; "sso"; "single sign-on"; "audit log"; "audit logs";
           "rbac"; "role-based"; "enterprise plan"; "team plan"; "organization";
           "organizations" ].

Definition PRICING_MODELS : list (jsstring * list jsstring) :=
  map (fun mp : String.string * list String.string => (js (fst mp), map js (snd mp)))
  [ ("per_seat", ["per seat"; "per user"; "/user"; "/seat"]);
    ("per_workspace", ["per workspace"; "per organization"; "per team"]);
    ("usage_based", ["usage-based"; "pay as you go"; "per request"; "per api call"]);
    ("flat_rate", ["flat rate"; "unlimited"; "fixed price"]);
    ("freemium", ["free plan"; "free tier"; "free forever"]);
    ("open_source", ["open source"; "open-source"; "self-hosted"; "self hosted"]);
    ("enterprise", ["enterprise pricing"; "custom pricing"; "contact sales"]) ].

Record Thresholds : Type := {
  minimum_score : Q;
  require_team_cue : bool;
  require_dev_signal : bool
}.

Definition THRESHOLDS : Thresholds :=
  {| minimum_score := 5; require_team_cue := true; require_dev_signal := true |}.

Definition BUILDER_DOMAINS : list jsstring :=
  map js [ "wix.com"; "webflow.io"; "squarespace.com"; "carrd.co";
           "wordpress.com"; "weebly.com"; "jimdo.com"; "site123.com" ].

Definition SKIP_DOMAINS : list jsstring :=
  map js [ "github.com"; "substack.com"; "steampowered.com"; "medium.com";
           "wordpress.com"; "blogspot.com"; "tumblr.com"; "wixsite.com";
           "marketplace.visualstudio.com"; "chrome.google.com"; "addons.mozilla.org";
           "play.google.com"; "apps.apple.com"; "reddit.com"; "twitter.com";
           "linkedin.com"; "facebook.com"; "instagram.com"; "youtube.com" ].

Definition MULTI_TENANT_SUFFIXES : list jsstring :=
  map js [ "vercel.app"; "netlify.app"; "github.io"; "herokuapp.com";
           "azurewebsites.net"; "cloudfront.net"; "amplifyapp.com";
           "web.app"; "firebaseapp.com"; "pages.dev"; "repl.co";
           "glitch.me"; "now.sh"; "railway.app" ].

(** [set.has(x)] and [array.includes(x)]. *)
Definition has (xs : list jsstring) (x : jsstring) : bool := existsb (jseqb x) xs.

(** ** The libraries the program calls *)

(** The result of tldts' [parse]: [hostname] is the host name tldts
    extracted from its input, [domain] the registrable domain (public
    suffix plus one label); a field is [null] when tldts could not
    determine it. *)
Record ParseResult : Type := {
  pr_hostname : option jsstring;
  pr_domain : option jsstring;
  pr_publicSuffix : option jsstring;
  pr_subdomain : option jsstring
}.

(** The fields of a WHATWG [URL] object the program reads. *)
Record Url : Type := {
  url_hostname : jsstring;
  url_pathname : jsstring;
  url_href : jsstring
}.

(** The cheerio queries the program makes on a loaded document, each with
    its selector. *)
Record Dom : Type := {
  dom_title : jsstring;                     (* $('title').first().text() *)
  dom_h1 : jsstring;                        (* $('h1').first().text() *)
  dom_meta_description : option jsstring;   (* $('meta[name="description"]').attr('content') *)
  dom_og_description : option jsstring;     (* $('meta[property="og:description"]').attr('content') *)
  dom_p : list jsstring;                    (* the text of each $('p') *)
  dom_img_alt_team : nat;                   (* $('img[alt*="team"]').length *)
  dom_div_team_img : nat;                   (* $('div[class*="team"] img').length *)
  dom_form_contact : nat;                   (* $('form[action*="contact"]').length *)
  dom_a_contact : list jsstring;            (* the href of each $('a[href*="/contact"]') *)
  dom_a_discord : option jsstring;          (* $('a[href*="discord.gg"], a[href*="discord.com/invite"]').attr('href') *)
  dom_a_slack : option jsstring;            (* $('a[href*="slack.com"]').attr('href') *)
  dom_a_calendly : option jsstring;         (* $('a[href*="calendly.com"]').attr('href') *)
  dom_a_http : list jsstring                (* the href of each $('a[href^="http"]') *)
}.

(** Why [fetch], or reading the body, rejected. *)
Inductive FetchFailure : Type :=
| NetworkError
| BodyUnreadable.

(** What the network does with a request: after [latency] milliseconds it
    has delivered a response and its body, or it has failed. *)
Inductive Outcome : Type :=
| Responded (status : Z) (body : jsstring)
| Rejected (why : FetchFailure).

Record Reply : Type := {
  latency : Z;
  outcome : Outcome
}.

Record Externals : Type := {
  parseDomain : jsstring -> ParseResult;           (* tldts: parse *)
  newURL : jsstring -> option Url;                 (* new URL(u); None when it throws *)
  newURL_base : jsstring -> jsstring -> option Url;  (* new URL(path, base) *)
  cheerio_load : jsstring -> Dom;                  (* cheerio.load(html) *)
  network : Z -> jsstring -> Reply                 (* the request sent at a time, to a URL *)
}.

(** ** Identity resolver *)

Section Identity.
Variable X : Externals.

Definition getCanonical (hostname : jsstring) : jsstring :=
  let p := parseDomain X hostname in
  let regDomain := opt_or (pr_hostname p) hostname in
  let isMultiTenant := existsb (fun suffix => endsWith hostname suffix) MULTI_TENANT_SUFFIXES in
  if isMultiTenant then hostname else regDomain.

Definition shouldSkip (hostname : jsstring) : bool :=
  let p := parseDomain X hostname in
  let regDomain := opt_or (pr_hostname p) hostname in
  has SKIP_DOMAINS regDomain.

Definition isBuilder (hostname : jsstring) : bool :=
  let p := parseDomain X hostname in
  let regDomain := opt_or (pr_hostname p) hostname in
  has BUILDER_DOMAINS regDomain.
End Identity.


(** ** MD5 (crypto.createHash('md5')), RFC 1321 *)

(** The UTF-8 bytes of a string.  A surrogate pair is one code point; a
    lone surrogate is encoded as U+FFFD. *)
Fixpoint utf8 (s : jsstring) : list N :=
  let enc3 (c : N) := [224 + c / 4096; 128 + (c / 64) mod 64; 128 + c mod 64]%N in
  match s with
  | [] => []
  | c :: s' =>
      if (c <? 128)%N then c :: utf8 s'
      else if (c <? 2048)%N then (192 + c / 64)%N :: (128 + c mod 64)%N :: utf8 s'
      else if ((55296 <=? c) && (c <=? 56319))%N then
        match s' with
        | d :: s'' =>
            if ((56320 <=? d) && (d <=? 57343))%N then
              let cp := (65536 + (c - 55296) * 1024 + (d - 56320))%N in
              [240 + cp / 262144; 128 + (cp / 4096) mod 64;
               128 + (cp / 64) mod 64; 128 + cp mod 64]%N ++ utf8 s''
            else enc3 65533%N ++ utf8 s'
        | [] => enc3 65533%N
        end
      else if ((56320 <=? c) && (c <=? 57343))%N then enc3 65533%N ++ utf8 s'
      else enc3 c ++ utf8 s'
  end.

Module MD5.
Local Open Scope N_scope.

Definition w32 (x : N) : N := x mod 4294967296.

Definition rotl (x c : N) : N :=
  w32 (N.lor (N.shiftl x c) (N.shiftr x (32 - c))).

Definition not32 (x : N) : N := N.lxor x 4294967295.

Definition K : list N :=
[ 3614090360; 3905402710; 606105819; 3250441966;
  4118548399; 1200080426; 2821735955; 4249261313;
  1770035416; 2336552879; 4294925233; 2304563134;
  1804603682; 4254626195; 2792965006; 1236535329;
  4129170786; 3225465664; 643717713; 3921069994;
  3593408605; 38016083; 3634488961; 3889429448;
  568446438; 3275163606; 4107603335; 1163531501;
  2850285829; 4243563512; 1735328473; 2368359562;
  4294588738; 2272392833; 1839030562; 4259657740;
  2763975236; 1272893353; 4139469664; 3200236656;
  681279174; 3936430074; 3572445317; 76029189;
  3654602809; 3873151461; 530742520; 3299628645;
  4096336452; 1126891415; 2878612391; 4237533241;
  1700485571; 2399980690; 4293915773; 2240044497;
  1873313359; 4264355552; 2734768916; 1309151649;
  4149444226; 3174756917; 718787259; 3951481745 ].

Definition shifts : list N :=
[ 7; 12; 17; 22; 7; 12; 17; 22; 7; 12; 17; 22; 7; 12; 17; 22;
  5; 9; 14; 20; 5; 9; 14; 20; 5; 9; 14; 20; 5; 9; 14; 20;
  4; 11; 16; 23; 4; 11; 16; 23; 4; 11; 16; 23; 4; 11; 16; 23;
  6; 10; 15; 21; 6; 10; 15; 21; 6; 10; 15; 21; 6; 10; 15; 21 ].

(** Message bytes, the bit 1, zeros up to 56 modulo 64, and the length in
    bits as 8 little-endian bytes. *)
Definition le_bytes (n : nat) (x : N) : list N :=
  map (fun i => (x / 2 ^ (8 * N.of_nat i)) mod 256) (seq 0 n).

Definition pad (msg : list N) : list N :=
  let len := length msg in
  let zeros := ((55 + 64 - len mod 64) mod 64)%nat in
  msg ++ [128] ++ repeat 0 zeros ++ le_bytes 8 (8 * N.of_nat len).

Definition word_le (bs : list N) : N :=
  fold_right (fun b acc => b + 256 * acc) 0 bs.

Fixpoint words (n : nat) (bs : list N) : list N :=
  match n with
  | O => []
  | S n' => word_le (firstn 4 bs) :: words n' (skipn 4 bs)
  end.

Definition state : Type := (N * N * N * N)%type.

Definition round (M : list N) (st : state) (i : nat) : state :=
  let '(a, b, c, d) := st in
  let '(f, g) :=
    if (i <? 16)%nat then (N.lor (N.land b c) (N.land (not32 b) d), i)
    else if (i <? 32)%nat then (N.lor (N.land d b) (N.land (not32 d) c), ((5 * i + 1) mod 16)%nat)
    else if (i <? 48)%nat then (N.lxor (N.lxor b c) d, ((3 * i + 5) mod 16)%nat)
    else (N.lxor c (N.lor b (not32 d)), ((7 * i) mod 16)%nat) in
  let f' := w32 (f + a + nth i K 0 + nth g M 0) in
  (d, w32 (b + rotl f' (nth i shifts 0)), b, c).

Definition block (st : state) (bs : list N) : state :=
  let M := words 16 bs in
  let '(a, b, c, d) := st in
  let '(a', b', c', d') := fold_left (round M) (seq 0 64) st in
  (w32 (a + a'), w32 (b + b'), w32 (c + c'), w32 (d + d')).

Fixpoint blocks (n : nat) (st : state) (bs : list N) : state :=
  match n with
  | O => st
  | S n' => blocks n' (block st (firstn 64 bs)) (skipn 64 bs)
  end.

Definition digest (msg : list N) : list N :=
  let p := pad msg in
  let '(a, b, c, d) :=
    blocks (length p / 64) (1732584193, 4023233417, 2562383102, 271733878) p in
  le_bytes 4 a ++ le_bytes 4 b ++ le_bytes 4 c ++ le_bytes 4 d.

Definition hex_digit (n : N) : N := if n <? 10 then 48 + n else 87 + n.

Definition hex (bs : list N) : jsstring :=
  flat_map (fun b => [hex_digit (b / 16); hex_digit (b mod 16)]) bs.
End MD5.

(** [crypto.createHash('md5').update(s).digest('hex')]. *)
Definition md5_hex (s : jsstring) : jsstring := MD5.hex (MD5.digest (utf8 s)).

(** ** Dates *)

Definition msPerDay : Z := 86400000.

(** Year, month and day of a day number counted from 1970-01-01, in the
    proleptic Gregorian calendar. *)
Definition civil_from_days (days : Z) : Z * Z * Z :=
  let z := (days + 719468)%Z in
  let era := (z / 146097)%Z in
  let doe := (z - era * 146097)%Z in
  let yoe := ((doe - doe / 1460 + doe / 36524 - doe / 146096) / 365)%Z in
  let doy := (doe - (365 * yoe + yoe / 4 - yoe / 100))%Z in
  let mp := ((5 * doy + 2) / 153)%Z in
  let d := (doy - (153 * mp + 2) / 5 + 1)%Z in
  let m := (if mp <? 10 then mp + 3 else mp - 9)%Z in
  let y := (yoe + era * 400 + (if m <=? 2 then 1 else 0))%Z in
  (y, m, d).

(** [new Date(t).toISOString()], for a time value [t] in milliseconds
    since the epoch. *)
Definition toISOString (t : Z) : jsstring :=
  let '(y, m, d) := civil_from_days (t / msPerDay) in
  let ms := (t mod msPerDay)%Z in
  let year :=
    if ((0 <=? y) && (y <=? 9999))%Z then pad0 4 (Z.to_N y)
    else (if (y <? 0)%Z then js "-" else js "+") ++ pad0 6 (Z.to_N (Z.abs y)) in
  year ++ js "-" ++ pad0 2 (Z.to_N m) ++ js "-" ++ pad0 2 (Z.to_N d)
  ++ js "T" ++ pad0 2 (Z.to_N (ms / 3600000)) ++ js ":"
  ++ pad0 2 (Z.to_N ((ms / 60000) mod 60)) ++ js ":"
  ++ pad0 2 (Z.to_N ((ms / 1000) mod 60)) ++ js "."
  ++ pad0 3 (Z.to_N (ms mod 1000)) ++ js "Z".

(** [new Date(t).toISOString().split('T')[0]]. *)
Definition isoDate (t : Z) : jsstring :=
  hd [] (split_unit 84 (toISOString t)).

(** ** Fetch and probe cache *)

Definition CACHE_DIR : jsstring := js ".cache".

(** [getCacheKey]; the current time, which the source reads with
    [new Date()], is the argument [now]. *)
Definition getCacheKey (now : Z) (canonical path : jsstring) : jsstring :=
  let date := isoDate now in
  let hash := slice0 8 (md5_hex (canonical ++ path ++ date)) in
  CACHE_DIR ++ js "/"
  ++ regex_replace_all true (ncls "" ["az"; "09"]) (fun _ => js "_") canonical
  ++ js "_" ++ regex_replace_all false (lit "/") (fun _ => js "_") path
  ++ js "_" ++ hash ++ js ".cache".

(** A file of the cache directory: the JSON the program wrote (status,
    body, time of writing), or a file the read gives up on ([JSON.parse]
    throws on it, or its JSON holds no timestamp, so that the age is
    [NaN]).  The directory is taken to hold nothing else: no JSON with a
    timestamp that is not one the program wrote. *)
Inductive CacheFile : Type :=
| CacheJson (status : Z) (html : jsstring) (timestamp : Z)
| CacheCorrupt.

(** The world a run lives in: the clock ([Date.now()]) and the files of
    the cache directory. *)
Record World : Type := {
  clock : Z;
  files : list (jsstring * CacheFile)
}.

Fixpoint readFile (path : jsstring) (fs : list (jsstring * CacheFile)) : option CacheFile :=
  match fs with
  | [] => None
  | (p, c) :: rest => if jseqb p path then Some c else readFile path rest
  end.

Definition writeFile (path : jsstring) (c : CacheFile) (w : World) : World :=
  {| clock := clock w; files := (path, c) :: files w |}.

Definition sleep (ms : Z) (w : World) : World :=
  {| clock := (clock w + Z.max 0 ms)%Z; files := files w |}.

Record FetchResult : Type := {
  fr_status : Z;
  fr_html : jsstring;
  fr_cached : bool
}.

Definition TTL : Z := (7 * 24 * 60 * 60 * 1000)%Z.

Section Fetch.
Variable X : Externals.

(** The cache read at the head of [fetchHtml]: a fresh entry under
    today's key, or nothing (no file, an unreadable file, an old entry,
    a URL that does not parse). *)
Definition cacheRead (u : jsstring) (w : World) : option FetchResult :=
  match newURL X u with
  | None => None
  | Some url =>
      let cacheKey := getCacheKey (clock w) (url_hostname url) (url_pathname url) in
      match readFile cacheKey (files w) with
      | Some (CacheJson status html timestamp) =>
          let age := (clock w - timestamp)%Z in
          if (age <? TTL)%Z
          then Some {| fr_status := status; fr_html := html; fr_cached := true |}
          else None
      | Some CacheCorrupt => None
      | None => None
      end
  end.

Definition cacheWrite (u : jsstring) (status : Z) (html : jsstring) (w : World) : World :=
  match newURL X u with
  | None => w
  | Some url =>
      let cacheKey := getCacheKey (clock w) (url_hostname url) (url_pathname url) in
      writeFile cacheKey (CacheJson status (slice0 200000 html) (clock w)) w
  end.

(** [fetchHtml].  The request is aborted when the reply has not arrived
    within [timeoutMs]; an abort, a network error and an unreadable body
    all reject, and the [catch] turns a rejection into status 0 and an
    empty body. *)
Definition fetchHtml (u : jsstring) (timeoutMs : Z) (useCache : bool) (w : World)
  : FetchResult * World :=
  match (if useCache then cacheRead u w else None) with
  | Some r => (r, w)
  | None =>
      let failed := {| fr_status := 0; fr_html := []; fr_cached := false |} in
      let reply := network X (clock w) u in
      if (timeoutMs <=? latency reply)%Z then (failed, sleep timeoutMs w)
      else
        let w1 := sleep (latency reply) w in
        match outcome reply with
        | Rejected _ => (failed, w1)
        | Responded status html =>
            let result := {| fr_status := status; fr_html := html; fr_cached := false |} in
            if useCache && (200 <=? status)%Z && (status <? 400)%Z
            then (result, cacheWrite u status html w1)
            else (result, w1)
        end
  end.
End Fetch.


(** ** Signal extractor *)

(** The Number nearest to a natural number: the number itself up to 53
    binary digits, else rounded to 53 significant digits, a tie going to
    the even one; [None] is [Infinity], from 2^1024 on. *)
Definition to_double (n : N) : option N :=
  let digits := N.size n in
  if (digits <=? 53)%N then Some n
  else
    let drop := (digits - 53)%N in
    let q := N.shiftr n drop in
    let r := (n mod 2 ^ drop)%N in
    let half := (2 ^ (drop - 1))%N in
    let q' := if ((half <? r) || (r =? half) && N.odd q)%N then (q + 1)%N else q in
    let v := N.shiftl q' drop in
    if (2 ^ 1024 <=? v)%N then None else Some v.

Definition digit_value (c : N) : N :=
  if ((48 <=? c) && (c <=? 57))%N then (c - 48)%N
  else if ((97 <=? c) && (c <=? 102))%N then (c - 87)%N
  else (c - 55)%N.

(** [parseInt(s, 16)] and [parseInt(s, 10)] on a non-empty string of
    digits: the Number nearest to the integer the digits write. *)
Definition parseInt (radix : N) (s : jsstring) : option N :=
  to_double (fold_left (fun acc c => (radix * acc + digit_value c)%N) s 0%N).

(** [String.fromCharCode(x)]: one code unit, [x] modulo 2^16, and 0 for
    [Infinity]. *)
Definition fromCharCode (x : option N) : jsstring :=
  match x with
  | Some n => [(n mod 65536)%N]
  | None => [0%N]
  end.

Definition drop_end (n : nat) (s : jsstring) : jsstring := firstn (length s - n) s.

Definition decodeHtmlEntities (text : jsstring) : jsstring :=
  let t := regex_replace_all true (lit "u003e") (fun _ => js ">") text in
  let t := regex_replace_all true (lit "u003c") (fun _ => js "<") t in
  let t := regex_replace_all true (lit "u0026") (fun _ => js "&") t in
  let t := regex_replace_all true (lit "u0022") (fun _ => [34%N]) t in
  let t := regex_replace_all true (lit "u0027") (fun _ => js "'") t in
  let t := regex_replace_all true
             (seqs [lit "&#x"; RPlus (cls "" ["09"; "af"]); lit ";"])
             (fun m => fromCharCode (parseInt 16 (drop_end 1 (skipn 3 m)))) t in
  let t := regex_replace_all false
             (seqs [lit "&#"; RPlus (cls "" ["09"]); lit ";"])
             (fun m => fromCharCode (parseInt 10 (drop_end 1 (skipn 2 m)))) t in
  let t := regex_replace_all false (lit "&quot;") (fun _ => [34%N]) t in
  let t := regex_replace_all false (lit "&apos;") (fun _ => js "'") t in
  let t := regex_replace_all false (lit "&lt;") (fun _ => js "<") t in
  let t := regex_replace_all false (lit "&gt;") (fun _ => js ">") t in
  let t := regex_replace_all false (lit "&amp;") (fun _ => js "&") t in
  let edge := RSet false ((60, 60) :: (62, 62) :: space_ranges)%N in
  regex_replace_all false (RAlt (RSeq RBol (RPlus edge)) (RSeq (RPlus edge) REol))
                    (fun _ => []) t.

(** [/[A-Z0-9._%+-]+@[A-Z0-9.-]+\.[A-Z]{2,}/gi]. *)
Definition email_regex : regex :=
  seqs [ RPlus (cls "._%+-" ["AZ"; "09"]); lit "@"; RPlus (cls ".-" ["AZ"; "09"]);
         lit "."; cls "" ["AZ"]; cls "" ["AZ"]; RStar (cls "" ["AZ"]) ].

Definition bad_emails : list jsstring :=
  map js [ "noreply@"; "no-reply@"; "donotreply@"; "do-not-reply@";
           "you@example.com"; "your@email.com"; "email@domain.com";
           "test@example.com"; "user@example.com"; "name@example.com";
           "@example.com"; "example@"; "test@test.com"; "email@email.com";
           "info@"; "admin@"; "webmaster@"; "postmaster@" ].

Definition emailScore (email : jsstring) : Z :=
  let lower := toLowerCase email in
  if includes lower (js "support@") then 2
  else if includes lower (js "contact@") then 2
  else if includes lower (js "hello@") then 3
  else if includes lower (js "team@") then 3
  else 4.

(** [Array.prototype.sort] is stable; with the comparator
    [getScore(b) - getScore(a)] an element goes behind those already
    placed whose score is at least its own. *)
Fixpoint insert_desc (score : jsstring -> Z) (x : jsstring) (l : list jsstring)
  : list jsstring :=
  match l with
  | [] => [x]
  | y :: l' => if (score y <? score x)%Z then x :: y :: l' else y :: insert_desc score x l'
  end.

Definition sort_desc (score : jsstring -> Z) (l : list jsstring) : list jsstring :=
  fold_left (fun acc x => insert_desc score x acc) l [].

Definition extractEmails (text : jsstring) : list jsstring :=
  let decoded := decodeHtmlEntities text in
  let m := regex_match_all true email_regex decoded in
  let emails :=
    dedupe (filter (fun e =>
                      let lower := toLowerCase e in
                      negb (existsb (fun b => includes lower b || jseqb lower b) bad_emails))
                   m) in
  let sorted := sort_desc emailScore emails in
  firstn 5 sorted.

Definition getEmailConfidence (emails : list jsstring) : jsstring :=
  match emails with
  | [] => js "none"
  | e :: _ =>
      let first := toLowerCase e in
      if includes first (js "support@") || includes first (js "contact@") then js "medium"
      else if includes first (js "hello@") || includes first (js "team@") then js "high"
      else js "high"
  end.

(** ** Weighted scorer *)

Record Signals : Type := {
  sig_dev : list jsstring;
  sig_team : list jsstring;
  sig_launch : list jsstring;
  sig_negative : list jsstring
}.

Record Flags : Type := {
  f_pricing : bool; f_docs : bool; f_signup : bool; f_changelog : bool;
  f_api : bool; f_webhook : bool; f_cli : bool; f_sdk : bool;
  f_careers : bool; f_privacy : bool; f_terms : bool
}.

Record Scoring : Type := {
  weightedScore : Q;
  flags : Flags;
  detectedSignals : Signals;
  passed : bool;
  filterReason : jsstring;
  pricingModel : jsstring;
  teamCue : jsstring;
  hasDevSignal : bool;
  hasTeamCue : bool
}.

(** [new RegExp(`\\b${escaped}\\b`, 'i')]: the replacement puts a
    backslash before every unit that is special in a pattern, so each
    unit of the token stands for itself. *)
Definition token_regex (token : jsstring) : regex :=
  RSeq RWordB (RSeq (lit_units token) RWordB).

Definition token_test (token text : jsstring) : bool :=
  regex_test true (token_regex token) text.

Definition Qlt_bool (a b : Q) : bool := negb (Qle_bool b a).

Definition launch_tokens : list jsstring :=
  map js ["show hn"; "product hunt"; "beta"; "launching"].

(** One turn of the loop over [Object.entries(WEIGHTS)]. *)
Definition scan_step (text : jsstring) (acc : Q * Signals) (entry : jsstring * Q)
  : Q * Signals :=
  let '(score, sg) := acc in
  let '(token, weight) := entry in
  if token_test token text then
    let score' := (score + weight)%Q in
    if has DEV_SIGNALS token then
      (score', {| sig_dev := sig_dev sg ++ [token]; sig_team := sig_team sg;
                  sig_launch := sig_launch sg; sig_negative := sig_negative sg |})
    else if has TEAM_SIGNALS token then
      (score', {| sig_dev := sig_dev sg; sig_team := sig_team sg ++ [token];
                  sig_launch := sig_launch sg; sig_negative := sig_negative sg |})
    else if Qlt_bool weight 0 then
      (score', {| sig_dev := sig_dev sg; sig_team := sig_team sg;
                  sig_launch := sig_launch sg; sig_negative := sig_negative sg ++ [token] |})
    else if has launch_tokens token then
      (score', {| sig_dev := sig_dev sg; sig_team := sig_team sg;
                  sig_launch := sig_launch sg ++ [token]; sig_negative := sig_negative sg |})
    else (score', sg)
  else acc.

Definition no_signals : Signals :=
  {| sig_dev := []; sig_team := []; sig_launch := []; sig_negative := [] |}.

Definition scan_tokens (weights : list (jsstring * Q)) (text : jsstring) : Q * Signals :=
  fold_left (scan_step text) weights (0%Q, no_signals).

Definition word_alts (ws : list String.string) : regex :=
  seqs [RWordB; alts (map lit ws); RWordB].

Definition detect_flags (text : jsstring) : Flags :=
  {| f_pricing := regex_test true (word_alts ["pricing"]) text;
     f_docs := regex_test true (word_alts ["docs"; "documentation"; "api reference"]) text;
     f_signup := regex_test true (word_alts ["signup"; "sign up"; "get started"; "register"]) text;
     f_changelog := regex_test true (word_alts ["changelog"]) text;
     f_api := regex_test true (word_alts ["api"; "rest api"; "graphql"]) text;
     f_webhook := regex_test true (RSeq RWordB (lit "webhook")) text;
     f_cli := regex_test true (word_alts ["cli"; "command line"]) text;
     f_sdk := regex_test true (word_alts ["sdk"]) text;
     f_careers := regex_test true (word_alts ["careers"; "hiring"; "we're hiring"; "join us"]) text;
     f_privacy := regex_test true (word_alts ["privacy policy"; "/privacy"]) text;
     f_terms := regex_test true (word_alts ["terms of service"; "/terms"]) text |}.

Definition detect_pricing (text : jsstring) : jsstring :=
  match find (fun mp : jsstring * list jsstring =>
                existsb (fun p => includes text p) (snd mp)) PRICING_MODELS with
  | Some mp => fst mp
  | None => []
  end.

Definition scoreContent (html title sourceUrl : jsstring) : Scoring :=
  let text := toLowerCase (html ++ js " " ++ title) in
  let '(weightedScore, detectedSignals) := scan_tokens WEIGHTS text in
  let flags := detect_flags text in
  let hasDevSignal := (0 <? length (sig_dev detectedSignals))%nat in
  let hasTeamCue := (0 <? length (sig_team detectedSignals))%nat in
  let meetsMinimum := Qle_bool (minimum_score THRESHOLDS) weightedScore in
  let '(passed, filterReason) :=
    if negb meetsMinimum then (false, js "below_threshold")
    else if require_dev_signal THRESHOLDS && negb hasDevSignal then (false, js "no_dev_signal")
    else if require_team_cue THRESHOLDS && negb hasTeamCue then (false, js "no_team_cue")
    else (meetsMinimum, []) in
  {| weightedScore := weightedScore;
     flags := flags;
     detectedSignals := detectedSignals;
     passed := passed;
     filterReason := filterReason;
     pricingModel := detect_pricing text;
     teamCue := hd [] (sig_team detectedSignals);
     hasDevSignal := hasDevSignal;
     hasTeamCue := hasTeamCue |}.

(** ** Enrichment fields *)

(** [!valueProp || valueProp.length < 10]. *)
Definition too_short (v : jsstring) : bool :=
  negb (truthy v) || (length v <? 10)%nat.

Definition significant (t : jsstring) : bool :=
  (20 <? length t)%nat && (length t <? 200)%nat.

Definition extractValueProp (d : Dom) : jsstring :=
  let valueProp := trim (dom_h1 d) in
  let valueProp :=
    if too_short valueProp then opt_or (dom_meta_description d) [] else valueProp in
  let valueProp :=
    if too_short valueProp then opt_or (dom_og_description d) [] else valueProp in
  let valueProp :=
    if too_short valueProp then
      match find significant (map trim (dom_p d)) with
      | Some text => text
      | None => valueProp
      end
    else valueProp in
  trim (slice0 120 valueProp).

Definition detectTeamSignals (d : Dom) (html : jsstring) : bool * jsstring :=
  let text := toLowerCase html in
  let hasCareers :=
    regex_test true (word_alts ["careers"; "jobs"; "hiring"; "join us"; "we're hiring"]) text in
  let teamMembers := (dom_img_alt_team d + dom_div_team_img d)%nat in
  let teamSizeEstimate :=
    if (teamMembers =? 0)%nat then js "0"
    else if (teamMembers <=? 3)%nat then js "1-3"
    else if (teamMembers <=? 10)%nat then js "4-10"
    else js "10+" in
  (hasCareers, teamSizeEstimate).

Definition push_if (tag : String.string) (link : option jsstring) (channels : list jsstring)
  : list jsstring :=
  match link with
  | Some l => if truthy l then channels ++ [js tag ++ l] else channels
  | None => channels
  end.

Definition extractContactChannels (d : Dom) (html : jsstring) : jsstring :=
  let channels := [] in
  let channels :=
    if (0 <? dom_form_contact d)%nat || (0 <? length (dom_a_contact d))%nat
    then push_if "form:" (hd_error (dom_a_contact d)) channels
    else channels in
  let channels := push_if "discord:" (dom_a_discord d) channels in
  let channels := push_if "slack:" (dom_a_slack d) channels in
  let channels :=
    if includes html (js "intercom") || includes html (js "Intercom")
    then channels ++ [js "intercom:detected"] else channels in
  let channels := push_if "calendly:" (dom_a_calendly d) channels in
  join (js " | ") channels.

(** [calculateFreshness]: [discoveredAt] is the time value of the ISO
    string passed in and [now] what [Date.now()] returns.  [daysOld] is a
    quotient of doubles in the source; it is below a whole number of days
    exactly when the age in milliseconds is below that many days. *)
Definition calculateFreshness (now discoveredAt : Z) (html title sourceUrl : jsstring)
  : Z * jsstring :=
  let text := toLowerCase (html ++ js " " ++ title) in
  let age := (now - discoveredAt)%Z in
  let younger (days : Z) := (age <? days * msPerDay)%Z in
  let score := 0%Z in
  let score := if younger 7%Z then (score + 3)%Z
               else if younger 14%Z then (score + 2)%Z
               else if younger 30%Z then (score + 1)%Z else score in
  let score := if regex_test true (word_alts ["show hn"; "product hunt"]) sourceUrl
               then (score + 2)%Z else score in
  let score := if regex_test true (word_alts ["launching"; "just launched"; "announcing"]) text
               then (score + 1)%Z else score in
  let score := if regex_test true (word_alts ["beta"; "early access"; "coming soon"]) text
               then (score + 1)%Z else score in
  let context :=
    if regex_test true (seqs [lit "show"; RPlus (RSet false space_ranges); lit "hn"]) sourceUrl
    then js "Show HN"
    else if regex_test true (lit "producthunt") sourceUrl then js "Product Hunt"
    else if regex_test true (word_alts ["beta"; "early access"]) text then js "Beta"
    else if younger 7%Z then js "New"
    else [] in
  (Z.min score 5, context).

Definition generatePersonalizationSeed (signals : Signals) (fl : Flags)
           (pricingModel launchContext : jsstring) : jsstring :=
  let hooks := [] in
  let hooks := if truthy launchContext
               then hooks ++ [js "I saw your " ++ launchContext ++ js " launch"]
               else hooks in
  let hooks := match sig_dev signals with
               | devSignal :: _ => hooks ++ [js "noticed your " ++ devSignal]
               | [] => hooks
               end in
  let hooks := if jseqb pricingModel (js "per_seat") || jseqb pricingModel (js "per_workspace")
               then hooks ++ [js "per-seat pricing suggests team collaboration focus"]
               else hooks in
  let hooks := if f_api fl && f_webhook fl
               then hooks ++ [js "API-first with webhook support"] else hooks in
  let hooks := match sig_team signals with
               | t :: _ => hooks ++ [t ++ js " for teams"]
               | [] => hooks
               end in
  let hooks := match hooks with
               | [] => [js "interesting SaaS product"]
               | _ => hooks
               end in
  join (js ", ") (firstn 2 hooks).


Section Resolve.
Variable X : Externals.

(** [resolveGitHubRepo]: the first outbound link that parses and whose
    parsed host is none of the excluded ones. *)
Definition resolveGitHubRepo (html repoUrl : jsstring) : option jsstring :=
  let links := dom_a_http (cheerio_load X html) in
  find (fun link =>
          match newURL X link with
          | None => false
          | Some url =>
              let regDomain := pr_hostname (parseDomain X (url_hostname url)) in
              let same s := match regDomain with
                          | Some r => jseqb r (js s)
                          | None => false
                          end in
              negb (same "github.com") && negb (same "twitter.com")
              && negb (same "linkedin.com")
              && negb (startsWith (url_hostname url) (js "www.google."))
          end) links.
End Resolve.

(** ** Leads and the two tables *)

Record Lead : Type := {
  discovered_at : jsstring;
  source : jsstring;
  source_url : jsstring;
  canonical : jsstring;
  title : jsstring;
  value_prop : jsstring;
  status : Z;
  weighted_score : Q;
  has_pricing : bool;
  has_docs : bool;
  has_signup : bool;
  has_changelog : bool;
  has_api : bool;
  has_webhook : bool;
  has_cli : bool;
  has_sdk : bool;
  team_cue : jsstring;
  pricing_model : jsstring;
  has_careers : bool;
  team_size_estimate : jsstring;
  freshness_score : Z;
  launch_context : jsstring;
  emails : jsstring;
  email_confidence : jsstring;
  contact_channels : jsstring;
  personalization_seed : jsstring;
  filter_reason : jsstring
}.

Definition set_filter_reason (reason : jsstring) (l : Lead) : Lead :=
  {| discovered_at := discovered_at l; source := source l; source_url := source_url l;
     canonical := canonical l; title := title l; value_prop := value_prop l;
     status := status l; weighted_score := weighted_score l;
     has_pricing := has_pricing l; has_docs := has_docs l; has_signup := has_signup l;
     has_changelog := has_changelog l; has_api := has_api l; has_webhook := has_webhook l;
     has_cli := has_cli l; has_sdk := has_sdk l; team_cue := team_cue l;
     pricing_model := pricing_model l; has_careers := has_careers l;
     team_size_estimate := team_size_estimate l; freshness_score := freshness_score l;
     launch_context := launch_context l; emails := emails l;
     email_confidence := email_confidence l; contact_channels := contact_channels l;
     personalization_seed := personalization_seed l; filter_reason := reason |}.

(** A score as JavaScript prints it.  Scores are whole numbers of halves:
    every weight is, and so is the builder penalty. *)
Definition score_to_js (q : Q) : jsstring :=
  let h := Qfloor (q * 2) in
  let a := Z.abs h in
  (if (h <? 0)%Z then js "-" else [])
  ++ N_to_js (Z.to_N (a / 2))
  ++ (if Z.odd a then js ".5" else []).

Definition bit (b : bool) : jsstring := if b then js "1" else js "0".

Definition columns : list jsstring :=
  map js [ "discovered_at"; "source"; "source_url"; "canonical"; "title"; "value_prop";
           "status"; "weighted_score"; "has_pricing"; "has_docs"; "has_signup";
           "has_changelog"; "has_api"; "has_webhook"; "has_cli"; "has_sdk"; "team_cue";
           "pricing_model"; "has_careers"; "team_size_estimate"; "freshness_score";
           "launch_context"; "emails"; "email_confidence"; "contact_channels";
           "personalization_seed"; "filter_reason" ].

(** The cells of a lead, in the order of its keys. *)
Definition lead_row (l : Lead) : list jsstring :=
  [ discovered_at l; source l; source_url l; canonical l; title l; value_prop l;
    Z_to_js (status l); score_to_js (weighted_score l);
    bit (has_pricing l); bit (has_docs l); bit (has_signup l); bit (has_changelog l);
    bit (has_api l); bit (has_webhook l); bit (has_cli l); bit (has_sdk l);
    team_cue l; pricing_model l; bit (has_careers l); team_size_estimate l;
    Z_to_js (freshness_score l); launch_context l; emails l; email_confidence l;
    contact_channels l; personalization_seed l; filter_reason l ].

(** The formatter of @fast-csv/format with its defaults (delimiter a
    comma, quote and escape the double quote, row delimiter a line feed):
    NUL units are dropped; a cell holding a double quote is quoted with
    its quotes doubled; a cell holding a unit of the class the library
    builds from the delimiter, the row delimiter and [|\r|\n] is quoted. *)
Definition csv_cell (cell : jsstring) : jsstring :=
  let prepared := filter (fun c => negb (c =? 0)%N) cell in
  if existsb (N.eqb 34) prepared then
    [34%N] ++ flat_map (fun c => if (c =? 34)%N then [34; 34]%N else [c]) prepared ++ [34%N]
  else if existsb (fun c => (c =? 44) || (c =? 10) || (c =? 13) || (c =? 124))%N prepared then
    [34%N] ++ prepared ++ [34%N]
  else prepared.

Definition csv_line (cells : list jsstring) : jsstring :=
  join (js ",") (map csv_cell cells).

(** What a [format({ headers: true })] stream emits for the rows written
    to it: nothing without rows, else the header line and one line per
    row, a line feed between lines and none at the end. *)
Definition csv_emit (rows : list (list jsstring)) : jsstring :=
  match rows with
  | [] => []
  | _ => join [10%N] (map csv_line (columns :: rows))
  end.

(** ** Prior state: the dedup index *)

(** A JavaScript [Map], in insertion order. *)
Fixpoint map_set (k v : jsstring) (m : list (jsstring * jsstring)) : list (jsstring * jsstring) :=
  match m with
  | [] => [(k, v)]
  | (k', v') :: rest => if jseqb k' k then (k, v) :: rest else (k', v') :: map_set k v rest
  end.

Definition map_get (k : jsstring) (m : list (jsstring * jsstring)) : option jsstring :=
  match find (fun kv => jseqb (fst kv) k) m with
  | Some kv => Some (snd kv)
  | None => None
  end.

Definition map_has (k : jsstring) (m : list (jsstring * jsstring)) : bool :=
  existsb (fun kv => jseqb (fst kv) k) m.

Section Load.
Variable X : Externals.

(** One line of leads.csv in the loop that fills [existingLeads]. *)
Definition load_line (m : list (jsstring * jsstring)) (raw : jsstring)
  : list (jsstring * jsstring) :=
  let line := trim raw in
  if negb (truthy line) then m
  else
    let parts := split_unit 44 line in
    if (2 <? length parts)%nat then
      match nth_error parts 3 with
      | Some canonical =>
          if truthy canonical then
            match newURL X (nth 2 parts []) with
            | Some url =>
                if negb (shouldSkip X (url_hostname url)) then map_set canonical line m
                else m
            | None => map_set canonical line m
            end
          else m
      | None => m
      end
    else m.

(** [existingLeads] after the load; [None] is a missing leads.csv. *)
Definition loadExisting (leads_csv : option jsstring) : list (jsstring * jsstring) :=
  match leads_csv with
  | None => []
  | Some text => fold_left load_line (tl (split_unit 10 text)) []
  end.

(** The URL set and the source map after the input files are read. *)
Definition add_url (source : jsstring) (acc : list jsstring * list (jsstring * jsstring))
           (l : jsstring) : list jsstring * list (jsstring * jsstring) :=
  let u := trim l in
  if negb (truthy u) then acc
  else match newURL X u with
       | None => acc
       | Some _ =>
           ((if has (fst acc) u then fst acc else fst acc ++ [u]),
            map_set u source (snd acc))
       end.

Definition source_of_file (file : jsstring) : jsstring :=
  replace_first (js ".txt") [] (replace_first (js "_urls.txt") [] file).

Definition loadUrls (inputs : list (jsstring * option jsstring))
  : list jsstring * list (jsstring * jsstring) :=
  fold_left (fun acc input =>
               match snd input with
               | None => acc
               | Some text =>
                   fold_left (add_url (source_of_file (fst input))) (split_unit 10 text) acc
               end) inputs ([], []).
End Load.

(** The row written back for a line of [existingLeads], when it has at
    least 13 parts. *)
Definition existing_row (canonical line : jsstring) : option (list jsstring) :=
  let parts := split_unit 44 line in
  if (13 <=? length parts)%nat then
    let part i := nth i parts [] in
    Some [ part 0%nat; or_else (part 1%nat) (js "legacy"); part 2%nat;
           or_else (part 3%nat) canonical; part 4%nat; part 5%nat;
           or_else (part 6%nat) (js "0"); or_else (part 7%nat) (js "0");
           or_else (part 8%nat) (js "0"); or_else (part 9%nat) (js "0");
           or_else (part 10%nat) (js "0"); or_else (part 11%nat) (js "0");
           or_else (part 12%nat) (js "0"); or_else (part 13%nat) (js "0");
           or_else (part 14%nat) (js "0"); or_else (part 15%nat) (js "0");
           part 16%nat; part 17%nat; or_else (part 18%nat) (js "0");
           or_else (part 19%nat) (js "unknown"); or_else (part 20%nat) (js "0");
           part 21%nat; part 22%nat; or_else (part 23%nat) (js "none");
           part 24%nat; part 25%nat; [] ]
  else None.

(** ** Run statistics *)

Record Stats : Type := {
  processed : nat;
  skipped : nat;
  filtered_aggregator : nat;
  filtered_builder : nat;
  filtered_below_threshold : nat;
  filtered_no_dev_signal : nat;
  filtered_no_team_cue : nat;
  filtered_other : nat;
  sources : list (jsstring * nat)
}.

Definition stats0 : Stats :=
  {| processed := 0; skipped := 0; filtered_aggregator := 0; filtered_builder := 0;
     filtered_below_threshold := 0; filtered_no_dev_signal := 0;
     filtered_no_team_cue := 0; filtered_other := 0; sources := [] |}.

Fixpoint bump (k : jsstring) (m : list (jsstring * nat)) : list (jsstring * nat) :=
  match m with
  | [] => [(k, 1%nat)]
  | (k', n) :: rest => if jseqb k' k then (k, S n) :: rest else (k', n) :: bump k rest
  end.

Definition count_source (source : jsstring) (s : Stats) : Stats :=
  {| processed := processed s; skipped := skipped s;
     filtered_aggregator := filtered_aggregator s; filtered_builder := filtered_builder s;
     filtered_below_threshold := filtered_below_threshold s;
     filtered_no_dev_signal := filtered_no_dev_signal s;
     filtered_no_team_cue := filtered_no_team_cue s; filtered_other := filtered_other s;
     sources := bump source (sources s) |}.

Definition count_processed (s : Stats) : Stats :=
  {| processed := S (processed s); skipped := skipped s;
     filtered_aggregator := filtered_aggregator s; filtered_builder := filtered_builder s;
     filtered_below_threshold := filtered_below_threshold s;
     filtered_no_dev_signal := filtered_no_dev_signal s;
     filtered_no_team_cue := filtered_no_team_cue s; filtered_other := filtered_other s;
     sources := sources s |}.

Definition count_skipped (s : Stats) : Stats :=
  {| processed := processed s; skipped := S (skipped s);
     filtered_aggregator := filtered_aggregator s; filtered_builder := filtered_builder s;
     filtered_below_threshold := filtered_below_threshold s;
     filtered_no_dev_signal := filtered_no_dev_signal s;
     filtered_no_team_cue := filtered_no_team_cue s; filtered_other := filtered_other s;
     sources := sources s |}.

(** [stats.filtered[reason]++], for the reasons that are keys of
    [stats.filtered]; another reason would add a key of its own and
    leaves these counters as they are. *)
Definition count_filtered (reason : jsstring) (s : Stats) : Stats :=
  let inc name n := if jseqb reason (js name) then S n else n in
  {| processed := processed s; skipped := skipped s;
     filtered_aggregator := inc "aggregator" (filtered_aggregator s);
     filtered_builder := inc "builder" (filtered_builder s);
     filtered_below_threshold := inc "below_threshold" (filtered_below_threshold s);
     filtered_no_dev_signal := inc "no_dev_signal" (filtered_no_dev_signal s);
     filtered_no_team_cue := inc "no_team_cue" (filtered_no_team_cue s);
     filtered_other := inc "other" (filtered_other s);
     sources := sources s |}.


(** ** Enrichment orchestrator *)

Record State : Type := {
  world : World;
  urls : list jsstring;                       (* the Set, in insertion order *)
  sourceMap : list (jsstring * jsstring);
  newLeads : list Lead;
  filteredLeads : list Lead;
  stats : Stats
}.

Definition with_world (w : World) (st : State) : State :=
  {| world := w; urls := urls st; sourceMap := sourceMap st; newLeads := newLeads st;
     filteredLeads := filteredLeads st; stats := stats st |}.

Definition with_stats (s : Stats) (st : State) : State :=
  {| world := world st; urls := urls st; sourceMap := sourceMap st; newLeads := newLeads st;
     filteredLeads := filteredLeads st; stats := s |}.

Definition push_new (l : Lead) (st : State) : State :=
  {| world := world st; urls := urls st; sourceMap := sourceMap st;
     newLeads := newLeads st ++ [l]; filteredLeads := filteredLeads st; stats := stats st |}.

Definition push_filtered (l : Lead) (st : State) : State :=
  {| world := world st; urls := urls st; sourceMap := sourceMap st; newLeads := newLeads st;
     filteredLeads := filteredLeads st ++ [l]; stats := stats st |}.

(** [urls.add(u); sourceMap.set(u, source)]. *)
Definition enqueue (u source : jsstring) (st : State) : State :=
  {| world := world st;
     urls := if has (urls st) u then urls st else urls st ++ [u];
     sourceMap := map_set u source (sourceMap st);
     newLeads := newLeads st; filteredLeads := filteredLeads st; stats := stats st |}.

Definition probes : list jsstring :=
  map js [ "/pricing"; "/docs"; "/documentation"; "/api"; "/changelog"; "/contact";
           "/about"; "/team"; "/careers"; "/legal"; "/privacy" ].

Definition ok_status (s : Z) : bool := ((200 <=? s) && (s <? 400))%Z.

(** How an iteration of the main loop ends. *)
Inductive Run (A : Type) : Type :=
| Finished (a : A)
| Threw
| OutOfFuel.
Arguments Finished {A} a.
Arguments Threw {A}.
Arguments OutOfFuel {A}.

Section Orchestrator.
Variable X : Externals.
Variable existingLeads : list (jsstring * jsstring).

(** One turn of the probe loop. *)
Definition probe (home : jsstring) (acc : jsstring * World) (probePath : jsstring)
  : jsstring * World :=
  let '(extraHtml, w) := acc in
  match newURL_base X probePath home with
  | None => acc
  | Some target =>
      let '(r, w1) := fetchHtml X (url_href target) 5000 true w in
      let extraHtml' :=
        if ok_status (fr_status r) then extraHtml ++ slice0 100000 (fr_html r)
        else extraHtml in
      (extraHtml', if negb (fr_cached r) then sleep 200 w1 else w1)
  end.

(** The lead built for a candidate whose page was fetched, and the
    scorer's verdict.  [now] is the clock when the probes are done: no
    time passes between the reads of the clock from there on. *)
Definition enrich (u src canon hostname : jsstring) (first page : FetchResult)
           (extraHtml : jsstring) (now : Z) : Lead * Scoring :=
  let dom := cheerio_load X (fr_html page) in
  let title := slice0 200 (trim (or_else (dom_title dom) [])) in
  let mail := extractEmails (fr_html page) in
  let allHtml := fr_html page ++ extraHtml in
  let scoring := scoreContent allHtml title u in
  let allEmails := dedupe (mail ++ extractEmails extraHtml) in
  let emailConfidence := getEmailConfidence allEmails in
  let valueProp := extractValueProp dom in
  let teamSignals := detectTeamSignals dom allHtml in
  let contactChannels := extractContactChannels dom allHtml in
  let freshness := calculateFreshness now now allHtml title u in
  let personalizationSeed :=
    generatePersonalizationSeed (detectedSignals scoring) (flags scoring)
                                (pricingModel scoring) (snd freshness) in
  let builderPenalty := if isBuilder X hostname then (-5)%Q else 0%Q in
  let finalScore := (weightedScore scoring + builderPenalty)%Q in
  ({| discovered_at := toISOString now;
      source := src;
      source_url := u;
      canonical := canon;
      title := title;
      value_prop := valueProp;
      status := fr_status first;
      weighted_score := finalScore;
      has_pricing := f_pricing (flags scoring);
      has_docs := f_docs (flags scoring);
      has_signup := f_signup (flags scoring);
      has_changelog := f_changelog (flags scoring);
      has_api := f_api (flags scoring);
      has_webhook := f_webhook (flags scoring);
      has_cli := f_cli (flags scoring);
      has_sdk := f_sdk (flags scoring);
      team_cue := teamCue scoring;
      pricing_model := pricingModel scoring;
      has_careers := fst teamSignals;
      team_size_estimate := snd teamSignals;
      freshness_score := fst freshness;
      launch_context := snd freshness;
      emails := join (js " | ") (firstn 5 allEmails);
      email_confidence := emailConfidence;
      contact_channels := contactChannels;
      personalization_seed := personalizationSeed;
      filter_reason := [] |}, scoring).

(** The routing at the end of the loop body. *)
Definition route (hostname : jsstring) (lead : Lead) (scoring : Scoring) (st : State)
  : State :=
  if isBuilder X hostname && Qlt_bool (weighted_score lead) (minimum_score THRESHOLDS) then
    push_filtered (set_filter_reason (js "builder_platform") lead)
                  (with_stats (count_filtered (js "builder") (stats st)) st)
  else if negb (passed scoring) then
    push_filtered (set_filter_reason (filterReason scoring) lead)
                  (with_stats (count_filtered (filterReason scoring) (stats st)) st)
  else
    with_stats (count_processed (stats st)) (push_new lead st).

(** The body of [for (const u of urls)]; [None] is an uncaught
    exception ([new URL(u)] throwing). *)
Definition step (u : jsstring) (st : State) : option State :=
  match newURL X u with
  | None => None
  | Some urlObj =>
      let hostname := url_hostname urlObj in
      let src := opt_or (map_get u (sourceMap st)) (js "unknown") in
      let st := with_stats (count_source src (stats st)) st in
      if shouldSkip X hostname then
        Some (with_stats (count_filtered (js "aggregator") (stats st)) st)
      else
        let canon := getCanonical X hostname in
        let regDomain := opt_or (pr_hostname (parseDomain X hostname)) hostname in
        if map_has canon existingLeads then
          Some (with_stats (count_skipped (stats st)) st)
        else if jseqb regDomain (js "github.com") && negb (shouldSkip X hostname) then
          let '(first, w) := fetchHtml X u 7000 false (world st) in
          let st := with_world w st in
          if negb (truthy (fr_html first)) then Some st
          else
            let st := match resolveGitHubRepo X (fr_html first) u with
                      | Some externalUrl => enqueue externalUrl src st
                      | None => st
                      end in
            Some (with_stats (count_filtered (js "aggregator") (stats st)) st)
        else
          let home := js "https://" ++ canon in
          let '(first, w1) := fetchHtml X u 7000 false (world st) in
          let '(page, w2) :=
            if truthy (fr_html first) then (first, w1) else fetchHtml X home 7000 false w1 in
          if negb (truthy (fr_html page)) then Some (with_world w2 st)
          else
            let '(extraHtml, w3) := fold_left (probe home) probes ([], w2) in
            let '(lead, scoring) :=
              enrich u src canon hostname first page extraHtml (clock w3) in
            Some (route hostname lead scoring (with_world w3 st))
  end.

(** The loop: the set is walked in insertion order, members added on
    the way included. *)
Fixpoint loop (fuel : nat) (i : nat) (st : State) : Run State :=
  match nth_error (urls st) i with
  | None => Finished st
  | Some u =>
      match fuel with
      | O => OutOfFuel
      | S fuel' =>
          match step u st with
          | None => Threw
          | Some st' => loop fuel' (S i) st'
          end
      end
  end.
End Orchestrator.

(** What a run leaves behind. *)
Record RunResult : Type := {
  kept : list Lead;
  dropped : list Lead;
  run_stats : Stats;
  leads_out : jsstring;          (* standard output: the kept table *)
  filtered_out : jsstring;       (* leads_filtered.csv *)
  end_world : World
}.

(** A whole run of enrich_urls.mjs: [leads_csv] is leads.csv as found
    ([None] when there is none), [inputs] the files named on the command
    line with their contents ([None] for a missing file). *)
Definition run (X : Externals) (fuel : nat) (leads_csv : option jsstring)
           (inputs : list (jsstring * option jsstring)) (w : World) : Run RunResult :=
  let existingLeads := loadExisting X leads_csv in
  let '(urls0, sourceMap0) := loadUrls X inputs in
  match loop X existingLeads fuel 0
             {| world := w; urls := urls0; sourceMap := sourceMap0; newLeads := [];
                filteredLeads := []; stats := stats0 |} with
  | Finished st =>
      let old_rows :=
        flat_map (fun kv => match existing_row (fst kv) (snd kv) with
                            | Some row => [row]
                            | None => []
                            end) existingLeads in
      Finished {| kept := newLeads st;
                  dropped := filteredLeads st;
                  run_stats := stats st;
                  leads_out := csv_emit (old_rows ++ map lead_row (newLeads st));
                  filtered_out := csv_emit (map lead_row (filteredLeads st));
                  end_world := world st |}
  | Threw => Threw
  | OutOfFuel => OutOfFuel
  end.


(** ** A reference environment

    Small instances of the libraries, for running the pipeline on worked
    examples.  Each covers the plain inputs of the examples and no more. *)

Module Ref.

(** tldts with a cut-down suffix list: the public suffix is one of the
    two-label suffixes below when the host name ends in it, else the
    last label; the registrable domain is the suffix and one more label.
    A host name with an empty label yields nothing. *)
Definition two_label_suffixes : list (list jsstring) :=
  map (map js) [ ["co"; "uk"]; ["org"; "uk"]; ["com"; "au"]; ["co"; "jp"] ].

Definition labels_eqb (a b : list jsstring) : bool :=
  if list_eq_dec (list_eq_dec N.eq_dec) a b then true else false.

Definition dotted (ls : list jsstring) : jsstring := join (js ".") ls.

Definition last_n (n : nat) (ls : list jsstring) : list jsstring :=
  skipn (length ls - n) ls.

Definition parse (hostname : jsstring) : ParseResult :=
  let ls := split_unit 46 hostname in
  if existsb (fun l => negb (truthy l)) ls then
    {| pr_hostname := None; pr_domain := None; pr_publicSuffix := None;
       pr_subdomain := None |}
  else
    let n := if existsb (labels_eqb (last_n 2 ls)) two_label_suffixes then 2 else 1 in
    {| pr_hostname := Some hostname;
       pr_publicSuffix := Some (dotted (last_n n ls));
       pr_domain := if (n <? length ls)%nat then Some (dotted (last_n (S n) ls)) else None;
       pr_subdomain := if (n <? length ls)%nat
                       then Some (dotted (firstn (length ls - S n) ls)) else None |}.

(** The URL parser on [http://host/path?query] and [https://...]: the
    host is lower-cased, an empty path is [/]. *)
Definition is_delim (c : N) : bool := ((c =? 47) || (c =? 63) || (c =? 35))%N.

Fixpoint span (stop : N -> bool) (s : jsstring) : jsstring * jsstring :=
  match s with
  | [] => ([], [])
  | c :: s' => if stop c then ([], s)
               else let '(a, b) := span stop s' in (c :: a, b)
  end.

Definition url_after (scheme rest : jsstring) : option Url :=
  let '(host, tail) := span is_delim rest in
  let '(path, query) := span (fun c => (c =? 63) || (c =? 35))%N tail in
  let pathname := if truthy path then path else js "/" in
  if truthy host then
    Some {| url_hostname := toLowerCase host;
            url_pathname := pathname;
            url_href := scheme ++ toLowerCase host ++ pathname ++ query |}
  else None.

Definition url (u : jsstring) : option Url :=
  if startsWith u (js "https://") then url_after (js "https://") (skipn 8 u)
  else if startsWith u (js "http://") then url_after (js "http://") (skipn 7 u)
  else None.

(** [new URL(path, base)] for an absolute path. *)
Definition url_base (path base : jsstring) : option Url :=
  match url base with
  | Some b =>
      let scheme := if startsWith base (js "https://") then js "https://" else js "http://" in
      url (scheme ++ url_hostname b ++ path)
  | None => None
  end.

(** The document of a body without markup: no selector matches. *)
Definition plain_dom (html : jsstring) : Dom :=
  {| dom_title := []; dom_h1 := []; dom_meta_description := None;
     dom_og_description := None; dom_p := []; dom_img_alt_team := 0;
     dom_div_team_img := 0; dom_form_contact := 0; dom_a_contact := [];
     dom_a_discord := None; dom_a_slack := None; dom_a_calendly := None;
     dom_a_http := [] |}.

(** A network that serves one body for every page of the listed hosts,
    10 ms after the request, and fails for any other. *)
Definition serve (sites : list (jsstring * jsstring)) (now : Z) (u : jsstring) : Reply :=
  match url u with
  | Some x =>
      match map_get (url_hostname x) sites with
      | Some body => {| latency := 10; outcome := Responded 200 body |}
      | None => {| latency := 10; outcome := Rejected NetworkError |}
      end
  | None => {| latency := 10; outcome := Rejected NetworkError |}
  end.

Definition env (sites : list (jsstring * jsstring)) : Externals :=
  {| parseDomain := parse; newURL := url; newURL_base := url_base;
     cheerio_load := plain_dom; network := serve sites |}.

(** A clean start: 2023-11-14T22:13:20Z, an empty cache directory. *)
Definition world0 : World := {| clock := 1700000000000; files := [] |}.
End Ref.


(** ** Definitions for the statements

    What the scorer's contract says, in its own terms, to be compared
    with what the loop of [scoreContent] computes. *)

(** An ASCII capital letter. *)
Definition is_capital (c : N) : bool := ((65 <=? c) && (c <=? 90))%N.

(** The token stands at the head of [s], unit for unit, and no word
    character follows it. *)
Fixpoint occurs_here (token s : jsstring) : bool :=
  match token, s with
  | [], [] => true
  | [], x :: _ => negb (is_word x)
  | c :: token', x :: s' => N.eqb c x && occurs_here token' s'
  | _ :: _, [] => false
  end.

(** The token stands somewhere in [s] as a whole word or phrase;
    [after_word] tells whether a word character precedes [s]. *)
Fixpoint occurs_whole (token : jsstring) (after_word : bool) (s : jsstring) : bool :=
  (negb after_word && occurs_here token s)
  || match s with
     | [] => false
     | x :: s' => occurs_whole token (is_word x) s'
     end.

(** The token matches the text as a whole word or phrase, the case of
    letters apart: the two are compared in lower case. *)
Definition matches_whole_word (token text : jsstring) : bool :=
  occurs_whole (toLowerCase token) false (toLowerCase text).

(** The sum of the weights of the tokens that match, one summand for each
    entry of the table. *)
Definition spec_score (weights : list (jsstring * Q)) (text : jsstring) : Q :=
  fold_right (fun tw acc => (snd tw + acc)%Q) 0%Q
             (filter (fun tw => matches_whole_word (fst tw) text) weights).

(** A token of plain ASCII that begins and ends with a word character. *)
Definition token_ok (token : jsstring) : bool :=
  match token with
  | [] => false
  | c :: _ => is_word c && is_word (last token c) && forallb (fun x => (x <? 128)%N) token
  end.

(** No string occurs twice. *)
Fixpoint distinct (l : list jsstring) : bool :=
  match l with
  | [] => true
  | x :: rest => negb (existsb (jseqb x) rest) && distinct rest
  end.

(** What matching a literal amounts to: the units consumed one by one. *)
Fixpoint lit_run (icase : bool) (token : jsstring) (prev : option N) (s : jsstring)
  : option (option N * jsstring) :=
  match token with
  | [] => Some (prev, s)
  | c :: token' =>
      match s with
      | x :: s' => if unit_eq icase c x then lit_run icase token' (Some x) s' else None
      | [] => None
      end
  end.

(** The counters that record a candidate as dropped. *)
Definition drops (s : Stats) : nat :=
  skipped s + filtered_aggregator s + filtered_builder s + filtered_below_threshold s
  + filtered_no_dev_signal s + filtered_no_team_cue s + filtered_other s.

(** A request that does not deliver a body: the reply comes too late, or
    the fetch rejects. *)
Definition request_fails (X : Externals) (timeoutMs : Z) (u : jsstring) (w : World) : Prop :=
  (timeoutMs <= latency (network X (clock w) u))%Z
  \/ exists why, outcome (network X (clock w) u) = Rejected why.

Definition failed_fetch : FetchResult :=
  {| fr_status := 0; fr_html := []; fr_cached := false |}.

(** A document with one of the candidate values taken away. *)
Definition without_h1 (d : Dom) : Dom :=
  {| dom_title := dom_title d; dom_h1 := [];
     dom_meta_description := dom_meta_description d;
     dom_og_description := dom_og_description d; dom_p := dom_p d;
     dom_img_alt_team := dom_img_alt_team d; dom_div_team_img := dom_div_team_img d;
     dom_form_contact := dom_form_contact d; dom_a_contact := dom_a_contact d;
     dom_a_discord := dom_a_discord d; dom_a_slack := dom_a_slack d;
     dom_a_calendly := dom_a_calendly d; dom_a_http := dom_a_http d |}.

Definition without_meta_description (d : Dom) : Dom :=
  {| dom_title := dom_title d; dom_h1 := dom_h1 d;
     dom_meta_description := None;
     dom_og_description := dom_og_description d; dom_p := dom_p d;
     dom_img_alt_team := dom_img_alt_team d; dom_div_team_img := dom_div_team_img d;
     dom_form_contact := dom_form_contact d; dom_a_contact := dom_a_contact d;
     dom_a_discord := dom_a_discord d; dom_a_slack := dom_a_slack d;
     dom_a_calendly := dom_a_calendly d; dom_a_http := dom_a_http d |}.

Definition without_og_description (d : Dom) : Dom :=
  {| dom_title := dom_title d; dom_h1 := dom_h1 d;
     dom_meta_description := dom_meta_description d;
     dom_og_description := None; dom_p := dom_p d;
     dom_img_alt_team := dom_img_alt_team d; dom_div_team_img := dom_div_team_img d;
     dom_form_contact := dom_form_contact d; dom_a_contact := dom_a_contact d;
     dom_a_discord := dom_a_discord d; dom_a_slack := dom_a_slack d;
     dom_a_calendly := dom_a_calendly d; dom_a_http := dom_a_http d |}.

(** ** Worked examples *)

Module Examples.

(** A page whose only candidate value is a short og:description. *)
Definition short_og_page : Dom :=
  {| dom_title := []; dom_h1 := []; dom_meta_description := None;
     dom_og_description := Some (js "Hi there"); dom_p := [];
     dom_img_alt_team := 0; dom_div_team_img := 0; dom_form_contact := 0;
     dom_a_contact := []; dom_a_discord := None; dom_a_slack := None;
     dom_a_calendly := None; dom_a_http := [] |}.

(** A page with a short h1, a short og:description and two paragraphs. *)
Definition short_h1_page : Dom :=
  {| dom_title := js "Acme"; dom_h1 := js "  Acme  "; dom_meta_description := None;
     dom_og_description := Some (js "Hi there");
     dom_p := [js "Too short."; js "  Deploy previews for every pull request.  "];
     dom_img_alt_team := 0; dom_div_team_img := 0; dom_form_contact := 0;
     dom_a_contact := []; dom_a_discord := None; dom_a_slack := None;
     dom_a_calendly := None; dom_a_http := [] |}.

(** One site that answers every request with the same body. *)
Definition acme : Externals :=
  Ref.env [(js "acme.dev", js "Acme: an API and CLI for teams. Pricing per seat.")].

(** A site of which the home page answers and, of the pages probed,
    /docs alone; every other request fails.  Its documents have a title
    and a heading. *)
Definition home_and_docs : Externals :=
  {| parseDomain := Ref.parse; newURL := Ref.url; newURL_base := Ref.url_base;
     cheerio_load :=
       fun _ =>
         {| dom_title := js " Acme "; dom_h1 := js "An API for teams, with SSO";
            dom_meta_description := None; dom_og_description := None; dom_p := [];
            dom_img_alt_team := 0; dom_div_team_img := 0; dom_form_contact := 0;
            dom_a_contact := []; dom_a_discord := None; dom_a_slack := None;
            dom_a_calendly := None; dom_a_http := [] |};
     network :=
       fun _ u =>
         if jseqb u (js "https://acme.dev")
         then {| latency := 10;
                 outcome := Responded 200 (js "An API for teams, with SSO. Write to hello@acme.dev.") |}
         else if jseqb u (js "https://acme.dev/docs")
         then {| latency := 10; outcome := Responded 200 (js " Docs for the SDK.") |}
         else {| latency := 10; outcome := Rejected NetworkError |} |}.

Definition launch_page : jsstring := js "https://acme.dev/launch".

(** Nothing answers. *)
Definition offline : Externals := Ref.env [].

(** 2023-12-31T23:59:58.990Z, an empty cache directory: a probe sent
    now is cached ten milliseconds later, one second before midnight. *)
Definition before_midnight : World := {| clock := 1704067198990; files := [] |}.

Definition pricing_page : jsstring := js "https://acme.dev/pricing".

(** The world after the probe, half a second later, and two seconds
    later. *)
Definition after_probe : World :=
  snd (fetchHtml acme pricing_page 5000 true before_midnight).

Definition same_evening : World := sleep 500 after_probe.

Definition after_midnight : World := sleep 2000 after_probe.

(** Input lists: one URL with a comma in its query, one without. *)
Definition comma_input : list (jsstring * option jsstring) :=
  [(js "showhn_urls.txt", Some (js "https://acme.dev/?ref=a,b"))].

Definition plain_input : list (jsstring * option jsstring) :=
  [(js "showhn_urls.txt", Some (js "https://acme.dev/"))].

(** The identities of the leads a run keeps. *)
Definition kept_identities (r : Run RunResult) : option (list jsstring) :=
  match r with
  | Finished x => Some (map canonical (kept x))
  | _ => None
  end.

(** A first run from no store at all, then a second run on the store
    the first one wrote, with the same input lists and the same
    network. *)
Definition first_run (inputs : list (jsstring * option jsstring)) : Run RunResult :=
  run acme 10 None inputs Ref.world0.

Definition second_run (inputs : list (jsstring * option jsstring)) : Run RunResult :=
  match first_run inputs with
  | Finished r => run acme 10 (Some (leads_out r)) inputs (end_world r)
  | Threw => Threw
  | OutOfFuel => OutOfFuel
  end.

(** The keys of the dedup index the second run builds from that
    store. *)
Definition second_run_index (inputs : list (jsstring * option jsstring))
  : option (list jsstring) :=
  match first_run inputs with
  | Finished r => Some (map fst (loadExisting acme (Some (leads_out r))))
  | _ => None
  end.

(** The state of a run that has loaded one candidate and no prior
    leads. *)
Definition start (u : jsstring) : State :=
  {| world := Ref.world0; urls := [u]; sourceMap := [(u, js "showhn")];
     newLeads := []; filteredLeads := []; stats := stats0 |}.
End Examples.


(** ** Invariants of a run *)

Definition filter_reasons : list jsstring :=
  map js ["builder_platform"; "below_threshold"; "no_dev_signal"; "no_team_cue"].

(** A lead of the kept table: no filter reason, and a score that meets
    the minimum. *)
Definition kept_ok (l : Lead) : Prop :=
  filter_reason l = [] /\ (minimum_score THRESHOLDS <= weighted_score l)%Q.

(** A lead of the filtered table carries one of the four reasons. *)
Definition filtered_ok (l : Lead) : Prop := In (filter_reason l) filter_reasons.

(** The counters agree with the two tables. *)
Definition consistent (st : State) : Prop :=
  processed (stats st) = length (newLeads st)
  /\ filtered_builder (stats st) + filtered_below_threshold (stats st)
     + filtered_no_dev_signal (stats st) + filtered_no_team_cue (stats st)
     = length (filteredLeads st)
  /\ Forall kept_ok (newLeads st)
  /\ Forall filtered_ok (filteredLeads st).

(** Every queued URL parses and has a source. *)
Definition queue_ok (X : Externals) (urls : list jsstring)
           (sourceMap : list (jsstring * jsstring)) : Prop :=
  NoDup urls
  /\ Forall (fun u => newURL X u <> None /\ map_has u sourceMap = true) urls.

(** The state the loop starts from. *)
Definition start_state (X : Externals) (inputs : list (jsstring * option jsstring))
           (w : World) : State :=
  {| world := w; urls := fst (loadUrls X inputs); sourceMap := snd (loadUrls X inputs);
     newLeads := []; filteredLeads := []; stats := stats0 |}.


(** ** Identity: the parser as a function that may throw *)




(** ** Leads *)

(** Two leads that differ at most in the filter reason. *)
Definition same_but_reason (a b : Lead) : Prop :=
  set_filter_reason [] a = set_filter_reason [] b.

(** ** Input files *)

(** The URL stands on a line of one of the input files that exist, and
    its tag in the source map is the source of that file. *)
Definition tagged_by_file (inputs : list (jsstring * option jsstring))
           (sourceMap : list (jsstring * jsstring)) (u : jsstring) : Prop :=
  exists file text,
    In (file, Some text) inputs
    /\ In u (map trim (split_unit 10 text))
    /\ map_get u sourceMap = Some (source_of_file file).

(** An input list read from a file named [_urls.txt]. *)
Definition untagged_input : list (jsstring * option jsstring) :=
  [(js "_urls.txt", Some (js "https://acme.dev/"))].

(** ** Ranking and blocking of addresses *)

(** No element stands behind one of lower score. *)
Definition descending (score : jsstring -> Z) : jsstring -> jsstring -> Prop :=
  fun a b => (score b <= score a)%Z.

(** Does an address hold one of the blocked patterns. *)
Definition blocked (e : jsstring) : bool :=
  existsb (fun b => includes (toLowerCase e) b || jseqb (toLowerCase e) b) bad_emails.


(** The addresses a page text holds: the matches of the address pattern
    in the decoded text, in the order of the text. *)
Definition addresses (text : jsstring) : list jsstring :=
  regex_match_all true email_regex (decodeHtmlEntities text).

(** Those of them that hold no blocked pattern, each once. *)
Definition usable_addresses (text : jsstring) : list jsstring :=
  dedupe (filter (fun e => negb (blocked e)) (addresses text)).

(** [a] stands somewhere before [b] in the list. *)
Definition ahead (a b : jsstring) (l : list jsstring) : Prop :=
  exists l1 l2 l3, l = l1 ++ a :: l2 ++ b :: l3.

Definition hello_acme : jsstring := js "hello@acme.com".
Definition support_acme : jsstring := js "support@acme.com".
Definition noreply_acme : jsstring := js "noreply@acme.com".

(** A page with the three addresses of the scenario, and one with five
    personal addresses besides. *)
Definition contact_page : jsstring :=
  js "Mail noreply@acme.com, support@acme.com or hello@acme.com.".

Definition crowded_page : jsstring :=
  js "noreply@acme.com hello@acme.com support@acme.com ann@acme.com bob@acme.com cyd@acme.com dee@acme.com eve@acme.com".


(** ** Plain cells *)

(** A cell the CSV formatter writes as it is: no NUL, double quote,
    comma, line feed, carriage return or vertical bar. *)
Definition special (x : N) : bool :=
  ((x =? 0) || (x =? 34) || (x =? 44) || (x =? 10) || (x =? 13) || (x =? 124))%N.

Definition plain (c : jsstring) : bool := forallb (fun x => negb (special x)) c.

(** A lead whose first four cells are plain, with a time stamp that does
    not begin with white space and a non-empty identity. *)
Definition plain_head (l : Lead) : Prop :=
  plain (discovered_at l) = true /\ plain (source l) = true
  /\ plain (source_url l) = true /\ plain (canonical l) = true
  /\ is_space (hd 32%N (discovered_at l)) = false
  /\ truthy (canonical l) = true.

(** What a regular expression that consumes exactly one unit does at a
    position: it matches there when the unit passes a test. *)
Definition one_unit (icase : bool) (r : regex) (P : N -> bool) : Prop :=
  forall (prev : option N) (s : jsstring),
    match_here icase r prev s
    = match s with
      | x :: _ => if P x then Some 1 else None
      | [] => None
      end.

(** ** Further worked examples *)

Module More.

(** A lead as the pipeline builds it for https://acme.dev/. *)
Definition acme_lead : Lead :=
  let page := {| fr_status := 200;
                 fr_html := js "Acme: an API and CLI for teams. Pricing per seat.";
                 fr_cached := false |} in
  fst (enrich Examples.acme (js "https://acme.dev/") (js "showhn") (js "acme.dev")
              (js "acme.dev") page page [] 1700000000000).

(** The store with that lead alone. *)
Definition acme_store : jsstring := csv_emit [lead_row acme_lead].

(** A repository link. *)
Definition repo_page : jsstring := js "https://github.com/acme/tool".

(** A page with a short h1 and a short meta description. *)
Definition short_meta_page : Dom :=
  {| dom_title := []; dom_h1 := js "Acme"; dom_meta_description := Some (js "Hello");
     dom_og_description := Some (js "Deploy previews for every pull request");
     dom_p := []; dom_img_alt_team := 0; dom_div_team_img := 0; dom_form_contact := 0;
     dom_a_contact := []; dom_a_discord := None; dom_a_slack := None;
     dom_a_calendly := None; dom_a_http := [] |}.

End More.

(** ** The date of a day *)

(** The date part of an ISO time stamp. *)
Definition date_string (y m d : Z) : jsstring :=
  (if ((0 <=? y) && (y <=? 9999))%Z then pad0 4 (Z.to_N y)
   else (if (y <? 0)%Z then js "-" else js "+") ++ pad0 6 (Z.to_N (Z.abs y)))
  ++ js "-" ++ pad0 2 (Z.to_N m) ++ js "-" ++ pad0 2 (Z.to_N d).

Definition date_of_day (day : Z) : jsstring :=
  let '(y, m, d) := civil_from_days day in date_string y m d.


(** * Properties *)

(** ** Identity resolver *)

Section IdentityFacts.
Variable X : Externals.

Lemma jseqb_eq (a b : jsstring) : jseqb a b = true <-> a = b.
Proof.
  unfold jseqb. destruct (list_eq_dec N.eq_dec a b); split; congruence.
Qed.

Lemma jseqb_refl (a : jsstring) : jseqb a a = true.
Proof. apply jseqb_eq. reflexivity. Qed.

(** A host name under a multi-tenant suffix is its own identity, so two
    different ones have different identities. *)
Lemma getCanonical_multi_tenant (hostname : jsstring) :
  existsb (fun suffix => endsWith hostname suffix) MULTI_TENANT_SUFFIXES = true ->
  getCanonical X hostname = hostname.
Proof.
  intros H. unfold getCanonical. rewrite H. reflexivity.
Qed.

(** Two different host names under multi-tenant suffixes have different
    identities. *)
Lemma getCanonical_multi_tenant_distinct (h1 h2 : jsstring) :
  existsb (fun suffix => endsWith h1 suffix) MULTI_TENANT_SUFFIXES = true ->
  existsb (fun suffix => endsWith h2 suffix) MULTI_TENANT_SUFFIXES = true ->
  h1 <> h2 ->
  getCanonical X h1 <> getCanonical X h2.
Proof.
  intros H1 H2 Hne. rewrite !getCanonical_multi_tenant by assumption. exact Hne.
Qed.


Lemma getCanonical_echo (hostname : jsstring) :
  pr_hostname (parseDomain X hostname) = Some hostname ->
  getCanonical X hostname = hostname.
Proof.
  intros H. unfold getCanonical. rewrite H. unfold opt_or, or_else.
  destruct (existsb _ MULTI_TENANT_SUFFIXES); [reflexivity |].
  destruct (truthy hostname); reflexivity.
Qed.
End IdentityFacts.

(** C1: the identity of an ordinary host name is meant to be its
    registrable domain, so that www.example.com and example.com share
    one.  The program reads the [hostname] field of the parse result,
    which for a host name is that host name: www.example.com keeps its
    subdomain and the two identities differ. *)
Theorem getCanonical_keeps_subdomain (X : Externals) :
  pr_hostname (parseDomain X (js "www.example.com")) = Some (js "www.example.com") ->
  pr_hostname (parseDomain X (js "example.com")) = Some (js "example.com") ->
  getCanonical X (js "www.example.com") = js "www.example.com"
  /\ getCanonical X (js "example.com") = js "example.com"
  /\ getCanonical X (js "www.example.com") <> getCanonical X (js "example.com").
Proof.
  intros Hw He.
  rewrite (getCanonical_echo X _ Hw), (getCanonical_echo X _ He).
  repeat split. intros H. discriminate H.
Qed.

Lemma getCanonical_keeps_subdomain_witness :
  pr_domain (Ref.parse (js "www.example.com")) = Some (js "example.com")
  /\ getCanonical (Ref.env []) (js "www.example.com") = js "www.example.com"
  /\ getCanonical (Ref.env []) (js "example.com") = js "example.com"
  /\ getCanonical (Ref.env []) (js "www.example.com")
     <> getCanonical (Ref.env []) (js "example.com").
Proof.
  split; [reflexivity |].
  apply (getCanonical_keeps_subdomain (Ref.env [])); reflexivity.
Defined.

(** The half of C1 that holds on the program, at the host names of the
    claim. *)
Example vercel_subdomains_stay_apart (X : Externals) :
  getCanonical X (js "a.vercel.app") = js "a.vercel.app"
  /\ getCanonical X (js "b.vercel.app") = js "b.vercel.app"
  /\ getCanonical X (js "myproject.github.io") = js "myproject.github.io".
Proof.
  repeat split; apply getCanonical_multi_tenant; reflexivity.
Qed.




Example getCanonical_localhost :
  pr_domain (Ref.parse (js "localhost")) = None
  /\ getCanonical (Ref.env []) (js "localhost") = js "localhost".
Proof. split; reflexivity. Qed.


(** ** Weighted scorer *)

(** *** Code units *)

Lemma below_forallb (P : N -> bool) (n : nat) :
  forallb P (map N.of_nat (seq 0 n)) = true ->
  forall x, (x < N.of_nat n)%N -> P x = true.
Proof.
  intros H x Hx. rewrite forallb_forall in H. apply H.
  apply in_map_iff. exists (N.to_nat x). split; [apply N2Nat.id |].
  apply in_seq. lia.
Qed.

Lemma is_word_high (x : N) : (128 <= x)%N -> is_word x = false.
Proof.
  intros H. unfold is_word.
  destruct (N.leb_spec x 57); [lia |]. rewrite andb_false_r.
  destruct (N.leb_spec x 90); [lia |]. rewrite andb_false_r.
  destruct (N.leb_spec x 122); [lia |]. rewrite andb_false_r.
  destruct (N.eqb_spec x 95); [lia |]. reflexivity.
Qed.

Lemma is_capital_high (x : N) : (91 <= x)%N -> is_capital x = false.
Proof.
  intros H. unfold is_capital.
  destruct (N.leb_spec x 90); [lia |]. apply andb_false_r.
Qed.

(** A code point goes to itself or into a run: when every image of the
    table is at least [b], so is the image of a code point that moves. *)
Lemma run_image_bound (b : N) (runs : list (N * N * N * N)) (c : N) :
  forallb (fun r => (b <=? snd r)%N) runs = true ->
  run_image runs c = c \/ (b <= run_image runs c)%N.
Proof.
  intros H. induction runs as [| [[[first last] step] image] runs IH]; simpl.
  - left. reflexivity.
  - simpl in H. apply andb_prop in H. destruct H as [Hb H].
    apply N.leb_le in Hb.
    destruct ((first <=? c) && (c <=? last) && ((c - first) mod step =? 0))%N.
    + right. lia.
    + apply IH. exact H.
Qed.

Lemma lowercase_images : forallb (fun r => (91 <=? snd r)%N) Unicode.lowercase = true.
Proof. vm_compute. reflexivity. Qed.

Lemma uppercase_images : forallb (fun r => (128 <=? snd r)%N) Unicode.uppercase_unit = true.
Proof. vm_compute. reflexivity. Qed.

(** *** Lower case *)

Lemma lower_point_ascii (c : N) : (c < 128)%N -> (lower_point c < 128)%N.
Proof.
  intros H. unfold lower_point. destruct (N.ltb_spec c 128); [| lia].
  destruct ((65 <=? c) && (c <=? 90))%N eqn:E; [| exact H].
  apply andb_prop in E. destruct E as [_ E]. apply N.leb_le in E. lia.
Qed.

(** No lower case is an ASCII capital. *)
Lemma lower_point_no_capital (c : N) : is_capital (lower_point c) = false.
Proof.
  unfold lower_point. destruct (N.ltb_spec c 128) as [Hlt | Hge].
  - destruct ((65 <=? c) && (c <=? 90))%N eqn:E.
    + apply andb_prop in E. destruct E as [E _]. apply N.leb_le in E.
      apply is_capital_high. lia.
    + exact E.
  - destruct (run_image_bound 91 Unicode.lowercase c lowercase_images) as [-> | H];
      apply is_capital_high; lia.
Qed.

Lemma code_units_no_capital (p : N) :
  is_capital p = false -> Forall (fun y => is_capital y = false) (code_units p).
Proof.
  intros H. unfold code_units. destruct (p <? 0x10000)%N.
  - constructor; [exact H | constructor].
  - constructor; [apply is_capital_high; etransitivity; [| apply N.le_add_r]; lia |].
    constructor; [apply is_capital_high; etransitivity; [| apply N.le_add_r]; lia |].
    constructor.
Qed.

Lemma lower_points_no_capital (s : list N) :
  forall before, Forall (fun y => is_capital y = false) (lower_points before s).
Proof.
  induction s as [| c s IH]; intros before; simpl; [constructor |].
  apply Forall_app. split; [| apply IH].
  destruct (c =? 0x3A3)%N.
  - constructor; [| constructor].
    destruct (cased_next before && negb (cased_next s)); reflexivity.
  - destruct (c =? 0x130)%N.
    + constructor; [reflexivity |]. constructor; [reflexivity | constructor].
    + constructor; [apply lower_point_no_capital | constructor].
Qed.

(** A lower-cased string holds no ASCII capital. *)
Lemma toLowerCase_no_capital (s : jsstring) :
  Forall (fun y => is_capital y = false) (toLowerCase s).
Proof.
  unfold toLowerCase.
  pose proof (lower_points_no_capital (code_points s) []) as H.
  induction (lower_points [] (code_points s)) as [| p ps IH]; simpl; [constructor |].
  inversion H as [| p' ps' Hp Hps]; subst.
  apply Forall_app. split; [apply code_units_no_capital; exact Hp | apply IH; exact Hps].
Qed.

Lemma code_points_ascii (s : jsstring) :
  forallb (fun x => (x <? 128)%N) s = true -> code_points s = s.
Proof.
  induction s as [| c s IH]; intros H; [reflexivity |].
  simpl in H. apply andb_prop in H. destruct H as [Hc H].
  apply N.ltb_lt in Hc.
  cbn [code_points]. destruct s as [| d s]; [reflexivity |].
  assert (E : is_high_surrogate c = false).
  { unfold is_high_surrogate. destruct (N.leb_spec 0xD800 c); [lia | reflexivity]. }
  rewrite E. cbn [andb]. rewrite (IH H). reflexivity.
Qed.

Lemma lower_points_ascii (s : jsstring) :
  forallb (fun x => (x <? 128)%N) s = true ->
  forall before, lower_points before s = map lower_point s.
Proof.
  induction s as [| c s IH]; intros H before; [reflexivity |].
  simpl in H. apply andb_prop in H. destruct H as [Hc H].
  apply N.ltb_lt in Hc. cbn [lower_points map].
  destruct (N.eqb_spec c 0x3A3); [lia |].
  destruct (N.eqb_spec c 0x130); [lia |].
  rewrite (IH H). reflexivity.
Qed.

(** On ASCII the conversion works unit by unit. *)
Lemma toLowerCase_ascii (s : jsstring) :
  forallb (fun x => (x <? 128)%N) s = true -> toLowerCase s = map lower_point s.
Proof.
  intros H. unfold toLowerCase.
  rewrite (code_points_ascii s H), (lower_points_ascii s H []).
  clear - H. induction s as [| c s IH]; [reflexivity |].
  simpl in H. apply andb_prop in H. destruct H as [Hc H].
  apply N.ltb_lt in Hc. cbn [map flat_map]. rewrite (IH H).
  unfold code_units. pose proof (lower_point_ascii c Hc).
  destruct (N.ltb_spec (lower_point c) 0x10000); [reflexivity | lia].
Qed.

Lemma is_word_lower_point (c : N) : (c < 128)%N -> is_word (lower_point c) = is_word c.
Proof.
  intros Hc. apply Bool.eqb_prop. revert c Hc.
  apply (below_forallb (fun c => Bool.eqb (is_word (lower_point c)) (is_word c)) 128).
  vm_compute. reflexivity.
Qed.

(** *** The [i] flag *)

Lemma canon_ascii (c : N) : (c < 128)%N -> (canon c < 128)%N.
Proof.
  intros H. unfold canon. destruct (N.ltb_spec c 128); [| lia].
  destruct ((97 <=? c) && (c <=? 122))%N; lia.
Qed.

Lemma canon_high (x : N) : (128 <= x)%N -> (128 <= canon x)%N.
Proof.
  intros H. unfold canon. destruct (N.ltb_spec x 128); [lia |].
  destruct (run_image_bound 128 Unicode.uppercase_unit x uppercase_images) as [-> | H'];
    lia.
Qed.

(** Under the [i] flag an ASCII unit of a pattern matches a unit of
    lower-cased text exactly when that unit is its lower case. *)
Lemma unit_eq_lowered (c y : N) :
  (c < 128)%N -> is_capital y = false ->
  unit_eq true c y = N.eqb (lower_point c) y.
Proof.
  intros Hc Hy. unfold unit_eq.
  destruct (N.lt_ge_cases y 128) as [Hlt | Hge].
  - assert (H : forallb
                  (fun y => implb (negb (is_capital y))
                                  (Bool.eqb (N.eqb (canon c) (canon y))
                                            (N.eqb (lower_point c) y)))
                  (map N.of_nat (seq 0 128)) = true).
    { revert c Hc.
      apply (below_forallb
               (fun c => forallb
                           (fun y => implb (negb (is_capital y))
                                           (Bool.eqb (N.eqb (canon c) (canon y))
                                                     (N.eqb (lower_point c) y)))
                           (map N.of_nat (seq 0 128))) 128).
      vm_compute. reflexivity. }
    pose proof (below_forallb _ 128 H y Hlt) as E. cbv beta in E.
    rewrite Hy in E. cbn [negb implb] in E. apply Bool.eqb_prop. exact E.
  - pose proof (canon_ascii c Hc). pose proof (canon_high y Hge).
    pose proof (lower_point_ascii c Hc).
    destruct (N.eqb_spec (canon c) (canon y)); [lia |].
    destruct (N.eqb_spec (lower_point c) y); [lia |]. reflexivity.
Qed.

Example toLowerCase_samples :
  toLowerCase (js "An API for Teams") = js "an api for teams"
  /\ toLowerCase ([83; 68; 0x212A]%N ++ js " for Teams") = js "sdk for teams"
  /\ toLowerCase [0x130]%N = [0x69; 0x307]%N
  /\ toLowerCase [0x39F; 0x394; 0x39F; 0x3A3; 0x20; 0x3A3]%N
     = [0x3BF; 0x3B4; 0x3BF; 0x3C2; 0x20; 0x3C3]%N
  /\ toLowerCase [0xD801; 0xDC00; 0xD801]%N = [0xD801; 0xDC28; 0xD801]%N.
Proof.
  split; [vm_compute; reflexivity |].
  split; [vm_compute; reflexivity |].
  split; [vm_compute; reflexivity |].
  split; vm_compute; reflexivity.
Qed.

Example canon_samples :
  map canon [0x6B; 0xE9; 0xFF; 0xB5; 0xDF; 0x131; 0x17F; 0x212A]%N
  = [0x4B; 0xC9; 0x178; 0x39C; 0xDF; 0x131; 0x17F; 0x212A]%N.
Proof. vm_compute. reflexivity. Qed.

(** *** The token pattern *)

Lemma rmatch_lit_units (icase : bool) (A : Type) (token : jsstring) :
  forall (prev : option N) (s : jsstring) (k : cont A),
    rmatch icase (lit_units token) prev s k
    = match lit_run icase token prev s with
      | Some (p, r) => k p r
      | None => None
      end.
Proof.
  induction token as [| c token IH]; intros prev s k; simpl.
  - reflexivity.
  - destruct s as [| x s]; [reflexivity |].
    destruct (unit_eq icase c x); [apply IH | reflexivity].
Qed.

(** Is there a match of the token pattern at the head of [s]. *)
Lemma token_regex_here (token : jsstring) (prev : option N) (s : jsstring) :
  match match_here true (token_regex token) prev s with
  | Some _ => true
  | None => false
  end
  = word_boundary prev s
    && match lit_run true token prev s with
       | Some (p, r) => word_boundary p r
       | None => false
       end.
Proof.
  unfold match_here, token_regex. simpl.
  destruct (word_boundary prev s); [| reflexivity]. simpl.
  rewrite rmatch_lit_units.
  destruct (lit_run true token prev s) as [[p r] |]; [| reflexivity].
  destruct (word_boundary p r); reflexivity.
Qed.

Lemma last_map_Some (token : jsstring) (d : N) (prev : option N) :
  token <> [] -> last (map Some token) prev = Some (last token d).
Proof.
  induction token as [| c token IH]; intros Hne; [congruence |].
  destruct token as [| c' token]; [reflexivity |].
  change (last (map Some (c :: c' :: token)) prev)
    with (last (map Some (c' :: token)) prev).
  change (last (c :: c' :: token) d) with (last (c' :: token) d).
  apply IH. discriminate.
Qed.

(** After the literal, on lower-cased text: the boundary that closes the
    pattern holds exactly when the token, in lower case, stands here as
    the contract words it. *)
Lemma lit_run_occurs (token : jsstring) :
  forallb (fun x => (x <? 128)%N) token = true ->
  forall (prev : option N) (t : jsstring),
    Forall (fun y => is_capital y = false) t ->
    is_word_opt (last (map Some token) prev) = true ->
    match lit_run true token prev t with
    | Some (p, r) => word_boundary p r
    | None => false
    end = occurs_here (map lower_point token) t.
Proof.
  induction token as [| c token IH]; intros Hascii prev t Ht Hlast.
  - simpl in *. unfold word_boundary. rewrite Hlast.
    destruct t as [| x t]; reflexivity.
  - simpl in Hascii. apply andb_prop in Hascii. destruct Hascii as [Hc Hascii].
    apply N.ltb_lt in Hc.
    destruct t as [| x t]; [reflexivity |].
    inversion Ht as [| x' t' Hx Ht']; subst.
    cbn [map lit_run occurs_here].
    rewrite (unit_eq_lowered c x Hc Hx).
    destruct (N.eqb_spec (lower_point c) x) as [E | E]; [| reflexivity].
    cbn [andb]. apply (IH Hascii); [exact Ht' |].
    destruct token as [| c' token].
    + simpl in *. rewrite <- E, (is_word_lower_point c Hc). exact Hlast.
    + change (last (map Some (c :: c' :: token)) prev)
        with (last (map Some (c' :: token)) prev) in Hlast.
      rewrite (last_map_Some (c' :: token) 0%N) in Hlast by discriminate.
      rewrite (last_map_Some (c' :: token) 0%N) by discriminate.
      exact Hlast.
Qed.

Lemma occurs_here_head_word (token t : jsstring) (c : N) :
  (c < 128)%N -> is_word c = true ->
  occurs_here (lower_point c :: token) t = true ->
  is_word_opt (hd_error t) = true.
Proof.
  intros Hlt Hc H. destruct t as [| x t]; [discriminate H |].
  simpl in *. apply andb_prop in H. destruct H as [E _].
  apply N.eqb_eq in E. rewrite <- E, (is_word_lower_point c Hlt). exact Hc.
Qed.


Lemma token_here_spec (token : jsstring) (prev : option N) (t : jsstring) :
  token_ok token = true ->
  Forall (fun y => is_capital y = false) t ->
  match match_here true (token_regex token) prev t with
  | Some _ => true
  | None => false
  end = negb (is_word_opt prev) && occurs_here (map lower_point token) t.
Proof.
  intros Hok Ht. destruct token as [| c token]; [discriminate Hok |].
  unfold token_ok in Hok.
  apply andb_prop in Hok. destruct Hok as [Hok Hascii].
  apply andb_prop in Hok. destruct Hok as [Hfirst Hlast].
  assert (Hc : (c < 128)%N).
  { simpl in Hascii. apply andb_prop in Hascii. destruct Hascii as [Hc _].
    apply N.ltb_lt. exact Hc. }
  rewrite token_regex_here.
  rewrite (lit_run_occurs (c :: token) Hascii prev t Ht).
  - destruct (occurs_here (map lower_point (c :: token)) t) eqn:E.
    + unfold word_boundary. cbn [map] in E.
      rewrite (occurs_here_head_word (map lower_point token) t c Hc Hfirst E).
      rewrite !andb_true_r. destruct (is_word_opt prev); reflexivity.
    + rewrite !andb_false_r. reflexivity.
  - rewrite (last_map_Some (c :: token) c) by discriminate. exact Hlast.
Qed.

Lemma test_from_unfold (icase : bool) (r : regex) (prev : option N) (s : jsstring) :
  test_from icase r prev s
  = match match_here icase r prev s with Some _ => true | None => false end
    || match s with
       | [] => false
       | c :: s' => test_from icase r (Some c) s'
       end.
Proof.
  destruct s; simpl; destruct (match_here icase r prev _); reflexivity.
Qed.

Lemma test_from_spec (token : jsstring) :
  token_ok token = true ->
  forall (t : jsstring) (prev : option N),
    Forall (fun y => is_capital y = false) t ->
    test_from true (token_regex token) prev t
    = occurs_whole (map lower_point token) (is_word_opt prev) t.
Proof.
  intros Hok t. induction t as [| x t IH]; intros prev Ht.
  - rewrite test_from_unfold. rewrite (token_here_spec token prev [] Hok Ht).
    reflexivity.
  - rewrite test_from_unfold. rewrite (token_here_spec token prev (x :: t) Hok Ht).
    cbn [occurs_whole]. f_equal.
    inversion Ht as [| x' t' Hx Ht']; subst.
    apply (IH (Some x) Ht').
Qed.

Lemma token_ok_ascii (token : jsstring) :
  token_ok token = true -> forallb (fun x => (x <? 128)%N) token = true.
Proof.
  destruct token as [| c token]; [discriminate |].
  unfold token_ok. intros H. apply andb_prop in H. destruct H as [_ H]. exact H.
Qed.

(** The test the loop makes on the lower-cased text is the whole-word,
    case-blind occurrence of the token in the text. *)
Lemma token_test_spec (token text : jsstring) :
  token_ok token = true ->
  token_test token (toLowerCase text) = matches_whole_word token text.
Proof.
  intros Hok. unfold token_test, regex_test, matches_whole_word.
  rewrite (toLowerCase_ascii token (token_ok_ascii token Hok)).
  apply (test_from_spec token Hok (toLowerCase text) None).
  apply toLowerCase_no_capital.
Qed.

(** *** The loop over the weights *)

Lemma fst_scan_step (text : jsstring) (q : Q) (sg : Signals) (token : jsstring) (w : Q) :
  fst (scan_step text (q, sg) (token, w))
  = if token_test token text then (q + w)%Q else q.
Proof.
  unfold scan_step. destruct (token_test token text); [| reflexivity].
  destruct (has DEV_SIGNALS token); [reflexivity |].
  destruct (has TEAM_SIGNALS token); [reflexivity |].
  destruct (Qlt_bool w 0); [reflexivity |].
  destruct (has launch_tokens token); reflexivity.
Qed.

Lemma scan_tokens_sum (text : jsstring) (weights : list (jsstring * Q)) :
  forall (q : Q) (sg : Signals),
    (fst (fold_left (scan_step text) weights (q, sg))
     == q + fold_right (fun tw acc => snd tw + acc) 0
                       (filter (fun tw => token_test (fst tw) text) weights))%Q.
Proof.
  induction weights as [| [token w] weights IH]; intros q sg.
  - simpl. ring.
  - cbn [fold_left filter fst].
    pose proof (fst_scan_step text q sg token w) as Hstep.
    destruct (scan_step text (q, sg) (token, w)) as [q' sg'].
    simpl in Hstep. subst q'. rewrite IH.
    destruct (token_test token text); simpl; ring.
Qed.

Section Weights.
Variable weights : list (jsstring * Q).
Hypothesis tokens_ok : forallb (fun tw => token_ok (fst tw)) weights = true.

(** For any table of well-formed tokens, the score accumulated by the
    loop is the sum the contract describes. *)
Lemma scan_tokens_spec (text : jsstring) :
  (fst (scan_tokens weights (toLowerCase text)) == spec_score weights text)%Q.
Proof.
  unfold scan_tokens, spec_score. rewrite scan_tokens_sum.
  rewrite (filter_ext_in (fun tw => token_test (fst tw) (toLowerCase text))
                         (fun tw => matches_whole_word (fst tw) text)).
  - ring.
  - intros tw Hin. apply token_test_spec.
    rewrite forallb_forall in tokens_ok. apply tokens_ok. exact Hin.
Qed.
End Weights.

Lemma distinct_NoDup (l : list jsstring) : distinct l = true -> NoDup l.
Proof.
  induction l as [| x l IH]; intros H; [constructor |].
  simpl in H. apply andb_prop in H. destruct H as [Hx Hl].
  constructor; [| apply IH; exact Hl].
  intros Hin. apply negb_true_iff in Hx.
  assert (existsb (jseqb x) l = true) as E.
  { apply existsb_exists. exists x. split; [exact Hin | apply jseqb_refl]. }
  congruence.
Qed.

Lemma WEIGHTS_tokens_ok : forallb (fun tw => token_ok (fst tw)) WEIGHTS = true.
Proof. vm_compute. reflexivity. Qed.

Lemma weightedScore_scan (html title sourceUrl : jsstring) :
  weightedScore (scoreContent html title sourceUrl)
  = fst (scan_tokens WEIGHTS (toLowerCase (html ++ js " " ++ title))).
Proof.
  unfold scoreContent.
  destruct (scan_tokens WEIGHTS (toLowerCase (html ++ js " " ++ title))) as [q sg].
  destruct (negb (Qle_bool (minimum_score THRESHOLDS) q)); [reflexivity |].
  destruct (require_dev_signal THRESHOLDS && negb (0 <? length (sig_dev sg))%nat);
    [reflexivity |].
  destruct (require_team_cue THRESHOLDS && negb (0 <? length (sig_team sg))%nat);
    reflexivity.
Qed.

(** C6: the numeric score is the sum of the configured weights of exactly
    the tokens that occur in the text (page bodies, a space, the title) as
    whole words or phrases, the case of letters apart; the table holds
    each token once, and a token adds its weight once however often it
    occurs. *)
Theorem score_is_sum_of_matched_weights (html title sourceUrl : jsstring) :
  (weightedScore (scoreContent html title sourceUrl)
   == spec_score WEIGHTS (html ++ js " " ++ title))%Q
  /\ NoDup (map fst WEIGHTS).
Proof.
  split.
  - rewrite weightedScore_scan. apply scan_tokens_spec. exact WEIGHTS_tokens_ok.
  - apply distinct_NoDup. vm_compute. reflexivity.
Qed.

Example score_counts_a_token_once :
  (weightedScore (scoreContent (js "API api Api: the api") [] []) == 3)%Q
  /\ (weightedScore (scoreContent (js "our API") [] []) == 3)%Q
  /\ (weightedScore (scoreContent (js "rapid apiary") [] []) == 0)%Q.
Proof.
  split; [vm_compute; reflexivity |].
  split; vm_compute; reflexivity.
Qed.

(** The Kelvin sign U+212A has the lower case k. *)
Example score_follows_unicode_case :
  let s := scoreContent ([83; 68; 0x212A]%N ++ js " for teams") [] [] in
  (weightedScore s == 5)%Q /\ sig_dev (detectedSignals s) = [js "sdk"]
  /\ passed s = true.
Proof.
  cbv zeta. split; [vm_compute; reflexivity |].
  split; vm_compute; reflexivity.
Qed.

Example score_of_the_scenario :
  (weightedScore (scoreContent (js "API CLI per seat pricing") (js "Server Compass") [])
   == 8)%Q.
Proof. vm_compute. reflexivity. Qed.

(** *** The signal buckets *)

Lemma scan_step_buckets (text : jsstring) (q : Q) (sg : Signals) (token : jsstring) (w : Q) :
  let sg' := snd (scan_step text (q, sg) (token, w)) in
  sig_dev sg'
  = sig_dev sg ++ (if token_test token text && has DEV_SIGNALS token then [token] else [])
  /\ sig_team sg'
     = sig_team sg
       ++ (if token_test token text && negb (has DEV_SIGNALS token)
              && has TEAM_SIGNALS token then [token] else []).
Proof.
  cbv zeta. unfold scan_step.
  destruct (token_test token text); cbn [andb snd];
    [| rewrite !app_nil_r; split; reflexivity].
  destruct (has DEV_SIGNALS token); cbn [negb andb snd sig_dev sig_team];
    [rewrite app_nil_r; split; reflexivity |].
  destruct (has TEAM_SIGNALS token); cbn [snd sig_dev sig_team];
    [rewrite app_nil_r; split; reflexivity |].
  destruct (Qlt_bool w 0); cbn [snd sig_dev sig_team];
    [rewrite !app_nil_r; split; reflexivity |].
  destruct (has launch_tokens token); cbn [snd sig_dev sig_team];
    rewrite !app_nil_r; split; reflexivity.
Qed.

Lemma scan_buckets (text : jsstring) (weights : list (jsstring * Q)) :
  forall (q : Q) (sg : Signals),
    let sg' := snd (fold_left (scan_step text) weights (q, sg)) in
    sig_dev sg'
    = sig_dev sg
      ++ filter (fun t => token_test t text && has DEV_SIGNALS t) (map fst weights)
    /\ sig_team sg'
       = sig_team sg
         ++ filter (fun t => token_test t text && negb (has DEV_SIGNALS t)
                             && has TEAM_SIGNALS t) (map fst weights).
Proof.
  induction weights as [| [token w] weights IH]; intros q sg; cbv zeta.
  - cbn. rewrite !app_nil_r. split; reflexivity.
  - cbn [fold_left map filter fst].
    destruct (scan_step_buckets text q sg token w) as [Hd Ht]. cbv zeta in Hd, Ht.
    destruct (scan_step text (q, sg) (token, w)) as [q' sg1]. cbn [snd] in Hd, Ht.
    destruct (IH q' sg1) as [Hd' Ht']. cbv zeta in Hd', Ht'.
    rewrite Hd', Ht', Hd, Ht. rewrite <- !app_assoc. split.
    + destruct (token_test token text && has DEV_SIGNALS token); reflexivity.
    + destruct (token_test token text && negb (has DEV_SIGNALS token)
                && has TEAM_SIGNALS token); reflexivity.
Qed.

Lemma scan_tokens_buckets (text : jsstring) (weights : list (jsstring * Q)) :
  sig_dev (snd (scan_tokens weights text))
  = filter (fun t => token_test t text && has DEV_SIGNALS t) (map fst weights)
  /\ sig_team (snd (scan_tokens weights text))
     = filter (fun t => token_test t text && negb (has DEV_SIGNALS t)
                        && has TEAM_SIGNALS t) (map fst weights).
Proof.
  unfold scan_tokens.
  destruct (scan_buckets text weights 0%Q no_signals) as [Hd Ht].
  cbv zeta in Hd, Ht. split; [exact Hd | exact Ht].
Qed.

(** *** Thresholds *)

(** The verdict, check by check in the order of the source. *)
Lemma verdict_in_order (html title sourceUrl : jsstring) :
  let s := scoreContent html title sourceUrl in
  (passed s, filterReason s)
  = if Qlt_bool (weightedScore s) (minimum_score THRESHOLDS)
    then (false, js "below_threshold")
    else if negb (hasDevSignal s) then (false, js "no_dev_signal")
    else if negb (hasTeamCue s) then (false, js "no_team_cue")
    else (true, []).
Proof.
  unfold scoreContent.
  destruct (scan_tokens WEIGHTS (toLowerCase (html ++ js " " ++ title))) as [q sg].
  unfold Qlt_bool.
  destruct (Qle_bool (minimum_score THRESHOLDS) q) eqn:Emin; cbn [negb].
  - cbn [require_dev_signal require_team_cue THRESHOLDS andb].
    destruct (negb (0 <? length (sig_dev sg))%nat) eqn:Edev.
    + cbn [passed filterReason weightedScore hasDevSignal hasTeamCue].
      rewrite Emin, Edev. reflexivity.
    + destruct (negb (0 <? length (sig_team sg))%nat) eqn:Eteam;
        cbn [passed filterReason weightedScore hasDevSignal hasTeamCue];
        rewrite Emin, Edev, Eteam; reflexivity.
  - cbn [passed filterReason weightedScore hasDevSignal hasTeamCue].
    rewrite Emin. reflexivity.
Qed.

Lemma existsb_same_members (P : jsstring -> bool) (l1 l2 : list jsstring) :
  forallb (has l2) l1 = true -> forallb (has l1) l2 = true ->
  existsb P l1 = existsb P l2.
Proof.
  intros H12 H21.
  assert (Hsub : forall a b, forallb (has b) a = true -> existsb P a = true ->
                             existsb P b = true).
  { intros a b Hab Ha. apply existsb_exists in Ha. destruct Ha as [x [Hin Hx]].
    rewrite forallb_forall in Hab. specialize (Hab x Hin).
    unfold has in Hab. apply existsb_exists in Hab. destruct Hab as [y [Hy E]].
    apply jseqb_eq in E. subst y.
    apply existsb_exists. exists x. split; assumption. }
  destruct (existsb P l1) eqn:E1.
  - symmetry. apply (Hsub l1 l2 H12 E1).
  - destruct (existsb P l2) eqn:E2; [| reflexivity].
    rewrite (Hsub l2 l1 H21 E2) in E1. discriminate E1.
Qed.

Lemma nonempty_filter (P : jsstring -> bool) (l : list jsstring) :
  (0 <? length (filter P l))%nat = existsb P l.
Proof.
  induction l as [| x l IH]; [reflexivity |].
  simpl. destruct (P x); [reflexivity | exact IH].
Qed.

(** Is there a dev signal, is there a team cue: whether a token of
    [DEV_SIGNALS], of [TEAM_SIGNALS], matches the text as a whole word. *)
Lemma signals_matched (html title sourceUrl : jsstring) :
  let s := scoreContent html title sourceUrl in
  let text := html ++ js " " ++ title in
  hasDevSignal s = existsb (fun t => matches_whole_word t text) DEV_SIGNALS
  /\ hasTeamCue s = existsb (fun t => matches_whole_word t text) TEAM_SIGNALS.
Proof.
  cbv zeta.
  assert (Hok : forall t, In t (map fst WEIGHTS) -> token_ok t = true).
  { intros t Hin. apply in_map_iff in Hin. destruct Hin as [tw [<- Hin]].
    pose proof WEIGHTS_tokens_ok as H. rewrite forallb_forall in H. exact (H tw Hin). }
  destruct (scan_tokens_buckets (toLowerCase (html ++ js " " ++ title)) WEIGHTS)
    as [Hd Ht].
  assert (Hdev : hasDevSignal (scoreContent html title sourceUrl)
                 = (0 <? length (sig_dev (snd (scan_tokens WEIGHTS
                      (toLowerCase (html ++ js " " ++ title))))))%nat
                 /\ hasTeamCue (scoreContent html title sourceUrl)
                    = (0 <? length (sig_team (snd (scan_tokens WEIGHTS
                         (toLowerCase (html ++ js " " ++ title))))))%nat).
  { unfold scoreContent.
    destruct (scan_tokens WEIGHTS (toLowerCase (html ++ js " " ++ title))) as [q sg].
    destruct (negb (Qle_bool (minimum_score THRESHOLDS) q));
      [| destruct (require_dev_signal THRESHOLDS && negb (0 <? length (sig_dev sg)));
         [| destruct (require_team_cue THRESHOLDS && negb (0 <? length (sig_team sg)))]];
      split; reflexivity. }
  destruct Hdev as [-> ->]. rewrite Hd, Ht, !nonempty_filter.
  set (text := html ++ js " " ++ title).
  split.
  - transitivity (existsb (fun t => matches_whole_word t text)
                          (filter (has DEV_SIGNALS) (map fst WEIGHTS))).
    + generalize (map fst WEIGHTS) Hok. intros l Hl.
      induction l as [| t l IH]; [reflexivity |].
      cbn [existsb filter]. rewrite (token_test_spec t text (Hl t (or_introl eq_refl))).
      rewrite IH by (intros t' Hin; apply Hl; right; exact Hin).
      destruct (has DEV_SIGNALS t); cbn [existsb].
      * rewrite andb_true_r. reflexivity.
      * rewrite andb_false_r. reflexivity.
    + apply existsb_same_members; vm_compute; reflexivity.
  - transitivity (existsb (fun t => matches_whole_word t text)
                          (filter (fun t => negb (has DEV_SIGNALS t) && has TEAM_SIGNALS t)
                                  (map fst WEIGHTS))).
    + generalize (map fst WEIGHTS) Hok. intros l Hl.
      induction l as [| t l IH]; [reflexivity |].
      cbn [existsb filter]. rewrite (token_test_spec t text (Hl t (or_introl eq_refl))).
      rewrite IH by (intros t' Hin; apply Hl; right; exact Hin).
      destruct (negb (has DEV_SIGNALS t) && has TEAM_SIGNALS t) eqn:E; cbn [existsb].
      * rewrite <- andb_assoc, E, andb_true_r. reflexivity.
      * rewrite <- andb_assoc, E, andb_false_r. reflexivity.
    + apply existsb_same_members; vm_compute; reflexivity.
Qed.

(** C3: the three threshold checks run in strict order, and the first
    that fails sets the reason.  A score below the minimum (5) gives
    below_threshold, whatever the signals; with the minimum met, no token
    of the dev signals matching gives no_dev_signal, whatever the team
    cues; with a dev signal, no token of the team signals matching gives
    no_team_cue; else the candidate passes, with no reason.  So a
    candidate with score 3 and no signal of either kind is filtered as
    below_threshold, not as no_dev_signal. *)
Theorem threshold_checks_in_order (html title sourceUrl : jsstring) :
  let s := scoreContent html title sourceUrl in
  let text := html ++ js " " ++ title in
  (passed s, filterReason s)
  = (if Qlt_bool (weightedScore s) 5 then (false, js "below_threshold")
     else if negb (existsb (fun t => matches_whole_word t text) DEV_SIGNALS)
     then (false, js "no_dev_signal")
     else if negb (existsb (fun t => matches_whole_word t text) TEAM_SIGNALS)
     then (false, js "no_team_cue")
     else (true, []))
  /\ ((weightedScore s < 5)%Q ->
      filterReason s = js "below_threshold" /\ passed s = false).
Proof.
  cbv zeta.
  pose proof (verdict_in_order html title sourceUrl) as H. cbv zeta in H.
  destruct (signals_matched html title sourceUrl) as [Hd Ht]. cbv zeta in Hd, Ht.
  rewrite Hd, Ht in H.
  change (minimum_score THRESHOLDS) with (5 : Q) in H.
  split; [exact H |].
  intros Hlt.
  assert (E : Qlt_bool (weightedScore (scoreContent html title sourceUrl)) 5 = true).
  { unfold Qlt_bool. apply negb_true_iff.
    destruct (Qle_bool 5 (weightedScore (scoreContent html title sourceUrl))) eqn:E;
      [| reflexivity].
    apply Qle_bool_iff in E. exfalso. apply (Qlt_not_le _ _ Hlt). exact E. }
  rewrite E in H. apply pair_equal_spec in H. destruct H as [Hp Hr].
  split; assumption.
Qed.

Lemma threshold_checks_in_order_witness :
  let s := scoreContent (js "Pricing. Signup for a demo.") (js "Acme") (js "https://acme.dev") in
  (weightedScore s == 3)%Q /\ hasDevSignal s = false /\ hasTeamCue s = false
  /\ filterReason s = js "below_threshold" /\ passed s = false.
Proof.
  cbv zeta. split; [vm_compute; reflexivity |].
  split; [vm_compute; reflexivity |].
  split; [vm_compute; reflexivity |].
  apply (threshold_checks_in_order (js "Pricing. Signup for a demo.") (js "Acme")
                                   (js "https://acme.dev")).
  vm_compute. reflexivity.
Defined.

Example later_checks_in_turn :
  filterReason (scoreContent (js "Pricing, signup, demo, trial, roadmap, gdpr.") [] [])
  = js "no_dev_signal"
  /\ filterReason (scoreContent (js "API, SDK and CLI") [] []) = js "no_team_cue"
  /\ passed (scoreContent (js "API and SDK for teams") [] []) = true.
Proof.
  split; [vm_compute; reflexivity |].
  split; vm_compute; reflexivity.
Qed.


(** ** Signal extractor *)

(** Character references: the number is read as a Number, so from 2^53
    on it is rounded before it is cut to a code unit. *)
Example character_references :
  decodeHtmlEntities (js "&#72;&#x69;&#X21; &lt;b&gt;") = js "Hi! <b"
  /\ parseInt 10 (js "9007199254740993") = Some 9007199254740992%N
  /\ fromCharCode (parseInt 10 (js "9007199254740993")) = [0%N]
  /\ fromCharCode (parseInt 16 (js "1fffffffffffff41")) = [0xFF00%N]
  /\ fromCharCode (parseInt 10 (repeat 57%N 310)) = [0%N].
Proof.
  split; [vm_compute; reflexivity |].
  split; [vm_compute; reflexivity |].
  split; [vm_compute; reflexivity |].
  split; vm_compute; reflexivity.
Qed.

(** *** Value proposition *)

Lemma trimStart_length (s : jsstring) : length (trimStart s) <= length s.
Proof.
  induction s as [| c s IH]; simpl; [lia |].
  destruct (is_space c); simpl; lia.
Qed.

Lemma trim_length (s : jsstring) : length (trim s) <= length s.
Proof.
  unfold trim, trimEnd. rewrite length_rev.
  etransitivity; [apply trimStart_length |].
  rewrite length_rev. apply trimStart_length.
Qed.

Lemma slice0_length (n : N) (s : jsstring) : length (slice0 n s) <= N.to_nat n.
Proof. unfold slice0. apply firstn_le_length. Qed.

(** The returned string never exceeds 120 units. *)
Lemma extractValueProp_length (d : Dom) : length (extractValueProp d) <= 120.
Proof.
  unfold extractValueProp.
  etransitivity; [apply trim_length |].
  etransitivity; [apply slice0_length |].
  reflexivity.
Qed.

(** A meta description shorter than 10 units is the same as none. *)
Lemma short_meta_description_as_absent (d : Dom) :
  too_short (opt_or (dom_meta_description d) []) = true ->
  extractValueProp d = extractValueProp (without_meta_description d).
Proof.
  intros H. unfold extractValueProp. cbn [without_meta_description dom_h1 dom_p
    dom_meta_description dom_og_description opt_or].
  destruct (too_short (trim (dom_h1 d))); [| reflexivity].
  rewrite H. reflexivity.
Qed.

(** C10, as the program has it.  For every page the returned string has
    at most 120 units.  An h1 of fewer than 10 units (after trimming) is
    treated as an absent one, and so is a meta description of fewer than
    10.  The value is the h1 if it has 10 units or more, else the meta
    description if it has, else the og:description if it has, else the
    first paragraph whose trimmed length is strictly between 20 and 200;
    where no paragraph qualifies the og:description is returned as it
    stands, short or not. *)
Theorem extractValueProp_fallbacks (d : Dom) :
  length (extractValueProp d) <= 120
  /\ (too_short (trim (dom_h1 d)) = true ->
      extractValueProp d = extractValueProp (without_h1 d))
  /\ (too_short (opt_or (dom_meta_description d) []) = true ->
      extractValueProp d = extractValueProp (without_meta_description d))
  /\ extractValueProp d
     = trim (slice0 120
               (let h1 := trim (dom_h1 d) in
                if negb (too_short h1) then h1
                else
                  let meta := opt_or (dom_meta_description d) [] in
                  if negb (too_short meta) then meta
                  else
                    let og := opt_or (dom_og_description d) [] in
                    if negb (too_short og) then og
                    else match find significant (map trim (dom_p d)) with
                         | Some text => text
                         | None => og
                         end)).
Proof.
  split; [apply extractValueProp_length |].
  split.
  { intros H. unfold extractValueProp. cbn [without_h1 dom_h1 dom_p dom_meta_description
      dom_og_description]. rewrite H. reflexivity. }
  split.
  { intros H. unfold extractValueProp. cbn [without_meta_description dom_h1 dom_p
      dom_meta_description dom_og_description opt_or].
    destruct (too_short (trim (dom_h1 d))); [| reflexivity].
    rewrite H. reflexivity. }
  unfold extractValueProp. cbv zeta.
  destruct (too_short (trim (dom_h1 d))) eqn:Eh; cbn [negb].
  - destruct (too_short (opt_or (dom_meta_description d) [])) eqn:Em; cbn [negb].
    + destruct (too_short (opt_or (dom_og_description d) [])) eqn:Eo; cbn [negb];
        rewrite ?Eo; reflexivity.
    + rewrite !Em. reflexivity.
  - rewrite !Eh. reflexivity.
Qed.

Lemma extractValueProp_fallbacks_witness :
  too_short (trim (dom_h1 Examples.short_h1_page)) = true
  /\ extractValueProp Examples.short_h1_page
     = js "Deploy previews for every pull request."
  /\ extractValueProp Examples.short_h1_page
     = extractValueProp (without_h1 Examples.short_h1_page)
  /\ extractValueProp More.short_meta_page
     = extractValueProp (without_meta_description More.short_meta_page).
Proof.
  split; [vm_compute; reflexivity |].
  split; [vm_compute; reflexivity |].
  split.
  - destruct (extractValueProp_fallbacks Examples.short_h1_page) as [_ [H _]].
    apply H. vm_compute. reflexivity.
  - destruct (extractValueProp_fallbacks More.short_meta_page) as [_ [_ [H _]]].
    apply H. vm_compute. reflexivity.
Defined.

(** C10 as stated fails for the og:description: one of 8 units, on a page
    with no qualifying paragraph, is returned, where an absent one gives
    the empty string. *)
Lemma short_og_description_not_as_absent :
  too_short (js "Hi there") = true
  /\ extractValueProp Examples.short_og_page = js "Hi there"
  /\ extractValueProp Examples.short_og_page
     <> extractValueProp (without_og_description Examples.short_og_page).
Proof.
  split; [vm_compute; reflexivity |].
  split; [vm_compute; reflexivity |].
  vm_compute. intros H. discriminate H.
Qed.


(** ** Fetch and probe cache *)

(** MD5 against the test suite of RFC 1321 and a two-block message. *)
Example md5_test_vectors :
  md5_hex (js "") = js "d41d8cd98f00b204e9800998ecf8427e"
  /\ md5_hex (js "abc") = js "900150983cd24fb0d6963f7d28e17f72"
  /\ md5_hex (js "message digest") = js "f96b697d7cb7938d525a2f31aaf161d0"
  /\ md5_hex (repeat 97%N 70) = js "0f5c6c4e740bfcc08c3c26ccb2673d46".
Proof.
  split; [vm_compute; reflexivity |].
  split; [vm_compute; reflexivity |].
  split; vm_compute; reflexivity.
Qed.

Example toISOString_samples :
  toISOString 1704067199000 = js "2023-12-31T23:59:59.000Z"
  /\ toISOString 951782400000 = js "2000-02-29T00:00:00.000Z"
  /\ toISOString (-1) = js "1969-12-31T23:59:59.999Z".
Proof.
  split; [vm_compute; reflexivity |].
  split; vm_compute; reflexivity.
Qed.

(** The key depends on the time only through the calendar day. *)
Lemma getCacheKey_same_day (t1 t2 : Z) (canon path : jsstring) :
  isoDate t1 = isoDate t2 ->
  getCacheKey t1 canon path = getCacheKey t2 canon path.
Proof.
  intros H. unfold getCacheKey. rewrite H. reflexivity.
Qed.

Lemma readFile_written (path : jsstring) (c : CacheFile) (w : World) :
  readFile path (files (writeFile path c w)) = Some c.
Proof.
  simpl. rewrite jseqb_refl. reflexivity.
Qed.

Lemma readFile_other (path path' : jsstring) (c : CacheFile) (w : World) :
  path' <> path ->
  readFile path (files (writeFile path' c w)) = readFile path (files w).
Proof.
  intros Hne. simpl. destruct (jseqb path' path) eqn:E; [| reflexivity].
  apply jseqb_eq in E. contradiction.
Qed.

(** An entry is looked up under the key of the current day.  A read on
    the day of the write finds the entry and serves it while its age is
    below seven days; a read whose key differs, with no file under that
    key, misses it. *)
Lemma cache_entry_bound_to_its_day
        (X : Externals) (u : jsstring) (url : Url) (status : Z) (html : jsstring)
        (w : World) (dt : Z) :
  newURL X u = Some url ->
  (0 <= dt)%Z ->
  let w1 := cacheWrite X u status html w in
  let w2 := sleep dt w1 in
  let key t := getCacheKey t (url_hostname url) (url_pathname url) in
  (isoDate (clock w2) = isoDate (clock w1) ->
   cacheRead X u w2
   = if (dt <? TTL)%Z
     then Some {| fr_status := status; fr_html := slice0 200000 html; fr_cached := true |}
     else None)
  /\ (key (clock w2) <> key (clock w1) ->
      readFile (key (clock w2)) (files w) = None ->
      cacheRead X u w2 = None).
Proof.
  intros Hurl Hdt w1 w2 key.
  assert (Hw1 : w1 = writeFile (key (clock w))
                               (CacheJson status (slice0 200000 html) (clock w)) w).
  { unfold w1, cacheWrite. rewrite Hurl. reflexivity. }
  assert (Hc1 : clock w1 = clock w) by (rewrite Hw1; reflexivity).
  assert (Hc2 : clock w2 = (clock w + dt)%Z).
  { unfold w2, sleep. cbn [clock]. rewrite Hc1. rewrite Z.max_r by exact Hdt. reflexivity. }
  assert (Hf2 : files w2 = files w1) by reflexivity.
  split.
  - intros Hday. unfold cacheRead. rewrite Hurl. fold (key (clock w2)).
    rewrite (getCacheKey_same_day (clock w2) (clock w1) _ _ Hday : key (clock w2) = key (clock w1)).
    rewrite Hf2, Hc1, Hw1, readFile_written, Hc2.
    replace (clock w + dt - clock w)%Z with dt by lia. reflexivity.
  - intros Hkey Hnone. unfold cacheRead. rewrite Hurl. fold (key (clock w2)).
    rewrite Hf2, Hw1, readFile_other.
    + rewrite Hnone. reflexivity.
    + rewrite Hc1 in Hkey. intros E. apply Hkey. symmetry. exact E.
Qed.

(** C4: a probe cached just before midnight is meant to be found just
    after it and judged by its age against the seven days.  The name of
    the cache file holds a hash of the current date, so the entry is
    looked up under another name once the date has changed.  The probe of
    https://acme.dev/pricing cached at 23:59:59 is served from the cache
    half a second later; two seconds later, past midnight, the key is
    another one, the entry (two seconds old, far below the seven days) is
    not found, and the page is requested and cached again. *)
Theorem cache_entry_missed_after_midnight :
  let body := js "Acme: an API and CLI for teams. Pricing per seat." in
  let probe_again w := fetchHtml Examples.acme Examples.pricing_page 5000 true w in
  toISOString (clock Examples.after_probe) = js "2023-12-31T23:59:59.000Z"
  /\ files Examples.after_probe
     = [(js ".cache/acme_dev__pricing_46828f4c.cache",
         CacheJson 200 body (clock Examples.after_probe))]
  /\ toISOString (clock Examples.same_evening) = js "2023-12-31T23:59:59.500Z"
  /\ probe_again Examples.same_evening
     = ({| fr_status := 200; fr_html := body; fr_cached := true |}, Examples.same_evening)
  /\ toISOString (clock Examples.after_midnight) = js "2024-01-01T00:00:01.000Z"
  /\ files Examples.after_midnight = files Examples.after_probe
  /\ (clock Examples.after_midnight - clock Examples.after_probe = 2000)%Z
  /\ (2000 < TTL)%Z
  /\ getCacheKey (clock Examples.after_midnight) (js "acme.dev") (js "/pricing")
     = js ".cache/acme_dev__pricing_d5ded465.cache"
  /\ cacheRead Examples.acme Examples.pricing_page Examples.after_midnight = None
  /\ fr_cached (fst (probe_again Examples.after_midnight)) = false
  /\ map fst (files (snd (probe_again Examples.after_midnight)))
     = [js ".cache/acme_dev__pricing_d5ded465.cache";
        js ".cache/acme_dev__pricing_46828f4c.cache"].
Proof.
  cbv zeta.
  split; [vm_compute; reflexivity |].
  split; [vm_compute; reflexivity |].
  split; [vm_compute; reflexivity |].
  split; [vm_compute; reflexivity |].
  split; [vm_compute; reflexivity |].
  split; [vm_compute; reflexivity |].
  split; [vm_compute; reflexivity |].
  split; [vm_compute; reflexivity |].
  split; [vm_compute; reflexivity |].
  split; [vm_compute; reflexivity |].
  split; vm_compute; reflexivity.
Qed.

(** Nor is it so that another day always gives another key: the hash is
    cut to eight digits, and two dates can share them. *)
Example two_days_one_key :
  isoDate 1929268800000 = js "2031-02-19" /\ isoDate 1929614400000 = js "2031-02-23"
  /\ getCacheKey 1929268800000 (js "app45748.dev") (js "/pricing")
     = getCacheKey 1929614400000 (js "app45748.dev") (js "/pricing").
Proof.
  split; [vm_compute; reflexivity |].
  split; vm_compute; reflexivity.
Qed.


(** ** Enrichment orchestrator *)

(** *** Fetching *)

(** A request that fails gives status 0 and an empty body. *)
Lemma fetchHtml_failure (X : Externals) (u : jsstring) (timeoutMs : Z) (useCache : bool)
      (w : World) :
  (useCache = false \/ cacheRead X u w = None) ->
  request_fails X timeoutMs u w ->
  fst (fetchHtml X u timeoutMs useCache w) = failed_fetch.
Proof.
  intros Hmiss Hfail. unfold fetchHtml.
  assert (E : (if useCache then cacheRead X u w else None) = None).
  { destruct Hmiss as [-> | ->]; [reflexivity | destruct useCache; reflexivity]. }
  rewrite E.
  destruct (Z.leb_spec timeoutMs (latency (network X (clock w) u))) as [Hle | Hgt];
    [reflexivity |].
  destruct Hfail as [Hlate | [why Hrej]]; [lia |].
  rewrite Hrej. reflexivity.
Qed.

(** A probe that fails adds nothing to the text and the loop goes on. *)
Lemma probe_failure (X : Externals) (home probePath extraHtml : jsstring) (w : World)
      (target : Url) :
  newURL_base X probePath home = Some target ->
  cacheRead X (url_href target) w = None ->
  request_fails X 5000 (url_href target) w ->
  fst (probe X home (extraHtml, w) probePath) = extraHtml.
Proof.
  intros Ht Hmiss Hfail. unfold probe. rewrite Ht.
  pose proof (fetchHtml_failure X (url_href target) 5000 true w (or_intror Hmiss) Hfail)
    as Hf.
  destruct (fetchHtml X (url_href target) 5000 true w) as [r w1].
  simpl in Hf. subst r. reflexivity.
Qed.

(** *** The loop body *)

(** The branch that resolves repository links is never entered: a host
    whose parsed name is github.com is on the skip list, and the loop
    has left such a candidate behind before it gets there. *)
Lemma not_skipped_not_github (X : Externals) (hostname : jsstring) :
  shouldSkip X hostname = false ->
  jseqb (opt_or (pr_hostname (parseDomain X hostname)) hostname) (js "github.com")
  = false.
Proof.
  intros Hskip.
  destruct (jseqb _ (js "github.com")) eqn:E; [| reflexivity].
  apply jseqb_eq in E. unfold shouldSkip in Hskip. rewrite E in Hskip.
  discriminate Hskip.
Qed.

(** The condition of the repository-resolution branch is false for every
    host name: it asks for the parsed name github.com and for a host that
    is not on the skip list, and github.com is on that list. *)
Lemma github_branch_dead (X : Externals) (hostname : jsstring) :
  jseqb (opt_or (pr_hostname (parseDomain X hostname)) hostname) (js "github.com")
  && negb (shouldSkip X hostname) = false.
Proof.
  destruct (shouldSkip X hostname) eqn:Hskip.
  - apply andb_false_r.
  - rewrite (not_skipped_not_github X hostname Hskip). reflexivity.
Qed.

Section Step.
Variable X : Externals.
Variable existingLeads : list (jsstring * jsstring).
Variables (u : jsstring) (st : State) (urlObj : Url).
Hypothesis Hurl : newURL X u = Some urlObj.
Hypothesis Hskip : shouldSkip X (url_hostname urlObj) = false.

Let hostname := url_hostname urlObj.
Let src := opt_or (map_get u (sourceMap st)) (js "unknown").
Let canon := getCanonical X hostname.
Let home := js "https://" ++ canon.
Let first := fetchHtml X u 7000 false (world st).
Let page := if truthy (fr_html (fst first)) then first
            else fetchHtml X home 7000 false (snd first).

(** A candidate whose identity is in the index is counted as skipped
    and left alone: no request, no lead. *)
Lemma step_skips_indexed :
  map_has canon existingLeads = true ->
  step X existingLeads u st
  = Some (with_stats (count_skipped (count_source src (stats st))) st).
Proof.
  subst hostname src canon home first page.
  intros Hin. unfold step. rewrite Hurl. cbv zeta.
  rewrite Hskip, Hin. reflexivity.
Qed.

Hypothesis Hnew : map_has canon existingLeads = false.

(** A candidate without a page is dropped: the state is the one before,
    but for the clock and the tally of its source. *)
Lemma step_without_page :
  truthy (fr_html (fst page)) = false ->
  step X existingLeads u st
  = Some (with_world (snd page) (with_stats (count_source src (stats st)) st)).
Proof.
  subst hostname src canon home first page.
  intros Hempty. unfold step. rewrite Hurl. cbv zeta.
  rewrite Hskip, Hnew.
  rewrite (not_skipped_not_github X (url_hostname urlObj) Hskip).
  cbn [andb world with_stats].
  destruct (fetchHtml X u 7000 false (world st)) as [f w1]. cbn [fst snd] in *.
  destruct (truthy (fr_html f)) eqn:Ef.
  - cbn [fst snd] in *. rewrite Hempty. reflexivity.
  - destruct (fetchHtml X _ 7000 false w1) as [p w2]. cbn [fst snd] in *.
    rewrite Hempty. reflexivity.
Qed.

End Step.

Lemma fetchHtml_failure_files (X : Externals) (u : jsstring) (timeoutMs : Z)
      (useCache : bool) (w : World) :
  (useCache = false \/ cacheRead X u w = None) ->
  request_fails X timeoutMs u w ->
  files (snd (fetchHtml X u timeoutMs useCache w)) = files w.
Proof.
  intros Hmiss Hfail. unfold fetchHtml.
  assert (E : (if useCache then cacheRead X u w else None) = None).
  { destruct Hmiss as [-> | ->]; [reflexivity | destruct useCache; reflexivity]. }
  rewrite E.
  destruct (Z.leb_spec timeoutMs (latency (network X (clock w) u))) as [Hle | Hgt];
    [reflexivity |].
  destruct Hfail as [Hlate | [why Hrej]]; [lia |].
  rewrite Hrej. reflexivity.
Qed.

(** The routing puts the lead into one of the two tables, as it is but
    for the filter reason; it is kept when the scorer passes it and the
    host is no builder platform. *)
Lemma route_places (X : Externals) (hostname : jsstring) (lead : Lead) (scoring : Scoring)
      (st : State) :
  exists l,
    same_but_reason l lead
    /\ (newLeads (route X hostname lead scoring st) = newLeads st ++ [l]
        /\ filteredLeads (route X hostname lead scoring st) = filteredLeads st
        \/ newLeads (route X hostname lead scoring st) = newLeads st
           /\ filteredLeads (route X hostname lead scoring st) = filteredLeads st ++ [l])
    /\ (isBuilder X hostname = false -> passed scoring = true ->
        newLeads (route X hostname lead scoring st) = newLeads st ++ [l]).
Proof.
  unfold route.
  destruct (isBuilder X hostname) eqn:Eb; cbn [andb].
  - destruct (Qlt_bool (weighted_score lead) (minimum_score THRESHOLDS)).
    + exists (set_filter_reason (js "builder_platform") lead).
      split; [reflexivity |].
      split; [right; split; reflexivity | discriminate].
    + destruct (passed scoring); cbn [negb].
      * exists lead. split; [reflexivity |].
        split; [left; split; reflexivity | discriminate].
      * exists (set_filter_reason (filterReason scoring) lead).
        split; [reflexivity |].
        split; [right; split; reflexivity | discriminate].
  - destruct (passed scoring); cbn [negb].
    + exists lead. split; [reflexivity |].
      split; [left; split; reflexivity | intros _ _; reflexivity].
    + exists (set_filter_reason (filterReason scoring) lead).
      split; [reflexivity |].
      split; [right; split; reflexivity | intros _ H; discriminate H].
Qed.

Section StepLead.
Variable X : Externals.
Variable existingLeads : list (jsstring * jsstring).
Variables (u : jsstring) (st : State) (urlObj : Url).
Hypothesis Hurl : newURL X u = Some urlObj.
Hypothesis Hskip : shouldSkip X (url_hostname urlObj) = false.
Hypothesis Hnew : map_has (getCanonical X (url_hostname urlObj)) existingLeads = false.

(** The turn of the loop for a candidate with a page: the probes are
    made from the world the page left, and the lead built from the
    page and what the probes brought is routed. *)
Lemma step_builds_lead :
  let hostname := url_hostname urlObj in
  let src := opt_or (map_get u (sourceMap st)) (js "unknown") in
  let canon := getCanonical X hostname in
  let home := js "https://" ++ canon in
  let first := fetchHtml X u 7000 false (world st) in
  let page := if truthy (fr_html (fst first)) then first
              else fetchHtml X home 7000 false (snd first) in
  let probed := fold_left (probe X home) probes ([], snd page) in
  let built := enrich X u src canon hostname (fst first) (fst page) (fst probed)
                      (clock (snd probed)) in
  truthy (fr_html (fst page)) = true ->
  step X existingLeads u st
  = Some (route X hostname (fst built) (snd built)
                (with_world (snd probed)
                            (with_stats (count_source src (stats st)) st))).
Proof.
  cbv zeta. intros Hpage. unfold step. rewrite Hurl. cbv zeta.
  rewrite Hskip, Hnew.
  rewrite (not_skipped_not_github X (url_hostname urlObj) Hskip).
  cbn [andb world with_stats].
  destruct (fetchHtml X u 7000 false (world st)) as [f w1]. cbn [fst snd] in *.
  destruct (if truthy (fr_html f) then (f, w1) else fetchHtml X _ 7000 false w1)
    as [p w2]. cbn [fst snd] in *. rewrite Hpage. cbn [negb].
  destruct (fold_left (probe X _) probes ([], w2)) as [extraHtml w3].
  cbn [fst snd].
  destruct (enrich X u _ _ _ f p extraHtml (clock w3)) as [lead scoring].
  reflexivity.
Qed.
End StepLead.

(** What the fields of the lead are made of. *)
Lemma enrich_fields (X : Externals) (u src canon hostname : jsstring)
      (first page : FetchResult) (extraHtml : jsstring) (now : Z) :
  let built := enrich X u src canon hostname first page extraHtml now in
  let dom := cheerio_load X (fr_html page) in
  let heading := slice0 200 (trim (or_else (dom_title dom) [])) in
  let scoring := scoreContent (fr_html page ++ extraHtml) heading u in
  snd built = scoring
  /\ source_url (fst built) = u
  /\ canonical (fst built) = canon
  /\ status (fst built) = fr_status first
  /\ title (fst built) = heading
  /\ value_prop (fst built) = extractValueProp dom
  /\ weighted_score (fst built)
     = (weightedScore scoring + (if isBuilder X hostname then - (5) else 0))%Q
  /\ team_cue (fst built) = teamCue scoring
  /\ emails (fst built)
     = join (js " | ")
            (firstn 5 (dedupe (extractEmails (fr_html page) ++ extractEmails extraHtml))).
Proof.
  cbv zeta. unfold enrich. cbv zeta.
  cbn [fst snd source_url canonical status title value_prop weighted_score team_cue emails].
  split; [reflexivity |]. split; [reflexivity |]. split; [reflexivity |].
  split; [reflexivity |]. split; [reflexivity |]. split; [reflexivity |].
  split; [reflexivity |]. split; reflexivity.
Qed.

Lemma same_but_reason_fields (l lead : Lead) :
  same_but_reason l lead ->
  source_url l = source_url lead /\ canonical l = canonical lead
  /\ status l = status lead /\ title l = title lead
  /\ value_prop l = value_prop lead /\ weighted_score l = weighted_score lead
  /\ team_cue l = team_cue lead /\ emails l = emails lead.
Proof.
  unfold same_but_reason. intros H.
  split; [exact (f_equal source_url H) |].
  split; [exact (f_equal canonical H) |].
  split; [exact (f_equal status H) |].
  split; [exact (f_equal title H) |].
  split; [exact (f_equal value_prop H) |].
  split; [exact (f_equal weighted_score H) |].
  split; [exact (f_equal team_cue H) | exact (f_equal emails H)].
Qed.

(** C7: every request that fails (no reply in time, a rejected fetch, a
    body that cannot be read) yields status 0 and an empty body, and
    writes no file.  The run goes on with the candidate.  A probe that
    fails adds nothing to the text, and the next probe is made.  When
    the request for the candidate's own URL fails, the loop body does
    not throw: it asks for the home page of the identity; without a
    body from there the candidate is left without a lead; with one, the
    candidate becomes one lead, with status 0, whose title and value
    proposition come from that page and whose score, team cue and
    addresses come from that page and the probes that answered; the
    lead is kept when the scorer passes it and the host is no builder
    platform. *)
Theorem failed_fetch_is_not_fatal (X : Externals) :
  (forall (u : jsstring) (timeoutMs : Z) (useCache : bool) (w : World),
      (useCache = false \/ cacheRead X u w = None) ->
      request_fails X timeoutMs u w ->
      fst (fetchHtml X u timeoutMs useCache w) = failed_fetch
      /\ files (snd (fetchHtml X u timeoutMs useCache w)) = files w)
  /\ (forall (home probePath extraHtml : jsstring) (w : World) (target : Url),
         newURL_base X probePath home = Some target ->
         cacheRead X (url_href target) w = None ->
         request_fails X 5000 (url_href target) w ->
         fst (probe X home (extraHtml, w) probePath) = extraHtml)
  /\ (forall (existingLeads : list (jsstring * jsstring)) (u : jsstring) (st : State)
             (urlObj : Url),
         newURL X u = Some urlObj ->
         shouldSkip X (url_hostname urlObj) = false ->
         map_has (getCanonical X (url_hostname urlObj)) existingLeads = false ->
         request_fails X 7000 u (world st) ->
         let hostname := url_hostname urlObj in
         let canon := getCanonical X hostname in
         let home := js "https://" ++ canon in
         let first := fetchHtml X u 7000 false (world st) in
         let page := fetchHtml X home 7000 false (snd first) in
         let probed := fold_left (probe X home) probes ([], snd page) in
         let dom := cheerio_load X (fr_html (fst page)) in
         let heading := slice0 200 (trim (or_else (dom_title dom) [])) in
         let scoring := scoreContent (fr_html (fst page) ++ fst probed) heading u in
         exists st',
           step X existingLeads u st = Some st'
           /\ (truthy (fr_html (fst page)) = false ->
               newLeads st' = newLeads st /\ filteredLeads st' = filteredLeads st)
           /\ (truthy (fr_html (fst page)) = true ->
               exists l,
                 (newLeads st' = newLeads st ++ [l]
                  /\ filteredLeads st' = filteredLeads st
                  \/ newLeads st' = newLeads st
                     /\ filteredLeads st' = filteredLeads st ++ [l])
                 /\ (isBuilder X hostname = false -> passed scoring = true ->
                     newLeads st' = newLeads st ++ [l])
                 /\ source_url l = u /\ canonical l = canon /\ status l = 0%Z
                 /\ title l = heading
                 /\ value_prop l = extractValueProp dom
                 /\ weighted_score l
                    = (weightedScore scoring
                       + (if isBuilder X hostname then - (5) else 0))%Q
                 /\ team_cue l = teamCue scoring
                 /\ emails l
                    = join (js " | ")
                           (firstn 5 (dedupe (extractEmails (fr_html (fst page))
                                              ++ extractEmails (fst probed)))))).
Proof.
  split.
  { intros u timeoutMs useCache w Hmiss Hfail.
    split; [apply fetchHtml_failure | apply fetchHtml_failure_files]; assumption. }
  split.
  { intros home probePath extraHtml w target Ht Hmiss Hfail. unfold probe. rewrite Ht.
    pose proof (fetchHtml_failure X (url_href target) 5000 true w (or_intror Hmiss) Hfail)
      as Hf.
    destruct (fetchHtml X (url_href target) 5000 true w) as [r w1].
    cbn [fst] in Hf. subst r. reflexivity. }
  intros existingLeads u st urlObj Hurl Hskip Hnew Hfail.
  intros hostname canon home first page probed dom heading scoring.
  assert (Hfirst : fst first = failed_fetch).
  { apply fetchHtml_failure; [left; reflexivity | exact Hfail]. }
  destruct (truthy (fr_html (fst page))) eqn:Hpage.
  - pose proof (step_builds_lead X existingLeads u st urlObj Hurl Hskip Hnew) as Hstep.
    cbv zeta in Hstep. fold hostname canon home first in Hstep.
    rewrite Hfirst in Hstep. cbn [failed_fetch fr_html truthy] in Hstep.
    fold page probed in Hstep. specialize (Hstep Hpage).
    set (src := opt_or (map_get u (sourceMap st)) (js "unknown")) in Hstep.
    set (built := enrich X u src canon hostname
                         {| fr_status := 0; fr_html := []; fr_cached := false |}
                         (fst page) (fst probed) (clock (snd probed))) in Hstep.
    destruct (enrich_fields X u src canon hostname
                {| fr_status := 0; fr_html := []; fr_cached := false |}
                (fst page) (fst probed) (clock (snd probed)))
      as [Hsc [Hsu [Hca [Hst [Hti [Hvp [Hws [Htc Hem]]]]]]]].
    cbv zeta in Hsc, Hsu, Hca, Hst, Hti, Hvp, Hws, Htc, Hem.
    fold built dom heading scoring in Hsc, Hsu, Hca, Hst, Hti, Hvp, Hws, Htc, Hem.
    destruct (route_places X hostname (fst built) (snd built)
                (with_world (snd probed)
                            (with_stats (count_source src (stats st)) st)))
      as [l [Hsame [Hwhere Hkept]]].
    destruct (same_but_reason_fields l (fst built) Hsame)
      as [Esu [Eca [Est [Eti [Evp [Ews [Etc Eem]]]]]]].
    eexists. split; [exact Hstep |].
    split; [intros H; discriminate H |].
    intros _. exists l.
    split; [exact Hwhere |].
    split; [rewrite Hsc in Hkept; exact Hkept |].
    split; [rewrite Esu; exact Hsu |].
    split; [rewrite Eca; exact Hca |].
    split; [rewrite Est; exact Hst |].
    split; [rewrite Eti; exact Hti |].
    split; [rewrite Evp; exact Hvp |].
    split; [rewrite Ews; exact Hws |].
    split; [rewrite Etc; exact Htc | rewrite Eem; exact Hem].
  - eexists. split.
    + apply (step_without_page X existingLeads u st urlObj Hurl Hskip Hnew).
      fold first. rewrite Hfirst. cbn [failed_fetch fr_html truthy].
      fold hostname canon home page. exact Hpage.
    + split; [intros _; split; reflexivity | intros H; discriminate H].
Qed.

Lemma failed_fetch_is_not_fatal_witness :
  fst (fetchHtml Examples.home_and_docs Examples.launch_page 7000 false Ref.world0)
  = failed_fetch
  /\ exists st' l,
      step Examples.home_and_docs [] Examples.launch_page
           (Examples.start Examples.launch_page) = Some st'
      /\ newLeads st' = [l] /\ filteredLeads st' = []
      /\ source_url l = Examples.launch_page /\ canonical l = js "acme.dev"
      /\ status l = 0%Z /\ title l = js "Acme"
      /\ value_prop l = js "An API for teams, with SSO"
      /\ (weighted_score l == 13)%Q /\ team_cue l = js "teams"
      /\ emails l = js "hello@acme.dev".
Proof.
  destruct (failed_fetch_is_not_fatal Examples.home_and_docs) as [Hfetch [_ Hstep]].
  assert (Hfail : request_fails Examples.home_and_docs 7000 Examples.launch_page
                                Ref.world0).
  { right. exists NetworkError. vm_compute. reflexivity. }
  split.
  { apply (Hfetch Examples.launch_page 7000%Z false Ref.world0);
      [left; reflexivity | exact Hfail]. }
  destruct (Hstep [] Examples.launch_page (Examples.start Examples.launch_page)
              {| url_hostname := js "acme.dev"; url_pathname := js "/launch";
                 url_href := js "https://acme.dev/launch" |})
    as [st' [Hst [_ Hlead]]].
  - vm_compute. reflexivity.
  - vm_compute. reflexivity.
  - vm_compute. reflexivity.
  - exact Hfail.
  - destruct Hlead as [l [Hwhere [Hkept [Hsu [Hca [Hs [Hti [Hvp [Hws [Htc Hem]]]]]]]]]].
    + vm_compute. reflexivity.
    + assert (Hnew : newLeads st' = [l]).
      { apply Hkept; vm_compute; reflexivity. }
      exists st', l. split; [exact Hst |].
      split; [exact Hnew |].
      split.
      { destruct Hwhere as [[_ Hf] | [Hn _]]; [exact Hf |].
        rewrite Hnew in Hn. discriminate Hn. }
      split; [exact Hsu |].
      split; [rewrite Hca; vm_compute; reflexivity |].
      split; [exact Hs |].
      split; [rewrite Hti; vm_compute; reflexivity |].
      split; [rewrite Hvp; vm_compute; reflexivity |].
      split; [rewrite Hws; vm_compute; reflexivity |].
      split; [rewrite Htc; vm_compute; reflexivity |].
      rewrite Hem. vm_compute. reflexivity.
Defined.

(** C8, as the program has it: a candidate whose first request and
    fallback request both come back without a body is dropped; no lead
    goes to either table, and of the statistics only the tally of
    candidates per source moves: no counter records the drop. *)
Theorem fetch_failed_candidate_dropped
        (X : Externals) (existingLeads : list (jsstring * jsstring))
        (u : jsstring) (st : State) (urlObj : Url) :
  newURL X u = Some urlObj ->
  shouldSkip X (url_hostname urlObj) = false ->
  map_has (getCanonical X (url_hostname urlObj)) existingLeads = false ->
  let first := fetchHtml X u 7000 false (world st) in
  let home := js "https://" ++ getCanonical X (url_hostname urlObj) in
  let page := fetchHtml X home 7000 false (snd first) in
  fr_html (fst first) = [] ->
  fr_html (fst page) = [] ->
  exists st',
    step X existingLeads u st = Some st'
    /\ newLeads st' = newLeads st
    /\ filteredLeads st' = filteredLeads st
    /\ stats st'
       = count_source (opt_or (map_get u (sourceMap st)) (js "unknown")) (stats st)
    /\ drops (stats st') = drops (stats st)
    /\ processed (stats st') = processed (stats st).
Proof.
  intros Hurl Hskip Hnew first home page Hfirst Hpage.
  eexists. split.
  - apply (step_without_page X existingLeads u st urlObj Hurl Hskip Hnew).
    fold first. rewrite Hfirst. cbn [truthy]. fold home. fold page.
    rewrite Hpage. reflexivity.
  - repeat split.
Qed.

Lemma fetch_failed_candidate_dropped_witness :
  exists st',
    step Examples.offline [] Examples.launch_page (Examples.start Examples.launch_page)
    = Some st'
    /\ newLeads st' = [] /\ filteredLeads st' = []
    /\ sources (stats st') = [(js "showhn", 1)]
    /\ drops (stats st') = 0 /\ processed (stats st') = 0.
Proof.
  destruct (fetch_failed_candidate_dropped
              Examples.offline [] Examples.launch_page
              (Examples.start Examples.launch_page)
              {| url_hostname := js "acme.dev"; url_pathname := js "/launch";
                 url_href := js "https://acme.dev/launch" |})
    as [st' [Hstep [Hn [Hf [Hs [Hd Hp]]]]]].
  - vm_compute. reflexivity.
  - vm_compute. reflexivity.
  - vm_compute. reflexivity.
  - vm_compute. reflexivity.
  - vm_compute. reflexivity.
  - exists st'. split; [exact Hstep |].
    split; [exact Hn |]. split; [exact Hf |].
    split; [rewrite Hs; vm_compute; reflexivity |].
    split; [exact Hd | exact Hp].
Defined.

(** C8 as stated fails: after the candidate is dropped no counter of the
    statistics that records drops has moved. *)
Lemma fetch_failure_not_counted :
  exists st',
    step Examples.offline [] Examples.launch_page (Examples.start Examples.launch_page)
    = Some st'
    /\ newLeads st' = [] /\ filteredLeads st' = []
    /\ ~ drops (stats (Examples.start Examples.launch_page)) < drops (stats st').
Proof.
  eexists. split; [vm_compute; reflexivity |].
  split; [reflexivity |]. split; [reflexivity |].
  vm_compute. lia.
Qed.


(** *** Whole runs *)

(** C2: a second run on the store of the first, with the same input
    lists and the same network, is meant to keep nothing new.  The store
    is read back by cutting each line at every comma, so a candidate URL
    with a comma in it shifts the columns: the index gets a piece of the
    URL as its key instead of the identity, the candidate is not found in
    it, and the second run fetches, scores and keeps acme.dev again. *)
Theorem second_run_keeps_comma_url_again :
  Examples.kept_identities (Examples.first_run Examples.comma_input)
  = Some [js "acme.dev"]
  /\ Examples.second_run_index Examples.comma_input = Some [js "b" ++ [34%N]]
  /\ Examples.kept_identities (Examples.second_run Examples.comma_input)
     = Some [js "acme.dev"].
Proof.
  split; [vm_compute; reflexivity |].
  split; vm_compute; reflexivity.
Qed.

(** The same run on a URL without a comma: the identity is the key, and
    the second run keeps nothing. *)
Example second_run_keeps_nothing_new :
  Examples.kept_identities (Examples.first_run Examples.plain_input)
  = Some [js "acme.dev"]
  /\ Examples.second_run_index Examples.plain_input = Some [js "acme.dev"]
  /\ Examples.kept_identities (Examples.second_run Examples.plain_input) = Some [].
Proof.
  split; [vm_compute; reflexivity |].
  split; vm_compute; reflexivity.
Qed.


(** *** Accounting *)

Lemma route_keeps_queue (X : Externals) (hostname : jsstring) (lead : Lead)
      (scoring : Scoring) (st : State) :
  urls (route X hostname lead scoring st) = urls st
  /\ sourceMap (route X hostname lead scoring st) = sourceMap st.
Proof.
  unfold route.
  destruct (isBuilder X hostname && _); [split; reflexivity |].
  destruct (negb (passed scoring)); split; reflexivity.
Qed.

(** The loop body never adds to the queue: the one place that does is the
    branch that is never entered. *)
Lemma step_keeps_queue (X : Externals) (existingLeads : list (jsstring * jsstring))
      (u : jsstring) (st st' : State) :
  step X existingLeads u st = Some st' ->
  urls st' = urls st /\ sourceMap st' = sourceMap st.
Proof.
  unfold step. destruct (newURL X u) as [urlObj |]; [| discriminate].
  cbv zeta.
  destruct (shouldSkip X (url_hostname urlObj)) eqn:Hskip.
  { intros H. injection H as <-. split; reflexivity. }
  destruct (map_has _ existingLeads).
  { intros H. injection H as <-. split; reflexivity. }
  rewrite (not_skipped_not_github X (url_hostname urlObj) Hskip). cbn [andb].
  destruct (fetchHtml X u 7000 false _) as [f w1].
  destruct (if truthy (fr_html f) then (f, w1) else fetchHtml X _ 7000 false w1)
    as [p w2].
  destruct (negb (truthy (fr_html p))).
  { intros H. injection H as <-. split; reflexivity. }
  destruct (fold_left (probe X _) probes ([], w2)) as [extraHtml w3].
  destruct (enrich X u _ _ _ f p extraHtml (clock w3)) as [lead scoring].
  intros H. injection H as <-.
  destruct (route_keeps_queue X (url_hostname urlObj) lead scoring
              (with_world w3
                 (with_stats
                    (count_source (opt_or (map_get u (sourceMap st)) (js "unknown"))
                                  (stats st)) st))) as [Hq Hs].
  rewrite Hq, Hs. split; reflexivity.
Qed.

Lemma step_defined (X : Externals) (existingLeads : list (jsstring * jsstring))
      (u : jsstring) (st : State) :
  newURL X u <> None -> step X existingLeads u st <> None.
Proof.
  intros Hurl. unfold step. destruct (newURL X u) as [urlObj |]; [| congruence].
  cbv zeta.
  destruct (shouldSkip X (url_hostname urlObj)); [discriminate |].
  destruct (map_has _ existingLeads); [discriminate |].
  destruct (_ && _).
  - destruct (fetchHtml X u 7000 false _) as [f w1].
    destruct (negb (truthy (fr_html f))); discriminate.
  - destruct (fetchHtml X u 7000 false _) as [f w1].
    destruct (if truthy (fr_html f) then (f, w1) else fetchHtml X _ 7000 false w1)
      as [p w2].
    destruct (negb (truthy (fr_html p))); [discriminate |].
    destruct (fold_left (probe X _) probes ([], w2)) as [extraHtml w3].
    destruct (enrich X u _ _ _ f p extraHtml (clock w3)) as [lead scoring].
    discriminate.
Qed.

(** With every queued URL parsing and fuel for each of them, the loop
    comes to its end, and a property that every turn of the body keeps
    holds at the end. *)
Lemma loop_finishes (X : Externals) (existingLeads : list (jsstring * jsstring))
      (P : State -> Prop) :
  (forall u st st', step X existingLeads u st = Some st' -> P st -> P st') ->
  forall (fuel i : nat) (st : State),
    Forall (fun u => newURL X u <> None) (urls st) ->
    length (urls st) - i <= fuel ->
    P st ->
    exists st', loop X existingLeads fuel i st = Finished st'
                /\ P st' /\ urls st' = urls st /\ sourceMap st' = sourceMap st.
Proof.
  intros Hstep fuel. induction fuel as [| fuel IH]; intros i st Hparse Hfuel HP.
  - simpl. destruct (nth_error (urls st) i) as [u |] eqn:E.
    + assert (i < length (urls st)) by (apply nth_error_Some; congruence). lia.
    + exists st. repeat split; assumption.
  - simpl. destruct (nth_error (urls st) i) as [u |] eqn:E.
    + assert (Hin : In u (urls st)) by (eapply nth_error_In; exact E).
      assert (Hu : newURL X u <> None).
      { rewrite Forall_forall in Hparse. apply Hparse. exact Hin. }
      destruct (step X existingLeads u st) as [st1 |] eqn:Es;
        [| exfalso; exact (step_defined X existingLeads u st Hu Es)].
      destruct (step_keeps_queue X existingLeads u st st1 Es) as [Hq Hs].
      destruct (IH (S i) st1) as [st' [Hl [HP' [Hq' Hs']]]].
      * rewrite Hq. exact Hparse.
      * rewrite Hq.
        assert (i < length (urls st)) by (apply nth_error_Some; congruence). lia.
      * exact (Hstep u st st1 Es HP).
      * exists st'. split; [exact Hl |]. split; [exact HP' |].
        split; congruence.
    + exists st. repeat split; assumption.
Qed.


(** *** The queue *)

Lemma has_In (xs : list jsstring) (x : jsstring) : has xs x = true <-> In x xs.
Proof.
  unfold has. rewrite existsb_exists. split.
  - intros [y [Hin E]]. apply jseqb_eq in E. subst y. exact Hin.
  - intros Hin. exists x. split; [exact Hin | apply jseqb_refl].
Qed.

Lemma map_has_set (k v : jsstring) (m : list (jsstring * jsstring)) :
  map_has k (map_set k v m) = true.
Proof.
  induction m as [| [k' v'] m IH]; simpl.
  - rewrite jseqb_refl. reflexivity.
  - destruct (jseqb k' k) eqn:E; simpl.
    + rewrite jseqb_refl. reflexivity.
    + rewrite E. exact IH.
Qed.

Lemma map_has_set_mono (k k' v : jsstring) (m : list (jsstring * jsstring)) :
  map_has k m = true -> map_has k (map_set k' v m) = true.
Proof.
  induction m as [| [k0 v0] m IH]; simpl; [discriminate |].
  intros H. destruct (jseqb k0 k') eqn:E; simpl.
  - apply jseqb_eq in E. subst k0. exact H.
  - destruct (jseqb k0 k); [reflexivity | apply IH; exact H].
Qed.

Lemma add_url_queue_ok (X : Externals) (source l : jsstring)
      (acc : list jsstring * list (jsstring * jsstring)) :
  queue_ok X (fst acc) (snd acc) ->
  queue_ok X (fst (add_url X source acc l)) (snd (add_url X source acc l)).
Proof.
  intros [Hnd Hall]. unfold add_url.
  destruct (negb (truthy (trim l))); [split; assumption |].
  destruct (newURL X (trim l)) as [url |] eqn:Hurl; [| split; assumption].
  cbn [fst snd]. split.
  - destruct (has (fst acc) (trim l)) eqn:Hhas; [exact Hnd |].
    apply NoDup_app; [exact Hnd | repeat constructor; intros [] | ].
    intros x Hin [Hx | []]. subst x.
    apply has_In in Hin. congruence.
  - assert (Hold : Forall (fun u => newURL X u <> None
                                    /\ map_has u (map_set (trim l) source (snd acc)) = true)
                          (fst acc)).
    { eapply Forall_impl; [| exact Hall]. intros v [Hv Hm].
      split; [exact Hv | apply map_has_set_mono; exact Hm]. }
    destruct (has (fst acc) (trim l)); [exact Hold |].
    apply Forall_app. split; [exact Hold |].
    constructor; [| constructor].
    split; [congruence | apply map_has_set].
Qed.

(** After the input files are read the set has no URL twice, every
    member parses, and every member has a source: the fallback tag
    [unknown] is never needed. *)
Lemma loadUrls_queue_ok (X : Externals) (inputs : list (jsstring * option jsstring)) :
  queue_ok X (fst (loadUrls X inputs)) (snd (loadUrls X inputs)).
Proof.
  unfold loadUrls.
  assert (H0 : queue_ok X (fst (@nil jsstring, @nil (jsstring * jsstring)))
                        (snd (@nil jsstring, @nil (jsstring * jsstring)))).
  { split; constructor. }
  revert H0. generalize (@nil jsstring, @nil (jsstring * jsstring)).
  induction inputs as [| [file content] inputs IH]; intros acc Hacc; [exact Hacc |].
  cbn [fold_left]. apply IH. cbn [snd fst].
  destruct content as [text |]; [| exact Hacc].
  generalize (split_unit 10 text). intros ls. revert acc Hacc.
  induction ls as [| l ls IHl]; intros acc Hacc; [exact Hacc |].
  cbn [fold_left]. apply IHl. apply add_url_queue_ok. exact Hacc.
Qed.

(** *** Source tags *)

Lemma map_get_set_same (k v : jsstring) (m : list (jsstring * jsstring)) :
  map_get k (map_set k v m) = Some v.
Proof.
  unfold map_get. induction m as [| [k' v'] m IH]; simpl.
  - rewrite jseqb_refl. reflexivity.
  - destruct (jseqb k' k) eqn:E; simpl.
    + rewrite jseqb_refl. reflexivity.
    + rewrite E. exact IH.
Qed.

Lemma map_get_set_other (k k' v : jsstring) (m : list (jsstring * jsstring)) :
  k' <> k -> map_get k (map_set k' v m) = map_get k m.
Proof.
  intros Hne. unfold map_get. induction m as [| [k0 v0] m IH]; simpl.
  - destruct (jseqb k' k) eqn:E; [| reflexivity].
    apply jseqb_eq in E. contradiction.
  - destruct (jseqb k0 k') eqn:E; simpl.
    + apply jseqb_eq in E. subst k0.
      destruct (jseqb k' k) eqn:E'; [| reflexivity].
      apply jseqb_eq in E'. contradiction.
    + destruct (jseqb k0 k); [reflexivity | exact IH].
Qed.

(** Reading a line keeps every queued URL tagged by a file it stands in:
    a URL read again takes the tag of the file now read. *)
Lemma add_url_tagged (X : Externals) (inputs : list (jsstring * option jsstring))
      (file text l : jsstring) (acc : list jsstring * list (jsstring * jsstring)) :
  In (file, Some text) inputs ->
  In l (split_unit 10 text) ->
  Forall (tagged_by_file inputs (snd acc)) (fst acc) ->
  Forall (tagged_by_file inputs (snd (add_url X (source_of_file file) acc l)))
         (fst (add_url X (source_of_file file) acc l)).
Proof.
  intros Hfile Hl Hall. unfold add_url.
  destruct (negb (truthy (trim l))); [exact Hall |].
  destruct (newURL X (trim l)) as [url |]; [| exact Hall].
  cbn [fst snd].
  assert (Hnew : tagged_by_file inputs (map_set (trim l) (source_of_file file) (snd acc))
                                (trim l)).
  { exists file, text. split; [exact Hfile |].
    split; [apply in_map; exact Hl | apply map_get_set_same]. }
  assert (Hold : Forall (tagged_by_file inputs
                           (map_set (trim l) (source_of_file file) (snd acc)))
                        (fst acc)).
  { eapply Forall_impl; [| exact Hall]. intros v Hv.
    destruct (list_eq_dec N.eq_dec (trim l) v) as [<- | Hne]; [exact Hnew |].
    destruct Hv as [f [t [Hf [Hin Hget]]]]. exists f, t.
    split; [exact Hf |]. split; [exact Hin |].
    rewrite (map_get_set_other v (trim l) _ _ Hne). exact Hget. }
  destruct (has (fst acc) (trim l)); [exact Hold |].
  apply Forall_app. split; [exact Hold |].
  constructor; [exact Hnew | constructor].
Qed.

Lemma lines_tagged (X : Externals) (inputs : list (jsstring * option jsstring))
      (file text : jsstring) (ls : list jsstring) :
  In (file, Some text) inputs ->
  incl ls (split_unit 10 text) ->
  forall acc : list jsstring * list (jsstring * jsstring),
    Forall (tagged_by_file inputs (snd acc)) (fst acc) ->
    Forall (tagged_by_file inputs
              (snd (fold_left (add_url X (source_of_file file)) ls acc)))
           (fst (fold_left (add_url X (source_of_file file)) ls acc)).
Proof.
  intros Hfile. induction ls as [| l ls IH]; intros Hlines acc Hacc; [exact Hacc |].
  cbn [fold_left]. apply IH; [intros x Hx; apply Hlines; right; exact Hx |].
  apply (add_url_tagged X inputs file text l acc Hfile); [| exact Hacc].
  apply Hlines. left. reflexivity.
Qed.

Lemma files_tagged (X : Externals) (inputs rest : list (jsstring * option jsstring)) :
  incl rest inputs ->
  forall acc : list jsstring * list (jsstring * jsstring),
    Forall (tagged_by_file inputs (snd acc)) (fst acc) ->
    let read :=
      fold_left (fun acc input =>
                   match snd input with
                   | None => acc
                   | Some text =>
                       fold_left (add_url X (source_of_file (fst input)))
                                 (split_unit 10 text) acc
                   end) rest acc in
    Forall (tagged_by_file inputs (snd read)) (fst read).
Proof.
  induction rest as [| [file content] rest IH]; intros Hincl acc Hacc; [exact Hacc |].
  cbn [fold_left]. apply IH; [intros x Hx; apply Hincl; right; exact Hx |].
  cbn [snd fst]. destruct content as [text |]; [| exact Hacc].
  apply (lines_tagged X inputs file text); [| apply incl_refl | exact Hacc].
  apply Hincl. left. reflexivity.
Qed.

Lemma loadUrls_tagged (X : Externals) (inputs : list (jsstring * option jsstring)) :
  Forall (tagged_by_file inputs (snd (loadUrls X inputs))) (fst (loadUrls X inputs)).
Proof.
  apply (files_tagged X inputs inputs (incl_refl inputs) ([], [])). constructor.
Qed.

(** *** The counters and the tables *)

Lemma verdict_cases (html title sourceUrl : jsstring) :
  (passed (scoreContent html title sourceUrl) = false
   /\ In (filterReason (scoreContent html title sourceUrl))
         [js "below_threshold"; js "no_dev_signal"; js "no_team_cue"])
  \/ (passed (scoreContent html title sourceUrl) = true
      /\ filterReason (scoreContent html title sourceUrl) = []
      /\ (minimum_score THRESHOLDS <= weightedScore (scoreContent html title sourceUrl))%Q
      /\ hasDevSignal (scoreContent html title sourceUrl) = true
      /\ hasTeamCue (scoreContent html title sourceUrl) = true).
Proof.
  unfold scoreContent.
  destruct (scan_tokens WEIGHTS (toLowerCase (html ++ js " " ++ title))) as [q sg].
  destruct (Qle_bool (minimum_score THRESHOLDS) q) eqn:Emin; cbn [negb].
  - cbn [require_dev_signal require_team_cue THRESHOLDS andb].
    destruct (0 <? length (sig_dev sg))%nat eqn:Edev; cbn [negb].
    + destruct (0 <? length (sig_team sg))%nat eqn:Eteam; cbn [negb].
      * right. cbn [passed filterReason weightedScore hasDevSignal hasTeamCue].
        split; [reflexivity |]. split; [reflexivity |].
        split; [apply Qle_bool_iff; exact Emin |].
        split; reflexivity.
      * left. cbn [passed filterReason]. split; [reflexivity |].
        right. right. left. reflexivity.
    + left. cbn [passed filterReason]. split; [reflexivity |].
      right. left. reflexivity.
  - left. cbn [passed filterReason]. split; [reflexivity |]. left. reflexivity.
Qed.

Lemma route_consistent (X : Externals) (hostname html title u : jsstring) (lead : Lead)
      (st : State) :
  filter_reason lead = [] ->
  weighted_score lead
  = (weightedScore (scoreContent html title u)
     + (if isBuilder X hostname then - (5) else 0))%Q ->
  consistent st ->
  consistent (route X hostname lead (scoreContent html title u) st).
Proof.
  intros Hreason Hscore [Hp [Hf [Hk Hd]]]. unfold route.
  destruct (isBuilder X hostname
            && Qlt_bool (weighted_score lead) (minimum_score THRESHOLDS)) eqn:Eb.
  - unfold consistent. cbn. rewrite length_app. cbn.
    split; [exact Hp |]. split; [lia |]. split; [exact Hk |].
    apply Forall_app. split; [exact Hd |].
    constructor; [| constructor]. unfold filtered_ok. cbn. left. reflexivity.
  - destruct (passed (scoreContent html title u)) eqn:Epass; cbn [negb].
    + destruct (verdict_cases html title u) as [[Hno _] | [_ [_ [Hmin _]]]];
        [congruence |].
      unfold consistent. cbn. rewrite length_app. cbn.
      split; [lia |]. split; [exact Hf |]. split; [| exact Hd].
      apply Forall_app. split; [exact Hk |].
      constructor; [| constructor]. split; [exact Hreason |].
      destruct (isBuilder X hostname) eqn:Ebuild; cbn [andb] in Eb.
      * unfold Qlt_bool in Eb. apply negb_false_iff in Eb.
        apply Qle_bool_iff in Eb. exact Eb.
      * rewrite Hscore. rewrite Qplus_0_r. exact Hmin.
    + assert (Hcount :
                forall reason,
                  In reason [js "below_threshold"; js "no_dev_signal"; js "no_team_cue"] ->
                  consistent
                    (push_filtered (set_filter_reason reason lead)
                                   (with_stats (count_filtered reason (stats st)) st))).
      { intros reason Hin. unfold consistent.
        destruct Hin as [<- | [<- | [<- | []]]]; cbn; rewrite length_app; cbn;
          (split; [exact Hp |]); (split; [lia |]); (split; [exact Hk |]);
          apply Forall_app; (split; [exact Hd |]);
          (constructor; [| constructor]); unfold filtered_ok; cbn; tauto. }
      apply Hcount.
      destruct (verdict_cases html title u) as [[_ Hin] | [Hyes _]];
        [exact Hin | congruence].
Qed.

(** Every turn of the loop body keeps the counters in step with the
    tables. *)
Lemma step_consistent (X : Externals) (existingLeads : list (jsstring * jsstring))
      (u : jsstring) (st st' : State) :
  step X existingLeads u st = Some st' -> consistent st -> consistent st'.
Proof.
  unfold step. destruct (newURL X u) as [urlObj |]; [| discriminate].
  cbv zeta. intros Hstep Hc.
  assert (Hc1 : forall w s,
             consistent (with_world w (with_stats (count_source s (stats st)) st))).
  { intros w s. exact Hc. }
  destruct (shouldSkip X (url_hostname urlObj)) eqn:Hskip.
  { injection Hstep as <-. exact Hc. }
  destruct (map_has _ existingLeads).
  { injection Hstep as <-. exact Hc. }
  rewrite (not_skipped_not_github X (url_hostname urlObj) Hskip) in Hstep.
  cbn [andb] in Hstep.
  destruct (fetchHtml X u 7000 false _) as [f w1].
  destruct (if truthy (fr_html f) then (f, w1) else fetchHtml X _ 7000 false w1)
    as [p w2].
  destruct (negb (truthy (fr_html p))).
  { injection Hstep as <-. apply Hc1. }
  destruct (fold_left (probe X _) probes ([], w2)) as [extraHtml w3].
  destruct (enrich X u _ _ _ f p extraHtml (clock w3)) as [lead scoring] eqn:Een.
  injection Hstep as <-.
  unfold enrich in Een. cbv zeta in Een. apply pair_equal_spec in Een.
  destruct Een as [Hlead Hscoring]. rewrite <- Hscoring.
  apply route_consistent; [rewrite <- Hlead; reflexivity .. | apply Hc1].
Qed.


Lemma loop_invariant (X : Externals) (existingLeads : list (jsstring * jsstring))
      (P : State -> Prop) :
  (forall u st st', step X existingLeads u st = Some st' -> P st -> P st') ->
  forall (fuel i : nat) (st st' : State),
    P st -> loop X existingLeads fuel i st = Finished st' -> P st'.
Proof.
  intros Hstep fuel. induction fuel as [| fuel IH]; intros i st st' HP Hloop.
  - simpl in Hloop. destruct (nth_error (urls st) i); [discriminate |].
    injection Hloop as <-. exact HP.
  - simpl in Hloop. destruct (nth_error (urls st) i) as [u |].
    + destruct (step X existingLeads u st) as [st1 |] eqn:Es; [| discriminate].
      exact (IH (S i) st1 st' (Hstep u st st1 Es HP) Hloop).
    + injection Hloop as <-. exact HP.
Qed.

Lemma run_unfold (X : Externals) (fuel : nat) (leads_csv : option jsstring)
      (inputs : list (jsstring * option jsstring)) (w : World) (r : RunResult) :
  run X fuel leads_csv inputs w = Finished r ->
  exists st, loop X (loadExisting X leads_csv) fuel 0 (start_state X inputs w) = Finished st
             /\ kept r = newLeads st /\ dropped r = filteredLeads st
             /\ run_stats r = stats st /\ end_world r = world st.
Proof.
  unfold run, start_state. destruct (loadUrls X inputs) as [urls0 sourceMap0].
  cbn [fst snd].
  destruct (loop X (loadExisting X leads_csv) fuel 0 _) as [st | |]; try discriminate.
  intros H. injection H as <-. exists st. repeat split.
Qed.

Lemma start_consistent (X : Externals) (inputs : list (jsstring * option jsstring))
      (w : World) :
  consistent (start_state X inputs w).
Proof.
  unfold consistent. cbn. repeat split; constructor.
Qed.

(** A run comes to its end: with fuel for each URL of the input lists the
    loop neither runs out of fuel nor throws, whatever the network, the
    parser and the store do. *)
Theorem run_finishes (X : Externals) (fuel : nat) (leads_csv : option jsstring)
        (inputs : list (jsstring * option jsstring)) (w : World) :
  length (fst (loadUrls X inputs)) <= fuel ->
  exists r, run X fuel leads_csv inputs w = Finished r.
Proof.
  intros Hfuel.
  destruct (loop_finishes X (loadExisting X leads_csv) (fun _ => True)
                          (fun _ _ _ _ _ => I) fuel 0 (start_state X inputs w))
    as [st [Hloop _]].
  - cbn [urls start_state].
    destruct (loadUrls_queue_ok X inputs) as [_ Hall].
    eapply Forall_impl; [| exact Hall]. intros u [Hu _]. exact Hu.
  - cbn [urls start_state]. lia.
  - exact I.
  - unfold run. unfold start_state in Hloop.
    destruct (loadUrls X inputs) as [urls0 sourceMap0]. cbn [fst snd] in Hloop.
    rewrite Hloop. eexists. reflexivity.
Qed.

Lemma run_finishes_witness :
  exists r, run Examples.acme 1 None Examples.plain_input Ref.world0 = Finished r.
Proof.
  apply (run_finishes Examples.acme 1 None Examples.plain_input Ref.world0).
  vm_compute. lia.
Defined.

(** At the end of a run the counters agree with the tables: [processed]
    is the number of kept leads, and the counters of the four filter
    reasons add up to the number of filtered leads. *)
Theorem run_stats_agree_with_tables
        (X : Externals) (fuel : nat) (leads_csv : option jsstring)
        (inputs : list (jsstring * option jsstring)) (w : World) (r : RunResult) :
  run X fuel leads_csv inputs w = Finished r ->
  processed (run_stats r) = length (kept r)
  /\ filtered_builder (run_stats r) + filtered_below_threshold (run_stats r)
     + filtered_no_dev_signal (run_stats r) + filtered_no_team_cue (run_stats r)
     = length (dropped r).
Proof.
  intros Hrun. destruct (run_unfold X fuel leads_csv inputs w r Hrun)
    as [st [Hloop [Hk [Hd [Hs _]]]]].
  destruct (loop_invariant X (loadExisting X leads_csv) consistent
                           (step_consistent X (loadExisting X leads_csv))
                           fuel 0 (start_state X inputs w) st
                           (start_consistent X inputs w) Hloop)
    as [Hp [Hf _]].
  rewrite Hk, Hd, Hs. split; assumption.
Qed.

(** Every kept lead has an empty filter reason and a score that meets the
    minimum; every filtered lead carries one of the reasons
    builder_platform, below_threshold, no_dev_signal and no_team_cue. *)
Theorem run_tables_well_formed
        (X : Externals) (fuel : nat) (leads_csv : option jsstring)
        (inputs : list (jsstring * option jsstring)) (w : World) (r : RunResult) :
  run X fuel leads_csv inputs w = Finished r ->
  Forall kept_ok (kept r) /\ Forall filtered_ok (dropped r).
Proof.
  intros Hrun. destruct (run_unfold X fuel leads_csv inputs w r Hrun)
    as [st [Hloop [Hk [Hd _]]]].
  destruct (loop_invariant X (loadExisting X leads_csv) consistent
                           (step_consistent X (loadExisting X leads_csv))
                           fuel 0 (start_state X inputs w) st
                           (start_consistent X inputs w) Hloop)
    as [_ [_ [Hkept Hfilt]]].
  rewrite Hk, Hd. split; assumption.
Qed.

Lemma plain_run_result :
  exists r, run Examples.acme 1 None Examples.plain_input Ref.world0 = Finished r.
Proof. eexists. vm_compute. reflexivity. Defined.

Lemma run_stats_agree_with_tables_witness :
  exists r,
    run Examples.acme 1 None Examples.plain_input Ref.world0 = Finished r
    /\ processed (run_stats r) = length (kept r)
    /\ filtered_builder (run_stats r) + filtered_below_threshold (run_stats r)
       + filtered_no_dev_signal (run_stats r) + filtered_no_team_cue (run_stats r)
       = length (dropped r).
Proof.
  destruct plain_run_result as [r Hr]. exists r. split; [exact Hr |].
  exact (run_stats_agree_with_tables Examples.acme 1 None Examples.plain_input
                                     Ref.world0 r Hr).
Defined.

Lemma run_tables_well_formed_witness :
  exists r,
    run Examples.acme 1 None Examples.plain_input Ref.world0 = Finished r
    /\ Forall kept_ok (kept r) /\ Forall filtered_ok (dropped r).
Proof.
  destruct plain_run_result as [r Hr]. exists r. split; [exact Hr |].
  exact (run_tables_well_formed Examples.acme 1 None Examples.plain_input
                                Ref.world0 r Hr).
Defined.


(** ** E-mail extraction *)

Lemma insert_desc_perm (score : jsstring -> Z) (x : jsstring) (l : list jsstring) :
  Permutation (insert_desc score x l) (x :: l).
Proof.
  induction l as [| y l IH]; simpl; [apply Permutation_refl |].
  destruct (score y <? score x)%Z; [apply Permutation_refl |].
  apply Permutation_trans with (y :: x :: l); [| apply perm_swap].
  apply perm_skip. exact IH.
Qed.

Lemma sort_desc_perm (score : jsstring -> Z) (l : list jsstring) :
  Permutation (sort_desc score l) l.
Proof.
  unfold sort_desc.
  assert (H : forall acc, Permutation (fold_left (fun a x => insert_desc score x a) l acc)
                                      (acc ++ l)).
  { induction l as [| x l IH]; intros acc; simpl.
    - rewrite app_nil_r. apply Permutation_refl.
    - eapply Permutation_trans; [apply IH |].
      eapply Permutation_trans;
        [apply Permutation_app_tail; apply insert_desc_perm |].
      simpl. apply Permutation_middle. }
  apply (H []).
Qed.

Lemma insert_desc_sorted (score : jsstring -> Z) (x : jsstring) (l : list jsstring) :
  StronglySorted (descending score) l ->
  StronglySorted (descending score) (insert_desc score x l).
Proof.
  induction l as [| y l IH]; intros Hs; simpl.
  - constructor; constructor.
  - inversion Hs as [| y' l' Hl Hy]; subst.
    destruct (Z.ltb_spec (score y) (score x)) as [Hlt | Hge].
    + constructor; [exact Hs |].
      constructor; [unfold descending; lia |].
      eapply Forall_impl; [| exact Hy]. unfold descending. intros a Ha. lia.
    + constructor; [apply IH; exact Hl |].
      apply Forall_forall. intros a Ha.
      apply (Permutation_in _ (insert_desc_perm score x l)) in Ha.
      destruct Ha as [<- | Ha]; [unfold descending; lia |].
      rewrite Forall_forall in Hy. apply Hy. exact Ha.
Qed.

Lemma sort_desc_sorted (score : jsstring -> Z) (l : list jsstring) :
  StronglySorted (descending score) (sort_desc score l).
Proof.
  unfold sort_desc.
  assert (H : forall acc, StronglySorted (descending score) acc ->
                          StronglySorted (descending score)
                            (fold_left (fun a x => insert_desc score x a) l acc)).
  { induction l as [| x l IH]; intros acc Hacc; simpl; [exact Hacc |].
    apply IH. apply insert_desc_sorted. exact Hacc. }
  apply H. constructor.
Qed.

Lemma firstn_In (A : Type) (n : nat) (l : list A) (x : A) :
  In x (firstn n l) -> In x l.
Proof.
  revert l. induction n as [| n IH]; intros l H; simpl in H; [contradiction |].
  destruct l as [| y l]; [contradiction |].
  destruct H as [-> | H]; [left; reflexivity | right; apply IH; exact H].
Qed.

Lemma firstn_sorted (R : jsstring -> jsstring -> Prop) (n : nat) (l : list jsstring) :
  StronglySorted R l -> StronglySorted R (firstn n l).
Proof.
  revert l. induction n as [| n IH]; intros l Hs; simpl; [constructor |].
  destruct l as [| x l]; [constructor |].
  inversion Hs as [| x' l' Hl Hx]; subst.
  constructor; [apply IH; exact Hl |].
  apply Forall_forall. intros a Ha. rewrite Forall_forall in Hx.
  apply Hx. eapply firstn_In; exact Ha.
Qed.

Lemma firstn_NoDup (n : nat) (l : list jsstring) : NoDup l -> NoDup (firstn n l).
Proof.
  revert l. induction n as [| n IH]; intros l Hnd; simpl; [constructor |].
  destruct l as [| x l]; [constructor |].
  inversion Hnd as [| x' l' Hx Hl]; subst.
  constructor; [| apply IH; exact Hl].
  intros Hin. apply Hx. eapply firstn_In; exact Hin.
Qed.

Lemma dedupe_acc_spec (xs seen : list jsstring) :
  NoDup (dedupe_acc seen xs)
  /\ forall x, In x (dedupe_acc seen xs) <-> In x xs /\ ~ In x seen.
Proof.
  revert seen. induction xs as [| y xs IH]; intros seen; simpl.
  - split; [constructor | intros x; tauto].
  - destruct (existsb (jseqb y) seen) eqn:E.
    + destruct (IH seen) as [Hnd Hin]. split; [exact Hnd |].
      intros x. rewrite Hin.
      assert (Hy : In y seen).
      { apply existsb_exists in E. destruct E as [z [Hz Ez]].
        apply jseqb_eq in Ez. subst z. exact Hz. }
      split; [tauto |]. intros [[<- | Hx] Hns]; [contradiction | tauto].
    + destruct (IH (y :: seen)) as [Hnd Hin].
      assert (Hy : ~ In y seen).
      { intros Hy. assert (existsb (jseqb y) seen = true) as E'; [| congruence].
        apply existsb_exists. exists y. split; [exact Hy | apply jseqb_refl]. }
      split.
      * constructor; [| exact Hnd]. rewrite Hin. simpl. tauto.
      * intros x. simpl. rewrite Hin. simpl.
        destruct (list_eq_dec N.eq_dec y x) as [-> | Hne]; [tauto |].
        split; [tauto |]. intros [[Hyx | Hx] Hns]; [contradiction | tauto].
Qed.

(** Whatever the page, the extracted list has at most five addresses, no
    address twice, none that holds a blocked pattern (noreply@, info@,
    admin@, example.com placeholders and the like), and it is ranked:
    no address stands behind one of lower rank. *)
Theorem extractEmails_clean_and_ranked (text : jsstring) :
  length (extractEmails text) <= 5
  /\ NoDup (extractEmails text)
  /\ Forall (fun e => blocked e = false) (extractEmails text)
  /\ StronglySorted (descending emailScore) (extractEmails text).
Proof.
  unfold extractEmails. cbv zeta.
  set (m := regex_match_all true email_regex (decodeHtmlEntities text)).
  set (kept := filter (fun e => negb (blocked e)) m).
  change (filter _ m) with kept.
  unfold dedupe.
  destruct (dedupe_acc_spec kept []) as [Hnd Hin].
  split; [apply firstn_le_length |].
  split.
  { apply firstn_NoDup.
    apply (Permutation_NoDup (Permutation_sym (sort_desc_perm emailScore (dedupe_acc [] kept)))).
    exact Hnd. }
  split.
  { apply Forall_forall. intros e He. apply firstn_In in He.
    apply (Permutation_in _ (sort_desc_perm emailScore (dedupe_acc [] kept))) in He.
    destruct (proj1 (Hin e) He) as [He' _]. unfold kept in He'.
    destruct (proj1 (filter_In _ e m) He') as [_ Hb].
    apply negb_true_iff. exact Hb. }
  apply firstn_sorted. apply sort_desc_sorted.
Qed.

(** The label follows the first address: none for an empty list, medium
    when the first address is a support@ or contact@ one, high
    otherwise; the label low of the README is never given. *)
Lemma getEmailConfidence_labels (emails : list jsstring) :
  In (getEmailConfidence emails) [js "none"; js "medium"; js "high"]
  /\ (getEmailConfidence emails = js "none" <-> emails = []).
Proof.
  unfold getEmailConfidence. destruct emails as [| e rest].
  - split; [left; reflexivity | split; reflexivity].
  - destruct (includes (toLowerCase e) (js "support@")
              || includes (toLowerCase e) (js "contact@")).
    + split; [right; left; reflexivity |].
      split; intros H; [vm_compute in H |]; discriminate H.
    + destruct (includes (toLowerCase e) (js "hello@")
                || includes (toLowerCase e) (js "team@")).
      * split; [right; right; left; reflexivity |].
        split; intros H; [vm_compute in H |]; discriminate H.
      * split; [right; right; left; reflexivity |].
        split; intros H; [vm_compute in H |]; discriminate H.
Qed.


(** *** The scenario of the three addresses *)

Lemma sorted_ahead (R : jsstring -> jsstring -> Prop) (a b : jsstring)
      (l : list jsstring) :
  StronglySorted R l -> ahead a b l -> R a b.
Proof.
  intros Hs [l1 [l2 [l3 ->]]].
  induction l1 as [| x l1 IH]; simpl in Hs.
  - inversion Hs as [| a' l' _ Hall]; subst.
    rewrite Forall_forall in Hall. apply Hall.
    apply in_or_app. right. left. reflexivity.
  - inversion Hs as [| x' l' Hl _]; subst. apply IH. exact Hl.
Qed.

Lemma sorted_app (R : jsstring -> jsstring -> Prop) (l1 l2 : list jsstring)
      (a b : jsstring) :
  StronglySorted R (l1 ++ l2) -> In a l1 -> In b l2 -> R a b.
Proof.
  induction l1 as [| x l1 IH]; intros Hs Ha Hb; [contradiction |].
  simpl in Hs. inversion Hs as [| x' l' Hl Hall]; subst.
  destruct Ha as [-> | Ha].
  - rewrite Forall_forall in Hall. apply Hall. apply in_or_app. right. exact Hb.
  - apply IH; assumption.
Qed.

Lemma two_members (a b : jsstring) (l : list jsstring) :
  In a l -> In b l -> a <> b -> ahead a b l \/ ahead b a l.
Proof.
  intros Ha Hb Hne.
  destruct (in_split a l Ha) as [l1 [l2 ->]].
  apply in_app_or in Hb. destruct Hb as [Hb | [Hb | Hb]].
  - right. destruct (in_split b l1 Hb) as [m1 [m2 ->]].
    exists m1, m2, l2. rewrite <- app_assoc. reflexivity.
  - contradiction.
  - left. destruct (in_split b l2 Hb) as [m1 [m2 ->]].
    exists l1, m1, m2. reflexivity.
Qed.

Lemma usable_In (text e : jsstring) :
  In e (usable_addresses text) <-> In e (addresses text) /\ blocked e = false.
Proof.
  unfold usable_addresses, dedupe.
  destruct (dedupe_acc_spec (filter (fun e => negb (blocked e)) (addresses text)) [])
    as [_ Hin].
  rewrite Hin, filter_In, negb_true_iff.
  split; [intros [H _]; exact H | intros H; split; [exact H | intros []]].
Qed.

Lemma extractEmails_usable (text : jsstring) :
  extractEmails text = firstn 5 (sort_desc emailScore (usable_addresses text)).
Proof.
  unfold extractEmails, usable_addresses, addresses, blocked. cbv zeta. reflexivity.
Qed.

Lemma extractEmails_In (text e : jsstring) :
  In e (extractEmails text) -> In e (addresses text) /\ blocked e = false.
Proof.
  rewrite extractEmails_usable. intros H. apply firstn_In in H.
  apply (Permutation_in _ (sort_desc_perm emailScore (usable_addresses text))) in H.
  exact (proj1 (usable_In text e) H).
Qed.

(** The label of a list whose first address ranks 3 or more is high. *)
Lemma high_from_rank (e : jsstring) (rest : list jsstring) :
  (3 <= emailScore e)%Z -> getEmailConfidence (e :: rest) = js "high".
Proof.
  unfold emailScore, getEmailConfidence. cbv zeta.
  destruct (includes (toLowerCase e) (js "support@")); [lia |].
  destruct (includes (toLowerCase e) (js "contact@")); [lia |].
  intros _. cbn [orb].
  destruct (includes (toLowerCase e) (js "hello@") || includes (toLowerCase e) (js "team@"));
    reflexivity.
Qed.

(** C5, as the program has it.  For every page text among whose
    addresses are hello@acme.com and support@acme.com: noreply@acme.com
    is not in the extracted list; the confidence label is high;
    support@acme.com never stands ahead of hello@acme.com; and when the
    text holds at most five distinct addresses that are not blocked, both
    are in the list, hello@acme.com ahead of support@acme.com.  The list
    has at most five addresses, and an address that is cut ranks no
    higher than any that is returned. *)
Theorem emails_filtered_and_ranked (text : jsstring) :
  In hello_acme (addresses text) ->
  In support_acme (addresses text) ->
  ~ In noreply_acme (extractEmails text)
  /\ getEmailConfidence (extractEmails text) = js "high"
  /\ ~ ahead support_acme hello_acme (extractEmails text)
  /\ (length (usable_addresses text) <= 5 ->
      ahead hello_acme support_acme (extractEmails text))
  /\ length (extractEmails text) <= 5
  /\ (forall e e' : jsstring,
         In e (extractEmails text) ->
         In e' (usable_addresses text) -> ~ In e' (extractEmails text) ->
         (emailScore e' <= emailScore e)%Z).
Proof.
  intros Hh Hs.
  assert (Hbh : blocked hello_acme = false) by (vm_compute; reflexivity).
  assert (Hbs : blocked support_acme = false) by (vm_compute; reflexivity).
  assert (Hrh : emailScore hello_acme = 3%Z) by (vm_compute; reflexivity).
  assert (Hrs : emailScore support_acme = 2%Z) by (vm_compute; reflexivity).
  pose proof (sort_desc_perm emailScore (usable_addresses text)) as Hperm.
  pose proof (sort_desc_sorted emailScore (usable_addresses text)) as Hsorted.
  assert (Hin : forall e, In e (addresses text) -> blocked e = false ->
                          In e (sort_desc emailScore (usable_addresses text))).
  { intros e He Hb. apply (Permutation_in _ (Permutation_sym Hperm)).
    exact (proj2 (usable_In text e) (conj He Hb)). }
  assert (Hnot : ~ ahead support_acme hello_acme (extractEmails text)).
  { intros Hah. rewrite extractEmails_usable in Hah.
    pose proof (sorted_ahead _ _ _ _ (firstn_sorted _ 5 _ Hsorted) Hah) as Hle.
    unfold descending in Hle. rewrite Hrh, Hrs in Hle. lia. }
  split.
  { intros Hn. apply extractEmails_In in Hn. destruct Hn as [_ Hb].
    vm_compute in Hb. discriminate Hb. }
  split.
  { rewrite extractEmails_usable.
    pose proof (Hin hello_acme Hh Hbh) as Hmem.
    destruct (sort_desc emailScore (usable_addresses text)) as [| e rest];
      [contradiction |].
    cbn [firstn]. apply high_from_rank.
    destruct Hmem as [E | Hmem]; [rewrite E, Hrh; lia |].
    inversion Hsorted as [| e' rest' _ Hall]; subst.
    rewrite Forall_forall in Hall. specialize (Hall hello_acme Hmem).
    unfold descending in Hall. rewrite Hrh in Hall. exact Hall. }
  split; [exact Hnot |].
  split.
  { intros Hlen.
    assert (Hall : extractEmails text = sort_desc emailScore (usable_addresses text)).
    { rewrite extractEmails_usable. apply firstn_all2.
      rewrite (Permutation_length Hperm). exact Hlen. }
    destruct (two_members hello_acme support_acme (extractEmails text)) as [H | H].
    - rewrite Hall. apply Hin; assumption.
    - rewrite Hall. apply Hin; assumption.
    - intros E. vm_compute in E. discriminate E.
    - exact H.
    - contradiction. }
  split; [rewrite extractEmails_usable; apply firstn_le_length |].
  intros e e' He He' Hcut. rewrite extractEmails_usable in He, Hcut.
  apply (Permutation_in _ (Permutation_sym Hperm)) in He'.
  rewrite <- (firstn_skipn 5 (sort_desc emailScore (usable_addresses text))) in He', Hsorted.
  apply in_app_or in He'. destruct He' as [He' | He']; [contradiction |].
  exact (sorted_app _ _ _ e e' Hsorted He He').
Qed.

Lemma emails_filtered_and_ranked_witness :
  addresses contact_page = [noreply_acme; support_acme; hello_acme]
  /\ extractEmails contact_page = [hello_acme; support_acme]
  /\ getEmailConfidence (extractEmails contact_page) = js "high"
  /\ ahead hello_acme support_acme (extractEmails contact_page).
Proof.
  assert (Ha : addresses contact_page = [noreply_acme; support_acme; hello_acme])
    by (vm_compute; reflexivity).
  destruct (emails_filtered_and_ranked contact_page) as [_ [Hlabel [_ [Hahead _]]]].
  - rewrite Ha. right. right. left. reflexivity.
  - rewrite Ha. right. left. reflexivity.
  - split; [exact Ha |].
    split; [vm_compute; reflexivity |].
    split; [exact Hlabel |].
    apply Hahead. vm_compute. lia.
Defined.

(** C5 as stated fails for a page that holds the three addresses and
    five personal ones: the personal addresses rank first, the list is
    cut after five, and neither hello@acme.com nor support@acme.com is
    returned. *)
Lemma crowded_page_cuts_role_addresses :
  In noreply_acme (addresses crowded_page)
  /\ In hello_acme (addresses crowded_page)
  /\ In support_acme (addresses crowded_page)
  /\ extractEmails crowded_page
     = map js ["ann@acme.com"; "bob@acme.com"; "cyd@acme.com"; "dee@acme.com";
               "eve@acme.com"]
  /\ ~ In hello_acme (extractEmails crowded_page)
  /\ ~ In support_acme (extractEmails crowded_page).
Proof.
  assert (Ha : addresses crowded_page
               = map js ["noreply@acme.com"; "hello@acme.com"; "support@acme.com";
                         "ann@acme.com"; "bob@acme.com"; "cyd@acme.com";
                         "dee@acme.com"; "eve@acme.com"])
    by (vm_compute; reflexivity).
  assert (He : extractEmails crowded_page
               = map js ["ann@acme.com"; "bob@acme.com"; "cyd@acme.com"; "dee@acme.com";
                         "eve@acme.com"])
    by (vm_compute; reflexivity).
  rewrite Ha, He.
  split; [left; reflexivity |].
  split; [right; left; reflexivity |].
  split; [right; right; left; reflexivity |].
  split; [reflexivity |].
  split; intros H; vm_compute in H; intuition discriminate.
Qed.


(** ** Freshness and the personalization hook *)

(** The freshness score lies between 0 and 5. *)
Lemma calculateFreshness_bounds (now discoveredAt : Z) (html title sourceUrl : jsstring) :
  (0 <= fst (calculateFreshness now discoveredAt html title sourceUrl) <= 5)%Z.
Proof.
  unfold calculateFreshness. cbv beta zeta. cbn [fst].
  destruct (now - discoveredAt <? 7 * msPerDay)%Z;
    destruct (now - discoveredAt <? 14 * msPerDay)%Z;
    destruct (now - discoveredAt <? 30 * msPerDay)%Z;
    destruct (regex_test true (word_alts ["show hn"; "product hunt"]) sourceUrl);
    destruct (regex_test true (word_alts ["launching"; "just launched"; "announcing"]) _);
    destruct (regex_test true (word_alts ["beta"; "early access"; "coming soon"]) _);
    lia.
Qed.

(** In the pipeline the age of a lead is measured against a time stamp
    taken at that moment, so it is zero: every lead gets the full
    recency bonus, a freshness of 3 to 5 and a launch context (New where
    nothing else applies). *)
Theorem lead_freshness (X : Externals) (u src canon hostname : jsstring)
        (first page : FetchResult) (extraHtml : jsstring) (now : Z) :
  let l := fst (enrich X u src canon hostname first page extraHtml now) in
  (3 <= freshness_score l <= 5)%Z
  /\ truthy (launch_context l) = true.
Proof.
  cbv zeta. unfold enrich. cbv zeta.
  cbn [fst freshness_score launch_context].
  unfold calculateFreshness. cbv beta zeta. cbn [fst snd].
  rewrite Z.sub_diag.
  change (0 <? 7 * msPerDay)%Z with true. cbv iota.
  split.
  - destruct (regex_test true (word_alts ["show hn"; "product hunt"]) u);
      destruct (regex_test true (word_alts ["launching"; "just launched"; "announcing"]) _);
      destruct (regex_test true (word_alts ["beta"; "early access"; "coming soon"]) _);
      lia.
  - destruct (regex_test true (seqs [lit "show"; RPlus (RSet false space_ranges); lit "hn"]) u);
      [reflexivity |].
    destruct (regex_test true (lit "producthunt") u); [reflexivity |].
    destruct (regex_test true (word_alts ["beta"; "early access"]) _); reflexivity.
Qed.

(** The personalization hook is never empty. *)
Theorem personalization_seed_not_empty (signals : Signals) (fl : Flags)
        (pricingModel launchContext : jsstring) :
  truthy (generatePersonalizationSeed signals fl pricingModel launchContext) = true.
Proof.
  unfold generatePersonalizationSeed. cbv zeta.
  destruct (truthy launchContext);
    destruct (sig_dev signals) as [| d ds];
    destruct (jseqb pricingModel (js "per_seat") || jseqb pricingModel (js "per_workspace"));
    destruct (f_api fl && f_webhook fl);
    destruct (sig_team signals) as [| [| t0 t] ts];
    reflexivity.
Qed.

(** ** Fetching: the clock and the cache directory *)

Lemma cacheWrite_clock (X : Externals) (u : jsstring) (status : Z) (html : jsstring)
      (w : World) :
  clock (cacheWrite X u status html w) = clock w.
Proof.
  unfold cacheWrite. destruct (newURL X u); reflexivity.
Qed.

(** The cache directory changes only when a probe with [useCache] gets a
    fresh response with a status from 200 to 399: a fetch without
    [useCache], a response served from the cache, a failure and any other
    status leave every file as it is. *)
Theorem fetchHtml_keeps_files (X : Externals) (u : jsstring) (timeoutMs : Z)
        (useCache : bool) (w : World) :
  useCache = false
  \/ fr_cached (fst (fetchHtml X u timeoutMs useCache w)) = true
  \/ ok_status (fr_status (fst (fetchHtml X u timeoutMs useCache w))) = false ->
  files (snd (fetchHtml X u timeoutMs useCache w)) = files w.
Proof.
  unfold fetchHtml.
  destruct (if useCache then cacheRead X u w else None); [reflexivity |].
  destruct (timeoutMs <=? latency (network X (clock w) u))%Z; [reflexivity |].
  destruct (outcome (network X (clock w) u)) as [status html | why]; [| reflexivity].
  fold (ok_status status). rewrite <- andb_assoc. fold (ok_status status).
  destruct useCache; cbn [andb]; [| reflexivity].
  destruct (ok_status status) eqn:Eok; [| reflexivity].
  cbn [fst snd fr_cached fr_status]. intros [H | [H | H]]; try discriminate H.
  congruence.
Qed.

Lemma fetchHtml_keeps_files_witness :
  files (snd (fetchHtml Examples.acme Examples.pricing_page 7000 false
                        Examples.before_midnight)) = [].
Proof.
  apply (fetchHtml_keeps_files Examples.acme Examples.pricing_page 7000 false
                               Examples.before_midnight).
  left. reflexivity.
Defined.

(** A probe that got a good response is answered from the cache for the
    rest of that calendar day: no request is sent, no time passes, and
    the body is the one received, cut to 200000 units. *)
Theorem refetch_same_day_served_from_cache
        (X : Externals) (u : jsstring) (url : Url) (timeoutMs timeoutMs' : Z)
        (w : World) (status : Z) (html : jsstring) (dt : Z) :
  newURL X u = Some url ->
  cacheRead X u w = None ->
  (latency (network X (clock w) u) < timeoutMs)%Z ->
  outcome (network X (clock w) u) = Responded status html ->
  ok_status status = true ->
  let w1 := snd (fetchHtml X u timeoutMs true w) in
  (0 <= dt < TTL)%Z ->
  isoDate (clock w1 + dt) = isoDate (clock w1) ->
  fetchHtml X u timeoutMs' true (sleep dt w1)
  = ({| fr_status := status; fr_html := slice0 200000 html; fr_cached := true |},
     sleep dt w1)
  /\ length (slice0 200000 html) <= N.to_nat 200000.
Proof.
  intros Hurl Hmiss Hlat Hout Hok w1 Hdt Hday.
  assert (Hw1 : w1 = cacheWrite X u status html (sleep (latency (network X (clock w) u)) w)).
  { unfold w1, fetchHtml. rewrite Hmiss.
    destruct (Z.leb_spec timeoutMs (latency (network X (clock w) u))); [lia |].
    rewrite Hout. unfold ok_status in Hok. cbn [andb]. rewrite Hok. reflexivity. }
  split.
  2: { apply slice0_length. }
  set (w0 := sleep (latency (network X (clock w) u)) w) in *.
  assert (Hc1 : clock w1 = clock w0) by (rewrite Hw1; apply cacheWrite_clock).
  assert (Hread : cacheRead X u (sleep dt w1)
                  = Some {| fr_status := status; fr_html := slice0 200000 html;
                            fr_cached := true |}).
  { unfold cacheRead. rewrite Hurl.
    assert (Hclock : clock (sleep dt w1) = (clock w1 + dt)%Z).
    { cbn [sleep clock]. rewrite Z.max_r by lia. reflexivity. }
    rewrite Hclock.
    rewrite (getCacheKey_same_day _ _ (url_hostname url) (url_pathname url) Hday).
    assert (Hfiles : files (sleep dt w1)
                     = files (writeFile
                                (getCacheKey (clock w0) (url_hostname url) (url_pathname url))
                                (CacheJson status (slice0 200000 html) (clock w0)) w0)).
    { cbn [sleep files]. rewrite Hw1. unfold cacheWrite. rewrite Hurl. reflexivity. }
    rewrite Hfiles, Hc1, readFile_written.
    replace (clock w0 + dt - clock w0)%Z with dt by lia.
    destruct (Z.ltb_spec dt TTL); [reflexivity | lia]. }
  unfold fetchHtml. rewrite Hread. reflexivity.
Qed.

Lemma refetch_same_day_served_from_cache_witness :
  fr_cached (fst (fetchHtml Examples.acme Examples.pricing_page 5000 true
                            (sleep 500 Examples.after_probe))) = true.
Proof.
  destruct (refetch_same_day_served_from_cache
              Examples.acme Examples.pricing_page
              {| url_hostname := js "acme.dev"; url_pathname := js "/pricing";
                 url_href := js "https://acme.dev/pricing" |}
              5000 5000 Examples.before_midnight 200
              (js "Acme: an API and CLI for teams. Pricing per seat.") 500)
    as [H _].
  - vm_compute. reflexivity.
  - vm_compute. reflexivity.
  - vm_compute. reflexivity.
  - vm_compute. reflexivity.
  - vm_compute. reflexivity.
  - vm_compute. split; [intros H; discriminate H | reflexivity].
  - vm_compute. reflexivity.
  - unfold Examples.after_probe. rewrite H. reflexivity.
Defined.


(** ** The store read back *)

Lemma plain_cell (c : jsstring) : plain c = true -> csv_cell c = c.
Proof.
  intros H. unfold csv_cell.
  assert (Hf : filter (fun x => negb (x =? 0)%N) c = c).
  { induction c as [| x c IH]; [reflexivity |].
    cbn [plain forallb] in H. apply andb_prop in H. destruct H as [Hx Hc].
    cbn [filter]. unfold special in Hx. destruct (x =? 0)%N; [discriminate Hx |].
    cbn [negb]. rewrite (IH Hc). reflexivity. }
  rewrite Hf.
  assert (Hq : existsb (N.eqb 34) c = false).
  { clear Hf. induction c as [| x c IH]; [reflexivity |].
    cbn [plain forallb] in H. apply andb_prop in H. destruct H as [Hx Hc].
    cbn [existsb]. rewrite (IH Hc). unfold special in Hx. rewrite (N.eqb_sym 34 x).
    destruct (x =? 0)%N, (x =? 34)%N; try discriminate Hx; reflexivity. }
  rewrite Hq.
  assert (Hs : existsb (fun x => (x =? 44) || (x =? 10) || (x =? 13) || (x =? 124))%N c
               = false).
  { clear Hf Hq. induction c as [| x c IH]; [reflexivity |].
    cbn [plain forallb] in H. apply andb_prop in H. destruct H as [Hx Hc].
    cbn [existsb]. rewrite (IH Hc). unfold special in Hx.
    destruct (x =? 0)%N, (x =? 34)%N, (x =? 44)%N, (x =? 10)%N, (x =? 13)%N,
      (x =? 124)%N; try discriminate Hx; reflexivity. }
  rewrite Hs. reflexivity.
Qed.

Lemma plain_no_comma (c : jsstring) : plain c = true -> ~ In 44%N c.
Proof.
  intros H Hin. unfold plain in H. rewrite forallb_forall in H.
  specialize (H _ Hin). discriminate H.
Qed.

Lemma split_unit_head (sep : N) (a r : jsstring) :
  ~ In sep a -> split_unit sep (a ++ sep :: r) = a :: split_unit sep r.
Proof.
  induction a as [| c a IH]; intros Hnot; simpl.
  - rewrite N.eqb_refl. reflexivity.
  - destruct (N.eqb_spec c sep) as [-> | Hne]; [exfalso; apply Hnot; left; reflexivity |].
    rewrite IH; [reflexivity |]. intros Hin. apply Hnot. right. exact Hin.
Qed.

Lemma trimStart_app (x y : jsstring) (c : N) :
  is_space c = false -> trimStart (x ++ c :: y) = trimStart x ++ c :: y.
Proof.
  intros Hc. induction x as [| a x IH]; simpl.
  - rewrite Hc. reflexivity.
  - destruct (is_space a); [exact IH | reflexivity].
Qed.

Lemma trimEnd_app (a r : jsstring) (c : N) :
  is_space c = false -> trimEnd (a ++ c :: r) = a ++ c :: trimEnd r.
Proof.
  intros Hc. unfold trimEnd.
  rewrite rev_app_distr. simpl. rewrite <- app_assoc. simpl.
  rewrite (trimStart_app (rev r) (rev a) c Hc).
  rewrite rev_app_distr. simpl. rewrite rev_involutive, <- app_assoc. reflexivity.
Qed.

Lemma trimStart_head (s : jsstring) : is_space (hd 32%N s) = false -> trimStart s = s.
Proof.
  destruct s as [| c s]; simpl; [reflexivity |]. intros H. rewrite H. reflexivity.
Qed.

(** The line of a row whose first four cells are plain is cut back into
    those cells. *)
Lemma plain_line_parts (d s u c e : jsstring) (more : list jsstring) :
  plain d = true -> plain s = true -> plain u = true -> plain c = true ->
  is_space (hd 32%N d) = false ->
  exists rest,
    split_unit 44 (trim (csv_line (d :: s :: u :: c :: e :: more)))
    = d :: s :: u :: c :: rest
    /\ trim (csv_line (d :: s :: u :: c :: e :: more)) <> [].
Proof.
  intros Hd Hs Hu Hc Hsp.
  unfold csv_line. cbn [map].
  rewrite (plain_cell d Hd), (plain_cell s Hs), (plain_cell u Hu), (plain_cell c Hc).
  set (tail := join (js ",") (csv_cell e :: map csv_cell more)).
  assert (Hline : join (js ",") (d :: s :: u :: c :: csv_cell e :: map csv_cell more)
                  = (d ++ 44%N :: s ++ 44%N :: u ++ 44%N :: c) ++ 44%N :: tail).
  { unfold tail. change (js ",") with [44%N]. cbn [join].
    repeat (rewrite <- app_assoc; cbn [app]). reflexivity. }
  rewrite Hline. unfold trim.
  assert (Hstart : trimStart ((d ++ 44%N :: s ++ 44%N :: u ++ 44%N :: c) ++ 44%N :: tail)
                   = (d ++ 44%N :: s ++ 44%N :: u ++ 44%N :: c) ++ 44%N :: tail).
  { apply trimStart_head. destruct d; [reflexivity | exact Hsp]. }
  rewrite Hstart. rewrite trimEnd_app by reflexivity.
  exists (split_unit 44 (trimEnd tail)). split.
  - repeat (rewrite <- app_assoc; cbn [app]).
    rewrite (split_unit_head 44 d) by (apply plain_no_comma; exact Hd).
    rewrite (split_unit_head 44 s) by (apply plain_no_comma; exact Hs).
    rewrite (split_unit_head 44 u) by (apply plain_no_comma; exact Hu).
    rewrite (split_unit_head 44 c) by (apply plain_no_comma; exact Hc).
    reflexivity.
  - intros H. apply (f_equal (@length N)) in H.
    rewrite !length_app in H. simpl in H. lia.
Qed.

Lemma truthy_nonempty (s : jsstring) : s <> [] -> truthy s = true.
Proof. destruct s; [congruence | reflexivity]. Qed.

(** Reading a line never takes a key out of the index. *)
Lemma load_line_mono (X : Externals) (m : list (jsstring * jsstring)) (raw k : jsstring) :
  map_has k m = true -> map_has k (load_line X m raw) = true.
Proof.
  intros H. unfold load_line.
  destruct (negb (truthy (trim raw))); [exact H |].
  destruct (2 <? length (split_unit 44 (trim raw))); [| exact H].
  destruct (nth_error (split_unit 44 (trim raw)) 3) as [c |]; [| exact H].
  destruct (truthy c); [| exact H].
  destruct (newURL X (nth 2 (split_unit 44 (trim raw)) [])) as [url |].
  - destruct (negb (shouldSkip X (url_hostname url))); [| exact H].
    apply map_has_set_mono. exact H.
  - apply map_has_set_mono. exact H.
Qed.

Lemma load_line_plain_lead (X : Externals) (m : list (jsstring * jsstring)) (l : Lead) :
  plain_head l ->
  (forall url, newURL X (source_url l) = Some url ->
               shouldSkip X (url_hostname url) = false) ->
  map_has (canonical l) (load_line X m (csv_line (lead_row l))) = true.
Proof.
  intros [Hd [Hs [Hu [Hc [Hsp Hne]]]]] Hskip.
  unfold lead_row.
  match goal with
  | |- context [csv_line (_ :: _ :: _ :: _ :: _ :: ?more)] =>
      destruct (plain_line_parts (discovered_at l) (source l) (source_url l)
                                 (canonical l) (title l) more Hd Hs Hu Hc Hsp)
        as [rest [Hparts Hline]]
  end.
  unfold load_line. rewrite (truthy_nonempty _ Hline). cbn [negb].
  rewrite Hparts. cbn [length Nat.ltb Nat.leb nth_error nth].
  rewrite Hne.
  destruct (newURL X (source_url l)) as [url |] eqn:Hurl.
  - rewrite (Hskip url eq_refl). cbn [negb]. apply map_has_set.
  - apply map_has_set.
Qed.

(** The positive side of deduplication: a lead with plain first cells,
    whose line stands in the store below the header, is found in the
    index under its identity, unless its URL now classifies as skip. *)
Theorem stored_plain_lead_is_indexed (X : Externals) (text : jsstring) (l : Lead) :
  plain_head l ->
  (forall url, newURL X (source_url l) = Some url ->
               shouldSkip X (url_hostname url) = false) ->
  In (csv_line (lead_row l)) (tl (split_unit 10 text)) ->
  map_has (canonical l) (loadExisting X (Some text)) = true.
Proof.
  intros Hplain Hskip Hin. unfold loadExisting.
  generalize (@nil (jsstring * jsstring)).
  induction (tl (split_unit 10 text)) as [| raw ls IH]; intros m; [contradiction |].
  cbn [fold_left]. destruct Hin as [-> | Hin].
  - assert (H : map_has (canonical l) (load_line X m (csv_line (lead_row l))) = true)
      by (apply load_line_plain_lead; assumption).
    revert H. generalize (load_line X m (csv_line (lead_row l))).
    clear IH. induction ls as [| raw' ls IH']; intros m' H; [exact H |].
    cbn [fold_left]. apply IH'. apply load_line_mono. exact H.
  - apply IH. exact Hin.
Qed.


(** ** The name of a cache file *)

Lemma pieces_one_unit (icase : bool) (r : regex) (P : N -> bool) :
  one_unit icase r P ->
  forall (s : jsstring) (fuel : nat) (prev : option N),
    length s < fuel ->
    pieces fuel icase r prev s = map (fun x => if P x then Hit [x] else Unit x) s.
Proof.
  intros Hr s. induction s as [| x s IH]; intros fuel prev Hfuel.
  - destruct fuel as [| fuel]; [inversion Hfuel |].
    cbn [pieces map]. rewrite (Hr prev []). reflexivity.
  - destruct fuel as [| fuel]; [inversion Hfuel |].
    cbn [pieces map]. rewrite (Hr prev (x :: s)).
    assert (Hlt : length s < fuel) by (simpl in Hfuel; lia).
    destruct (P x).
    + cbn [firstn skipn last]. rewrite (IH fuel (Some x) Hlt). reflexivity.
    + rewrite (IH fuel (Some x) Hlt). reflexivity.
Qed.

(** Replacing every match of a one-unit pattern goes unit by unit. *)
Lemma replace_one_unit (icase : bool) (r : regex) (P : N -> bool)
      (f : jsstring -> jsstring) (s : jsstring) :
  one_unit icase r P ->
  regex_replace_all icase r f s = flat_map (fun x => if P x then f [x] else [x]) s.
Proof.
  intros Hr. unfold regex_replace_all.
  rewrite (pieces_one_unit icase r P Hr s (S (length s)) None) by lia.
  induction s as [| x s IH]; [reflexivity |].
  cbn [map flat_map]. rewrite IH. destruct (P x); reflexivity.
Qed.

Lemma one_unit_set (icase neg : bool) (ranges : list (N * N)) :
  one_unit icase (RSet neg ranges) (fun x => xorb neg (in_ranges icase ranges x)).
Proof.
  intros prev s. unfold match_here. cbn [rmatch].
  destruct s as [| x s]; [reflexivity |].
  destruct (xorb neg (in_ranges icase ranges x)); [| reflexivity].
  f_equal. cbn [length]. lia.
Qed.

Lemma one_unit_char (icase : bool) (c : N) :
  one_unit icase (RSeq (RChar c) REps) (fun x => unit_eq icase c x).
Proof.
  intros prev s. unfold match_here. cbn [rmatch].
  destruct s as [| x s]; [reflexivity |].
  destruct (unit_eq icase c x); [| reflexivity].
  f_equal. cbn [length]. lia.
Qed.

Lemma hex_no_slash (bs : list N) : ~ In 47%N (MD5.hex bs).
Proof.
  unfold MD5.hex. intros H. apply in_flat_map in H. destruct H as [b [_ H]].
  assert (Hd : forall n, MD5.hex_digit n <> 47%N).
  { intros n. unfold MD5.hex_digit. destruct (n <? 10)%N; lia. }
  destruct H as [H | [H | []]]; exact (Hd _ H).
Qed.

Lemma alnum_not_slash (x : N) :
  in_ranges true [(97, 122); (48, 57)]%N x = true -> x <> 47%N.
Proof.
  intros H ->. vm_compute in H. discriminate H.
Qed.

(** Whatever the host name and the path, the cache file lies directly in
    the cache directory: after [.cache/] its name holds no slash. *)
Theorem cache_file_stays_in_cache_dir (now : Z) (canon path : jsstring) :
  exists name,
    getCacheKey now canon path = js ".cache/" ++ name /\ ~ In 47%N name.
Proof.
  unfold getCacheKey. cbv zeta.
  change (ncls "" ["az"; "09"]) with (RSet true [(97, 122); (48, 57)]%N).
  change (lit "/") with (RSeq (RChar 47) REps).
  rewrite (replace_one_unit true _ _ _ canon (one_unit_set true true _)).
  rewrite (replace_one_unit false _ _ _ path (one_unit_char false 47)).
  eexists. split.
  - unfold CACHE_DIR. change (js ".cache/") with (js ".cache" ++ js "/").
    rewrite <- app_assoc. reflexivity.
  - intros Hin.
    apply in_app_or in Hin. destruct Hin as [Hin | Hin].
    { apply in_flat_map in Hin. destruct Hin as [x [_ Hx]].
      destruct (in_ranges true [(97, 122); (48, 57)]%N x) eqn:E; cbn [xorb negb] in Hx.
      - destruct Hx as [Hx | []]. exact (alnum_not_slash x E Hx).
      - vm_compute in Hx. destruct Hx as [Hx | []]. discriminate Hx. }
    apply in_app_or in Hin. destruct Hin as [Hin | Hin].
    { vm_compute in Hin. destruct Hin as [Hin | []]. discriminate Hin. }
    apply in_app_or in Hin. destruct Hin as [Hin | Hin].
    { apply in_flat_map in Hin. destruct Hin as [x [_ Hx]].
      unfold unit_eq in Hx. destruct (47 =? x)%N eqn:E.
      - vm_compute in Hx. destruct Hx as [Hx | []]. discriminate Hx.
      - destruct Hx as [Hx | []]. subst x. rewrite N.eqb_refl in E. discriminate E. }
    apply in_app_or in Hin. destruct Hin as [Hin | Hin].
    { vm_compute in Hin. destruct Hin as [Hin | []]. discriminate Hin. }
    apply in_app_or in Hin. destruct Hin as [Hin | Hin].
    { unfold slice0, md5_hex in Hin. apply firstn_In in Hin.
      exact (hex_no_slash _ Hin). }
    vm_compute in Hin. intuition discriminate.
Qed.

Example cache_key_of_a_crafted_path :
  getCacheKey 1704067199000 (js "evil.example") (js "/../../etc/passwd")
  = js ".cache/evil_example__.._.._etc_passwd_40436b38.cache".
Proof. vm_compute. reflexivity. Qed.


(** ** The loop body, case by case *)

(** The loop body never adds a candidate: the queue and the source map
    are the same after every turn.  The repository-resolution branch,
    the only place that enqueues, is never taken. *)
Theorem loop_body_never_enqueues
        (X : Externals) (existingLeads : list (jsstring * jsstring))
        (u : jsstring) (st st' : State) :
  step X existingLeads u st = Some st' ->
  urls st' = urls st /\ sourceMap st' = sourceMap st.
Proof. apply step_keeps_queue. Qed.

Lemma repo_step_result :
  exists st', step Examples.acme [] More.repo_page (Examples.start More.repo_page)
              = Some st'.
Proof. eexists. vm_compute. reflexivity. Defined.

Lemma loop_body_never_enqueues_witness :
  exists st',
    step Examples.acme [] More.repo_page (Examples.start More.repo_page) = Some st'
    /\ urls st' = [More.repo_page].
Proof.
  destruct repo_step_result as [st' Hst]. exists st'. split; [exact Hst |].
  destruct (loop_body_never_enqueues Examples.acme [] More.repo_page
                                     (Examples.start More.repo_page) st' Hst) as [Hq _].
  rewrite Hq. reflexivity.
Defined.

(** The set read from the input files has no URL twice; every member
    parses, stands on a line of one of the input files, and is tagged in
    the source map with the source of such a file: its name without
    [_urls.txt] and [.txt].  The loop falls back to the tag unknown only
    where that source is the empty string, as for a file named
    _urls.txt. *)
Theorem input_queue_well_formed
        (X : Externals) (inputs : list (jsstring * option jsstring)) :
  NoDup (fst (loadUrls X inputs))
  /\ Forall (fun u => newURL X u <> None
                      /\ tagged_by_file inputs (snd (loadUrls X inputs)) u)
            (fst (loadUrls X inputs))
  /\ Forall (fun u => forall tag,
                 map_get u (snd (loadUrls X inputs)) = Some tag -> tag <> [] ->
                 opt_or (map_get u (snd (loadUrls X inputs))) (js "unknown") = tag)
            (fst (loadUrls X inputs))
  /\ map (fun u => (map_get u (snd (loadUrls Examples.acme untagged_input)),
                    opt_or (map_get u (snd (loadUrls Examples.acme untagged_input)))
                           (js "unknown")))
         (fst (loadUrls Examples.acme untagged_input))
     = [(Some [], js "unknown")].
Proof.
  destruct (loadUrls_queue_ok X inputs) as [Hnd Hall].
  pose proof (loadUrls_tagged X inputs) as Htag.
  split; [exact Hnd |].
  split.
  { rewrite Forall_forall in *. intros u Hu.
    split; [exact (proj1 (Hall u Hu)) | exact (Htag u Hu)]. }
  split.
  { apply Forall_forall. intros u _ tag Hget Hne. rewrite Hget.
    unfold opt_or, or_else. destruct tag as [| c tag]; [congruence | reflexivity]. }
  vm_compute. reflexivity.
Qed.

Lemma input_queue_well_formed_witness :
  fst (loadUrls Examples.acme Examples.plain_input) = [js "https://acme.dev/"]
  /\ Forall (tagged_by_file Examples.plain_input
                            (snd (loadUrls Examples.acme Examples.plain_input)))
            (fst (loadUrls Examples.acme Examples.plain_input))
  /\ opt_or (map_get (js "https://acme.dev/")
                     (snd (loadUrls Examples.acme Examples.plain_input)))
            (js "unknown") = js "showhn".
Proof.
  assert (Hq : fst (loadUrls Examples.acme Examples.plain_input) = [js "https://acme.dev/"])
    by (vm_compute; reflexivity).
  destruct (input_queue_well_formed Examples.acme Examples.plain_input)
    as [_ [Htag [Hfall _]]].
  split; [exact Hq |].
  split.
  { eapply Forall_impl; [| exact Htag]. intros u [_ H]. exact H. }
  rewrite Hq in Hfall. inversion Hfall as [| u us Hu _]; subst.
  apply Hu; [vm_compute; reflexivity | discriminate].
Defined.

Lemma Qlt_bool_true (a b : Q) : Qlt_bool a b = true <-> (a < b)%Q.
Proof.
  unfold Qlt_bool. rewrite negb_true_iff. split.
  - intros H. apply Qnot_le_lt. intros Hle. apply Qle_bool_iff in Hle. congruence.
  - intros H. destruct (Qle_bool b a) eqn:E; [| reflexivity].
    apply Qle_bool_iff in E. exfalso. exact (Qlt_not_le _ _ H E).
Qed.

Lemma Qlt_bool_false (a b : Q) : Qlt_bool a b = false <-> (b <= a)%Q.
Proof.
  unfold Qlt_bool. rewrite negb_false_iff. apply Qle_bool_iff.
Qed.

(** The verdict of the scorer is all or first failure.  It passes exactly
    when the score meets the minimum and there are a dev signal and a
    team cue, and then the reason is empty.  The reason is
    below_threshold exactly when the score is below the minimum;
    no_dev_signal exactly when the minimum is met and there is no dev
    signal; no_team_cue exactly when the minimum is met and there is a dev
    signal and no team cue. *)
Theorem verdict_all_or_first_failure (html title sourceUrl : jsstring) :
  let s := scoreContent html title sourceUrl in
  (passed s = true
   <-> (5 <= weightedScore s)%Q /\ hasDevSignal s = true /\ hasTeamCue s = true)
  /\ (filterReason s = [] <-> passed s = true)
  /\ (filterReason s = js "below_threshold" <-> (weightedScore s < 5)%Q)
  /\ (filterReason s = js "no_dev_signal"
      <-> (5 <= weightedScore s)%Q /\ hasDevSignal s = false)
  /\ (filterReason s = js "no_team_cue"
      <-> (5 <= weightedScore s)%Q /\ hasDevSignal s = true /\ hasTeamCue s = false).
Proof.
  cbv zeta.
  pose proof (verdict_in_order html title sourceUrl) as H. cbv zeta in H.
  change (minimum_score THRESHOLDS) with (5 : Q) in H.
  revert H. generalize (scoreContent html title sourceUrl). intros s H.
  destruct (Qlt_bool (weightedScore s) 5) eqn:Eq.
  - apply pair_equal_spec in H. destruct H as [Hp Hr]. rewrite Hp, Hr.
    apply Qlt_bool_true in Eq.
    assert (Hno : ~ (5 <= weightedScore s)%Q) by (intros Hle; exact (Qlt_not_le _ _ Eq Hle)).
    split; [split; [discriminate | intros [Hle _]; contradiction] |].
    split; [split; intros E; [vm_compute in E |]; discriminate E |].
    split; [split; [intros _; exact Eq | reflexivity] |].
    split; (split; [intros E; vm_compute in E; discriminate E
                   | intros [Hle _]; contradiction]).
  - apply Qlt_bool_false in Eq.
    assert (Hno : ~ (weightedScore s < 5)%Q) by (intros Hlt; exact (Qlt_not_le _ _ Hlt Eq)).
    destruct (hasDevSignal s) eqn:Ed; cbn [negb] in H.
    + destruct (hasTeamCue s) eqn:Et; cbn [negb] in H;
        apply pair_equal_spec in H; destruct H as [Hp Hr]; rewrite Hp, Hr.
      * split; [split; [intros _; split; [exact Eq | split; reflexivity] | reflexivity] |].
        split; [split; reflexivity |].
        split; [split; [intros E; vm_compute in E; discriminate E | contradiction] |].
        split; [split; [intros E; vm_compute in E; discriminate E
                       | intros [_ E]; discriminate E] |].
        split; [intros E; vm_compute in E; discriminate E
               | intros [_ [_ E]]; discriminate E].
      * split; [split; [discriminate | intros [_ [_ E]]; discriminate E] |].
        split; [split; intros E; [vm_compute in E |]; discriminate E |].
        split; [split; [intros E; vm_compute in E; discriminate E | contradiction] |].
        split; [split; [intros E; vm_compute in E; discriminate E
                       | intros [_ E]; discriminate E] |].
        split; [intros _; split; [exact Eq | split; reflexivity] | reflexivity].
    + apply pair_equal_spec in H. destruct H as [Hp Hr]. rewrite Hp, Hr.
      split; [split; [discriminate | intros [_ [E _]]; discriminate E] |].
      split; [split; intros E; [vm_compute in E |]; discriminate E |].
      split; [split; [intros E; vm_compute in E; discriminate E | contradiction] |].
      split; [split; [intros _; split; [exact Eq | reflexivity] | reflexivity] |].
      split; [intros E; vm_compute in E; discriminate E
             | intros [_ [E _]]; discriminate E].
Qed.

Lemma step_skips_indexed_witness :
  step Examples.acme [(js "acme.dev", js "a stored line")] Examples.launch_page
       (Examples.start Examples.launch_page)
  = Some (with_stats (count_skipped (count_source (js "showhn") stats0))
                     (Examples.start Examples.launch_page)).
Proof.
  rewrite (step_skips_indexed
             Examples.acme [(js "acme.dev", js "a stored line")] Examples.launch_page
             (Examples.start Examples.launch_page)
             {| url_hostname := js "acme.dev"; url_pathname := js "/launch";
                url_href := js "https://acme.dev/launch" |}).
  - vm_compute. reflexivity.
  - vm_compute. reflexivity.
  - vm_compute. reflexivity.
  - vm_compute. reflexivity.
Defined.

Lemma stored_plain_lead_is_indexed_witness :
  map_has (js "acme.dev") (loadExisting Examples.acme (Some More.acme_store)) = true.
Proof.
  change (js "acme.dev") with (canonical More.acme_lead).
  apply (stored_plain_lead_is_indexed Examples.acme More.acme_store More.acme_lead).
  - split; [vm_compute; reflexivity |].
    split; [vm_compute; reflexivity |].
    split; [vm_compute; reflexivity |].
    split; [vm_compute; reflexivity |].
    split; vm_compute; reflexivity.
  - intros url H. vm_compute in H. injection H as <-. vm_compute. reflexivity.
  - vm_compute. left. reflexivity.
Defined.

Lemma getCanonical_multi_tenant_distinct_witness :
  getCanonical Examples.acme (js "a.vercel.app")
  <> getCanonical Examples.acme (js "b.vercel.app").
Proof.
  apply (getCanonical_multi_tenant_distinct Examples.acme).
  - vm_compute. reflexivity.
  - vm_compute. reflexivity.
  - intros H. vm_compute in H. discriminate H.
Defined.

Lemma short_meta_description_as_absent_witness :
  extractValueProp More.short_meta_page
  = extractValueProp (without_meta_description More.short_meta_page).
Proof.
  apply (short_meta_description_as_absent More.short_meta_page).
  vm_compute. reflexivity.
Defined.

Lemma probe_failure_witness :
  fst (probe Examples.offline (js "https://acme.dev") (js "so far", Ref.world0)
             (js "/pricing")) = js "so far".
Proof.
  apply (probe_failure Examples.offline (js "https://acme.dev") (js "/pricing")
                       (js "so far") Ref.world0
                       {| url_hostname := js "acme.dev"; url_pathname := js "/pricing";
                          url_href := js "https://acme.dev/pricing" |}).
  - vm_compute. reflexivity.
  - vm_compute. reflexivity.
  - right. exists NetworkError. vm_compute. reflexivity.
Defined.

(** ** Signal buckets *)

(** The dev bucket holds, in the order of the table, the dev-signal
    tokens that occur in the text as whole words; the team bucket the
    team-signal tokens that do and are no dev signals; the dev-signal
    and team-cue checks ask whether these are empty, and the team cue of
    the lead is the first of the team bucket. *)
Theorem signal_buckets (html title sourceUrl : jsstring) :
  let s := scoreContent html title sourceUrl in
  let text := html ++ js " " ++ title in
  sig_dev (detectedSignals s)
  = filter (fun t => matches_whole_word t text && has DEV_SIGNALS t) (map fst WEIGHTS)
  /\ sig_team (detectedSignals s)
     = filter (fun t => matches_whole_word t text && negb (has DEV_SIGNALS t)
                        && has TEAM_SIGNALS t) (map fst WEIGHTS)
  /\ hasDevSignal s = negb (length (sig_dev (detectedSignals s)) =? 0)
  /\ hasTeamCue s = negb (length (sig_team (detectedSignals s)) =? 0)
  /\ teamCue s = hd [] (sig_team (detectedSignals s)).
Proof.
  cbv zeta.
  assert (Hok : forall t, In t (map fst WEIGHTS) -> token_ok t = true).
  { intros t Hin. apply in_map_iff in Hin. destruct Hin as [tw [<- Hin]].
    pose proof WEIGHTS_tokens_ok as H. rewrite forallb_forall in H. exact (H tw Hin). }
  destruct (scan_tokens_buckets (toLowerCase (html ++ js " " ++ title)) WEIGHTS)
    as [Hd Ht].
  unfold scoreContent.
  destruct (scan_tokens WEIGHTS (toLowerCase (html ++ js " " ++ title))) as [q sg].
  cbn [snd] in Hd, Ht.
  assert (Hsame : sig_dev sg
                  = filter (fun t => matches_whole_word t (html ++ js " " ++ title)
                                     && has DEV_SIGNALS t) (map fst WEIGHTS)
                  /\ sig_team sg
                     = filter (fun t => matches_whole_word t (html ++ js " " ++ title)
                                        && negb (has DEV_SIGNALS t) && has TEAM_SIGNALS t)
                              (map fst WEIGHTS)).
  { rewrite Hd, Ht. split; apply filter_ext_in; intros t Hin;
      rewrite (token_test_spec t _ (Hok t Hin)); reflexivity. }
  destruct Hsame as [Hsd Hst].
  assert (Hlen : forall l : list jsstring, (0 <? length l) = negb (length l =? 0)).
  { intros l. destruct l; reflexivity. }
  destruct (negb (Qle_bool (minimum_score THRESHOLDS) q));
    [| destruct (require_dev_signal THRESHOLDS && negb (0 <? length (sig_dev sg)));
       [| destruct (require_team_cue THRESHOLDS && negb (0 <? length (sig_team sg)))]];
    cbn [detectedSignals hasDevSignal hasTeamCue teamCue];
    (split; [exact Hsd |]); (split; [exact Hst |]);
    (split; [apply Hlen |]); (split; [apply Hlen | reflexivity]).
Qed.


(** ** The day in the cache key *)

Lemma digits_fuel_no_T (fuel : nat) :
  forall (n : N) (acc : jsstring),
    ~ In 84%N acc -> ~ In 84%N (digits_fuel fuel n acc).
Proof.
  induction fuel as [| fuel IH]; intros n acc Hacc; simpl; [exact Hacc |].
  assert (Hd : ~ In 84%N ((48 + n mod 10)%N :: acc)).
  { intros [H | H]; [| exact (Hacc H)].
    pose proof (N.mod_upper_bound n 10). lia. }
  destruct (n <? 10)%N; [exact Hd | apply IH; exact Hd].
Qed.

Lemma pad0_no_T (w : nat) (n : N) : ~ In 84%N (pad0 w n).
Proof.
  unfold pad0, N_to_js. intros H. apply in_app_or in H. destruct H as [H | H].
  - apply repeat_spec in H. discriminate H.
  - revert H. apply digits_fuel_no_T. intros [].
Qed.

Lemma date_string_no_T (y m d : Z) : ~ In 84%N (date_string y m d).
Proof.
  unfold date_string. intros Hin.
  assert (Hdash : ~ In 84%N (js "-")) by (vm_compute; intuition discriminate).
  apply in_app_or in Hin. destruct Hin as [Hin | Hin].
  { destruct ((0 <=? y) && (y <=? 9999))%Z.
    - exact (pad0_no_T 4 _ Hin).
    - apply in_app_or in Hin. destruct Hin as [Hin | Hin].
      + destruct (y <? 0)%Z; vm_compute in Hin; intuition discriminate.
      + exact (pad0_no_T 6 _ Hin). }
  apply in_app_or in Hin. destruct Hin as [Hin | Hin]; [exact (Hdash Hin) |].
  apply in_app_or in Hin. destruct Hin as [Hin | Hin]; [exact (pad0_no_T 2 _ Hin) |].
  apply in_app_or in Hin. destruct Hin as [Hin | Hin]; [exact (Hdash Hin) |].
  exact (pad0_no_T 2 _ Hin).
Qed.

Lemma toISOString_date (t : Z) :
  exists rest, toISOString t = date_of_day (t / msPerDay) ++ 84%N :: rest.
Proof.
  unfold toISOString, date_of_day.
  destruct (civil_from_days (t / msPerDay)) as [[y m] d].
  unfold date_string. change (js "T") with [84%N].
  eexists. repeat rewrite <- app_assoc. cbn [app]. reflexivity.
Qed.

(** The date in the key is the date of the day number. *)
Lemma isoDate_day (t : Z) : isoDate t = date_of_day (t / msPerDay).
Proof.
  unfold isoDate. destruct (toISOString_date t) as [rest ->].
  rewrite split_unit_head; [reflexivity |].
  unfold date_of_day. destruct (civil_from_days (t / msPerDay)) as [[y m] d].
  apply date_string_no_T.
Qed.

(** Two instants of the same UTC day give the same cache key, and so the
    same cache file, for a host name and path. *)
Theorem same_day_same_cache_key (t t' : Z) (canon path : jsstring) :
  (t / msPerDay = t' / msPerDay)%Z ->
  getCacheKey t canon path = getCacheKey t' canon path.
Proof.
  intros H. apply getCacheKey_same_day. rewrite !isoDate_day, H. reflexivity.
Qed.

Lemma same_day_same_cache_key_witness :
  getCacheKey 1704067199000 (js "acme.dev") (js "/pricing")
  = getCacheKey 1703980800000 (js "acme.dev") (js "/pricing").
Proof.
  apply (same_day_same_cache_key 1704067199000 1703980800000).
  vm_compute. reflexivity.
Defined.
